(** * DORA metrics of the Jira dashboard API

    A shallow embedding of the two route files

      - [src/app/api/jira/metrics/health-matrix/route.ts] (the health-matrix
        handler and, after the separator, the single-project handler; both
        carry the same [calculateDaysBetween], [findStatusChangeTime] and
        [calculateDORAMetrics]),
      - [src/app/api/jira/health/route.ts] (the health handler),

    and the properties of the metric computation and of the three handlers.

    JavaScript numbers are IEEE-754 binary64 values.  They are modelled by
    their exact rational value, and every arithmetic operation rounds its
    exact result to the nearest binary64 value, ties to even, as the
    standard prescribes. *)

From Stdlib Require Import ZArith QArith Qround Qpower Qabs Qreduction Qcanon.
From Stdlib Require Import Lqa Lia List String Ascii Bool Permutation.
From Stdlib Require Import SpecFloat.
From stdpp Require Import gmap strings.

Open Scope Q_scope.

(** ** JavaScript numbers *)

Module JS.

(** A number is NaN, an infinity, or a finite binary64 value held as the
    rational it denotes.  The sign of zero is not tracked: no operation of the
    program tells the two zeros apart ([JSON.stringify] prints both as 0). *)
Inductive number : Type :=
  | NaN
  | Inf (negative : bool)
  | Num (q : Q).

Definition pow2 (e : Z) : Q := 2 ^ e.

(** [ilog2 x] is the integer [l] with 2^l <= x < 2^(l+1), for [x] positive. *)
Definition ilog2 (x : Q) : Z :=
  let g := (Z.log2 (Qnum x) - Z.log2 (Zpos (Qden x)))%Z in
  if Qle_bool (pow2 g) x then g else (g - 1)%Z.

(** Exponent of the last place of a binary64 value of the size of [x]:
    53 significant bits, and at least 2^-1074. *)
Definition fexp (x : Q) : Z := Z.max (ilog2 x - 52) (-1074).

Definition round_half_even (x : Q) : Z :=
  let f := Qfloor x in
  match Qcompare (x - inject_Z f) (1 # 2) with
  | Lt => f
  | Gt => (f + 1)%Z
  | Eq => if Z.even f then f else (f + 1)%Z
  end.

(** The binary64 value nearest to a positive rational, exponent unbounded
    above. *)
Definition nearest (x : Q) : Q :=
  inject_Z (round_half_even (x / pow2 (fexp x))) * pow2 (fexp x).

(** Rounding of an exact result to a number: overflow gives an infinity. *)
Definition round (x : Q) : number :=
  match Qcompare x 0 with
  | Eq => Num 0
  | Gt => let r := nearest x in
          if Qle_bool (pow2 1024) r then Inf false else Num (Qred r)
  | Lt => let r := nearest (- x) in
          if Qle_bool (pow2 1024) r then Inf true else Num (Qred (- r))
  end.

Definition of_Z (z : Z) : number := round (inject_Z z).
Definition of_nat (n : nat) : number := of_Z (Z.of_nat n).

Definition is_zero (q : Q) : bool := Qeq_bool q 0.
Definition is_neg (q : Q) : bool := negb (Qle_bool 0 q).

(** [x + y] *)
Definition add (x y : number) : number :=
  match x, y with
  | NaN, _ | _, NaN => NaN
  | Inf a, Inf b => if Bool.eqb a b then Inf a else NaN
  | Inf a, Num _ => Inf a
  | Num _, Inf b => Inf b
  | Num a, Num b => round (a + b)
  end.

Definition neg (x : number) : number :=
  match x with
  | NaN => NaN
  | Inf a => Inf (negb a)
  | Num a => Num (Qred (- a))
  end.

(** [x - y] *)
Definition sub (x y : number) : number := add x (neg y).

(** [x * y] *)
Definition mul (x y : number) : number :=
  match x, y with
  | NaN, _ | _, NaN => NaN
  | Inf a, Inf b => Inf (xorb a b)
  | Inf a, Num q | Num q, Inf a =>
      if is_zero q then NaN else Inf (xorb a (is_neg q))
  | Num a, Num b => round (a * b)
  end.

(** [x / y] *)
Definition div (x y : number) : number :=
  match x, y with
  | NaN, _ | _, NaN => NaN
  | Inf _, Inf _ => NaN
  | Inf a, Num q => Inf (xorb a (is_neg q))
  | Num _, Inf _ => Num 0
  | Num a, Num b =>
      if is_zero b then
        if is_zero a then NaN else Inf (is_neg a)
      else round (a / b)
  end.

(** [Math.abs] and [Math.ceil]: both are exact on binary64 values. *)
Definition abs (x : number) : number :=
  match x with
  | NaN => NaN
  | Inf _ => Inf false
  | Num a => Num (Qred (Qabs a))
  end.

Definition ceil (x : number) : number :=
  match x with
  | NaN => NaN
  | Inf a => Inf a
  | Num a => Num (inject_Z (Qceiling a))
  end.

(** [x > y] *)
Definition gt (x y : number) : bool :=
  match x, y with
  | NaN, _ | _, NaN => false
  | Inf a, Inf b => negb a && b
  | Inf a, Num _ => negb a
  | Num _, Inf b => b
  | Num a, Num b => negb (Qle_bool a b)
  end.

(** Truthiness of a number: NaN and zero are falsy. *)
Definition truthy (x : number) : bool :=
  match x with
  | NaN => false
  | Inf _ => true
  | Num a => negb (is_zero a)
  end.

(** Finite and not negative. *)
Definition finite_nonneg (x : number) : Prop :=
  match x with
  | Num a => 0 <= a
  | _ => False
  end.

(** The value of a number in the Standard Library's IEEE-754 format, used to
    compare the operations above with the library's [SFadd], [SFmul] and
    [SFdiv] on sample arguments. *)
Definition of_spec_float (f : spec_float) : number :=
  match f with
  | S754_zero _ => Num 0
  | S754_infinity s => Inf s
  | S754_nan => NaN
  | S754_finite s m e =>
      Num (Qred ((if s then -1 else 1) * inject_Z (Zpos m) * pow2 e))
  end.

Definition binary64_of_Z (z : Z) : spec_float := binary_normalize 53 1024 z 0 false.

(** *** Decimal text of numbers: [toFixed(1)] and [parseFloat] *)

Definition pow10 (e : Z) : Q := 10 ^ e.

Definition digit_char (d : Z) : ascii := ascii_of_nat (48 + Z.to_nat d).

Fixpoint digits_aux (fuel : nat) (n : Z) (acc : string) : string :=
  match fuel with
  | O => acc
  | S fuel' =>
      let acc' := String (digit_char (n mod 10)) acc in
      if (n / 10 =? 0)%Z then acc' else digits_aux fuel' (n / 10) acc'
  end.

(** The decimal digits of a natural number, ["0"] for zero. *)
Definition digits (n : Z) : string :=
  digits_aux (S (Z.to_nat (Z.log2 n))) n EmptyString.

(** [Number::toString] on a binary64 value [a >= 10^21], which is printed
    with an exponent: the shortest significand [s] of [k] digits with
    [s * 10^(n-k)] rounding to [a], the closest to [a] if several do. *)
Definition shortest_candidates (a : Q) (d k : Z) : list (Z * Z) :=
  let f := Qfloor (a / pow10 (d - k)) in
  let up := if (f + 1 <? 10 ^ k)%Z then [((f + 1)%Z, d)]
            else if (k =? 1)%Z then [(1%Z, (d + 1)%Z)] else [] in
  List.filter (fun c => match round (inject_Z (fst c) * pow10 (snd c - k)) with
                   | Num r => Qeq_bool r a
                   | _ => false
                   end)
         ((f, d) :: up).

Definition closer (a : Q) (k : Z) (c1 c2 : Z * Z) : Z * Z :=
  let dist c := Qabs (inject_Z (fst c) * pow10 (snd c - k) - a) in
  match Qcompare (dist c1) (dist c2) with
  | Lt => c1
  | Gt => c2
  | Eq => if Z.even (fst c1) then c1 else c2
  end.

Fixpoint shortest_from (fuel : nat) (a : Q) (d k : Z) : Z * Z * Z :=
  match fuel with
  | O => (Qfloor a, d, d)
  | S fuel' =>
      match shortest_candidates a d k with
      | [] => shortest_from fuel' a d (k + 1)
      | c :: cs => let c' := fold_left (closer a k) cs c in (fst c', snd c', k)
      end
  end.

Definition toString_exponent (a : Q) : string :=
  let d := Z.of_nat (String.length (digits (Qfloor a))) in
  let '(s, n, k) := shortest_from 17 a d 1 in
  let m := digits s in
  let e := ("e+" ++ digits (n - 1))%string in
  match m with
  | String c EmptyString => (m ++ e)%string
  | String c rest => (String c (String "." rest) ++ e)%string
  | EmptyString => e
  end.

(** [x.toFixed(1)]: [n] is the integer with [n / 10] nearest to [x], the
    larger one on a tie; its digits are printed with the point before the last
    one. *)
Definition toFixed1 (x : number) : string :=
  match x with
  | NaN => "NaN"
  | Inf s => if s then "-Infinity" else "Infinity"
  | Num q =>
      let s := if is_neg q then "-"%string else EmptyString in
      let a := Qabs q in
      if Qle_bool (pow10 21) a then (s ++ toString_exponent a)%string
      else
        let n := Qfloor (a * 10 + (1 # 2)) in
        (s ++ digits (n / 10) ++ "." ++ digits (n mod 10))%string
  end.

Definition is_digit (c : ascii) : bool :=
  (48 <=? nat_of_ascii c)%nat && (nat_of_ascii c <=? 57)%nat.

Definition digit_value (c : ascii) : Z := Z.of_nat (nat_of_ascii c - 48).

Definition is_space (c : ascii) : bool :=
  let n := nat_of_ascii c in
  (n =? 32)%nat || ((9 <=? n)%nat && (n <=? 13)%nat).

Fixpoint skip_spaces (s : string) : string :=
  match s with
  | String c s' => if is_space c then skip_spaces s' else s
  | EmptyString => s
  end.

(** Reads the decimal digits at the head of [s]: their value added to
    [acc * 10^count], their count added to [cnt], and the rest of [s]. *)
Fixpoint read_digits (s : string) (acc cnt : Z) : Z * Z * string :=
  match s with
  | String c s' =>
      if is_digit c then read_digits s' (acc * 10 + digit_value c)%Z (cnt + 1)%Z
      else (acc, cnt, s)
  | EmptyString => (acc, cnt, s)
  end.

(** The value of a text of digits read after [acc], and the texts made of
    digits only. *)
Fixpoint digits_value (s : string) (acc : Z) : Z :=
  match s with
  | String c s' => digits_value s' (acc * 10 + digit_value c)
  | EmptyString => acc
  end.

Fixpoint all_digits (s : string) : bool :=
  match s with
  | String c s' => is_digit c && all_digits s'
  | EmptyString => true
  end.

Definition read_sign (s : string) : bool * string :=
  match s with
  | String "-" s' => (true, s')
  | String "+" s' => (false, s')
  | _ => (false, s)
  end.

(** The exponent part [e], [E] with an optional sign and at least one digit;
    0 when there is none. *)
Definition read_exponent (s : string) : Z :=
  match s with
  | String c s' =>
      if (Ascii.eqb c "e" || Ascii.eqb c "E")%bool then
        let '(sg, s'') := read_sign s' in
        let '(v, cnt, _) := read_digits s'' 0 0 in
        if (cnt =? 0)%Z then 0%Z else if sg then (- v)%Z else v
      else 0%Z
  | EmptyString => 0%Z
  end.

Definition signed (negative : bool) (x : number) : number :=
  if negative then neg x else x.

(** [parseFloat(s)]: the longest prefix of the trimmed text that is a decimal
    literal, rounded to a number; NaN when there is none. *)
Definition parseFloat (s : string) : number :=
  let '(sg, s1) := read_sign (skip_spaces s) in
  if String.prefix "Infinity" s1 then Inf sg
  else
    let '(ip, ic, r1) := read_digits s1 0 0 in
    match r1 with
    | String "." r2 =>
        let '(m, fc, r3) := read_digits r2 ip 0 in
        if ((ic =? 0) && (fc =? 0))%Z then NaN
        else signed sg (round (inject_Z m * pow10 (read_exponent r3 - fc)))
    | _ =>
        if (ic =? 0)%Z then NaN
        else signed sg (round (inject_Z ip * pow10 (read_exponent r1)))
    end.

End JS.

Import JS.

(** ** The issue payload

    The handlers receive the issues as untyped JSON; the records below give
    the fields that the computation reads.  A timestamp text is held as the
    time value, in milliseconds since the epoch, that [Date.parse] reads from
    it; [None] is the JSON [null] of a date that is not set, which is falsy. *)

Record Item := { field : string; toString : string }.

Module History.
Record t := { created : Z; items : list Item }.
End History.

Record Changelog := { histories : option (list History.t) }.

Record Named := { name : string }.

Record Fields := {
  status : Named;
  issuetype : Named;
  created : option Z;
  resolutiondate : option Z;
  customfield_10024 : option number
}.

Record Issue := { fields : Fields; changelog : option Changelog }.

Record Metrics := {
  leadTime : number;
  deploymentFrequency : number;
  changeFailureRate : number;
  recoveryTime : number;
  velocity : number
}.

(** *** Dates *)

(** A [Date] object is its time value: NaN for an invalid date. *)
Definition Date := number.

(** [new Date(text)]: time values beyond 8.64e15 ms make an invalid date. *)
Definition new_Date (t : Z) : Date :=
  if (Z.abs t <=? 8640000000000000)%Z then of_Z t else NaN.

(** [new Date(field)] on a date field; [new Date(null)] is the epoch. *)
Definition new_Date_field (f : option Z) : Date :=
  match f with
  | Some t => new_Date t
  | None => of_Z 0
  end.

Definition getTime (d : Date) : number := d.

(** Truthiness of a date field and of a story-point field. *)
Definition is_set {A : Type} (f : option A) : bool :=
  match f with
  | Some _ => true
  | None => false
  end.

(** ** The metric computation (route.ts, lines 163-246) *)

Definition calculateDaysBetween (date1 date2 : Date) : number :=
  let diffTime := abs (sub (getTime date2) (getTime date1)) in
  ceil (div diffTime (mul (mul (mul (of_Z 1000) (of_Z 60)) (of_Z 60)) (of_Z 24))).

(** The inner loop of [findStatusChangeTime]: does some item of the history
    record a change of the status to [statusName]? *)
Fixpoint items_match (items : list Item) (statusName : string) : bool :=
  match items with
  | [] => false
  | item :: rest =>
      if String.eqb (field item) "status" && String.eqb (toString item) statusName
      then true
      else items_match rest statusName
  end.

Fixpoint scan_histories (hs : list History.t) (statusName : string) : option Date :=
  match hs with
  | [] => None
  | history :: rest =>
      if items_match (History.items history) statusName
      then Some (new_Date (History.created history))
      else scan_histories rest statusName
  end.

Definition findStatusChangeTime (changelog : option Changelog) (statusName : string)
  : option Date :=
  match changelog with
  | None => None
  | Some c =>
      match histories c with
      | None => None
      | Some hs => scan_histories hs statusName
      end
  end.

Definition releasedIssues (issues : list Issue) : list Issue :=
  List.filter
    (fun i => String.eqb (name (status (fields i))) "Released"
              && is_set (resolutiondate (fields i)))
    issues.

Definition bugs (issues : list Issue) : list Issue :=
  List.filter (fun i => String.eqb (name (issuetype (fields i))) "Bug") issues.

Definition releasedBugs (issues : list Issue) : list Issue :=
  List.filter (fun b => String.eqb (name (status (fields b))) "Released") (bugs issues).

(** The body of the first [forEach]: the state is
    [(totalLeadTime, leadTimeCount)]. *)
Definition leadTime_step (st : number * number) (issue : Issue) : number * number :=
  let '(totalLeadTime, leadTimeCount) := st in
  let devStartTime := findStatusChangeTime (changelog issue) "In Development" in
  let releaseTime := new_Date_field (resolutiondate (fields issue)) in
  match devStartTime with
  | Some devStart =>
      let leadTime := calculateDaysBetween devStart releaseTime in
      (add totalLeadTime leadTime, add leadTimeCount (of_Z 1))
  | None => (totalLeadTime, leadTimeCount)
  end.

(** The body of the second [forEach]: the state is
    [(totalRecoveryTime, recoveryCount)]. *)
Definition recovery_step (st : number * number) (bug : Issue) : number * number :=
  let '(totalRecoveryTime, recoveryCount) := st in
  if is_set (created (fields bug)) && is_set (resolutiondate (fields bug)) then
    let recoveryTime :=
      calculateDaysBetween (new_Date_field (created (fields bug)))
                           (new_Date_field (resolutiondate (fields bug))) in
    (add totalRecoveryTime (mul recoveryTime (of_Z 24)), add recoveryCount (of_Z 1))
  else (totalRecoveryTime, recoveryCount).

(** [issue.fields.customfield_10024 || 0] *)
Definition points (issue : Issue) : number :=
  match customfield_10024 (fields issue) with
  | Some p => if truthy p then p else of_Z 0
  | None => of_Z 0
  end.

Definition array_length {A : Type} (l : list A) : number := of_nat (List.length l).

Definition calculateDORAMetrics (issues : list Issue) : Metrics :=
  let released := releasedIssues issues in
  (* 1. Change Lead Time *)
  let '(totalLeadTime, leadTimeCount) :=
    fold_left leadTime_step released (of_Z 0, of_Z 0) in
  let avgLeadTime :=
    if gt leadTimeCount (of_Z 0) then toFixed1 (div totalLeadTime leadTimeCount)
    else "0"%string in
  (* 2. Deployment Frequency *)
  let weeksPassed := of_Z 4 in
  let deploymentFrequency := toFixed1 (div (array_length released) weeksPassed) in
  (* 3. Change Failure Rate *)
  let failureRate :=
    if gt (array_length released) (of_Z 0)
    then toFixed1 (mul (div (array_length (releasedBugs issues)) (array_length released))
                       (of_Z 100))
    else "0"%string in
  (* 4. Recovery Time *)
  let '(totalRecoveryTime, recoveryCount) :=
    fold_left recovery_step (releasedBugs issues) (of_Z 0, of_Z 0) in
  let avgRecoveryTime :=
    if gt recoveryCount (of_Z 0) then toFixed1 (div totalRecoveryTime recoveryCount)
    else "0"%string in
  (* 5. Velocity *)
  let storyPoints := fold_left (fun sum issue => add sum (points issue)) issues (of_Z 0) in
  {| leadTime := parseFloat avgLeadTime;
     deploymentFrequency := parseFloat deploymentFrequency;
     changeFailureRate := parseFloat failureRate;
     recoveryTime := parseFloat avgRecoveryTime;
     velocity := storyPoints |}.

(** ** Vocabulary of the properties

    The quantities that the properties of the computation are stated with,
    in exact integer and rational arithmetic. *)

(** An issue is released when its status is [Released] and it has a
    resolution date. *)
Definition released (i : Issue) : bool :=
  String.eqb (name (status (fields i))) "Released" && is_set (resolutiondate (fields i)).

Definition status_released (i : Issue) : bool :=
  String.eqb (name (status (fields i))) "Released".

Definition is_bug (i : Issue) : bool :=
  String.eqb (name (issuetype (fields i))) "Bug".

(** Rounding to one decimal, a half upwards. *)
Definition round1 (q : Q) : Q := inject_Z (Qfloor (q * 10 + (1 # 2))) / 10.

(** [n / 10] is a decimal with one place nearest to [q]. *)
Definition nearest_tenth (n : Z) (q : Q) : Prop :=
  Qabs (inject_Z n / 10 - q) <= 1 # 20.

Definition ms_per_day : Z := 86400000.

(** The whole days between two time values: the ceiling of the absolute
    difference over one day. *)
Definition days_between (t1 t2 : Z) : Z := (- ((- Z.abs (t2 - t1)) / ms_per_day))%Z.

(** A history records a change of the status to [statusName]. *)
Definition transition_to (statusName : string) (h : History.t) : bool :=
  existsb (fun item => String.eqb (field item) "status"
                       && String.eqb (toString item) statusName)
          (History.items h).

Definition issue_histories (i : Issue) : list History.t :=
  match changelog i with
  | Some c => match histories c with Some hs => hs | None => [] end
  | None => []
  end.

(** The time of the first history, in the order of the changelog, that
    records a change of the status to [statusName]. *)
Definition first_transition (statusName : string) (i : Issue) : option Z :=
  option_map History.created (List.find (transition_to statusName) (issue_histories i)).

(** Lead time of an issue in days, when it has a resolution date and went to
    [In Development]. *)
Definition lead_days (i : Issue) : option Z :=
  match first_transition "In Development" i, resolutiondate (fields i) with
  | Some t0, Some t1 => Some (days_between t0 t1)
  | _, _ => None
  end.

(** Recovery time of an issue in hours, when it has both dates. *)
Definition recovery_hours (i : Issue) : option Z :=
  match created (fields i), resolutiondate (fields i) with
  | Some t0, Some t1 => Some (days_between t0 t1 * 24)%Z
  | _, _ => None
  end.

Fixpoint keep_some {A B : Type} (f : A -> option B) (l : list A) : list B :=
  match l with
  | [] => []
  | a :: l' => match f a with
               | Some b => b :: keep_some f l'
               | None => keep_some f l'
               end
  end.

(** The lead times of the released issues that have one, and the recovery
    times of the released bugs that have both dates. *)
Definition lead_times (issues : list Issue) : list Z :=
  keep_some lead_days (List.filter released issues).

Definition recovery_times (issues : list Issue) : list Z :=
  keep_some recovery_hours (List.filter (fun i => is_bug i && released i) issues).

(** Both loops add a value to a total and one to a count, for the elements
    that have a value. *)
Definition accumulate {A : Type} (value : A -> option number)
    (st : number * number) (x : A) : number * number :=
  match value x with
  | Some v => (add (fst st) v, add (snd st) (of_Z 1))
  | None => st
  end.

Definition lead_value (issue : Issue) : option number :=
  option_map
    (fun devStart =>
       calculateDaysBetween devStart (new_Date_field (resolutiondate (fields issue))))
    (findStatusChangeTime (changelog issue) "In Development").

Definition recovery_value (bug : Issue) : option number :=
  if is_set (created (fields bug)) && is_set (resolutiondate (fields bug))
  then Some (mul (calculateDaysBetween (new_Date_field (created (fields bug)))
                                       (new_Date_field (resolutiondate (fields bug))))
                 (of_Z 24))
  else None.

Definition sumZ (l : list Z) : Z := fold_right Z.add 0%Z l.

Definition mean (l : list Z) : Q := inject_Z (sumZ l) / inject_Z (Z.of_nat (List.length l)).

(** Story points that are whole numbers: [p] is the value of the field of
    [i], 0 when the field is not set. *)
Definition whole_points (i : Issue) (p : Z) : Prop :=
  match customfield_10024 (fields i) with
  | Some x => x = Num (inject_Z p)
  | None => p = 0%Z
  end.

(** All the time values that an issue carries. *)
Definition issue_times (i : Issue) : list Z :=
  match created (fields i) with Some t => [t] | None => [] end
  ++ match resolutiondate (fields i) with Some t => [t] | None => [] end
  ++ map History.created (issue_histories i).

(** Time values of dates with a four-digit year, from 0000-01-01 to
    9999-12-31, as the timestamps of the tracker are. *)
Definition iso_time (t : Z) : Prop := (-62167219200000 <= t <= 253402300799999)%Z.

(** Time values of valid [Date] objects. *)
Definition valid_time (t : Z) : Prop := (Z.abs t <= 8640000000000000)%Z.

Definition iso_times (issues : list Issue) : Prop :=
  Forall (fun i => Forall iso_time (issue_times i)) issues.

(** The dates that the lead time is computed from: the first change to
    [In Development] and the resolution date of every released issue that
    has such a change. *)
Definition lead_dates (i : Issue) : list Z :=
  if released i then
    match first_transition "In Development" i, resolutiondate (fields i) with
    | Some t0, Some t1 => [t0; t1]
    | _, _ => []
    end
  else [].

(** The dates that the recovery time is computed from: the creation and the
    resolution date of every bug with the status [Released] that has both. *)
Definition recovery_dates (i : Issue) : list Z :=
  if is_bug i && status_released i then
    match created (fields i), resolutiondate (fields i) with
    | Some t0, Some t1 => [t0; t1]
    | _, _ => []
    end
  else [].

(** All of these dates are valid; one of them is not. *)
Definition valid_dates (dates : Issue -> list Z) (issues : list Issue) : Prop :=
  Forall (fun i => Forall valid_time (dates i)) issues.

Definition invalid_date (dates : Issue -> list Z) (issues : list Issue) : Prop :=
  Exists (fun i => Exists (fun t => ~ valid_time t) (dates i)) issues.

(** A JavaScript array has fewer than 2^32 elements. *)
Definition is_array {A : Type} (l : list A) : Prop := (Z.of_nat (List.length l) < 2 ^ 32)%Z.

(** Sample issues. *)
Definition day (n : Z) : Z := (n * ms_per_day)%Z.

Definition make_issue (status_name type_name : string) (created_at resolved_at : option Z)
    (story_points : option number) (log : option Changelog) : Issue :=
  {| fields := {| status := {| name := status_name |};
                  issuetype := {| name := type_name |};
                  created := created_at;
                  resolutiondate := resolved_at;
                  customfield_10024 := story_points |};
     changelog := log |}.

Definition status_change (t : Z) (to : string) : History.t :=
  {| History.created := t;
     History.items := [ {| field := "status"; toString := to |} ] |}.

(** One released issue, resolved on day 10, that went to development on
    day 2. *)
Definition lead_scenario : list Issue :=
  [ make_issue "Released" "Story" (Some (day 0)) (Some (day 10)) None
      (Some {| histories := Some [status_change (day 2) "In Development"] |}) ].

(** Two bugs with the status [Released], the second without a resolution
    date. *)
Definition two_bugs : list Issue :=
  [ make_issue "Released" "Bug" (Some (day 0)) (Some (day 1)) None None;
    make_issue "Released" "Bug" (Some (day 0)) None None None ].

(** One bug with the status [Released] that went to development on day 2 and
    whose resolution date is not a valid date. *)
Definition invalid_release : list Issue :=
  [ make_issue "Released" "Bug" (Some (day 0)) (Some 8640000000000001%Z) None
      (Some {| histories := Some [status_change (day 2) "In Development"] |}) ].

(** A released bug and a released task. *)
Definition bug_and_task : list Issue :=
  [ make_issue "Released" "Bug" (Some (day 0)) (Some (day 1)) None None;
    make_issue "Released" "Task" (Some (day 0)) (Some (day 3)) None None ].

(** The change-failure rate in the words of the specification: the released
    bugs over the released issues, as a percentage with one decimal. *)
Definition claimed_failure_rate (issues : list Issue) : number :=
  let count p := Z.of_nat (List.length (List.filter p issues)) in
  if (count released =? 0)%Z then Num 0
  else round (round1 (100 * inject_Z (count (fun i => is_bug i && released i))
                      / inject_Z (count released))).


(** ** Requests to the issue tracker

    An [async] function runs against the tracker: it either returns a value
    or throws an error with a message, and it extends the log of the requests
    sent so far.  The tracker's answer may depend on everything sent before.
    What [console.error] writes to the log of the server is left out. *)

Record Env := {
  JIRA_EMAIL : option string;
  JIRA_API_TOKEN : option string;
  JIRA_DOMAIN : option string
}.

(** What the URL and the headers of line 9 carry, before percent-encoding and
    base64. *)
Record Request := {
  url_domain : string;
  credentials : string;
  jql : string;
  field_names : list string;
  maxResults : Z;
  expand : string
}.

Record SearchResult := { issues : list Issue; total : Z }.

Inductive outcome (A : Type) : Type :=
  | Returned (a : A)
  | Thrown (message : string).
Arguments Returned {A} a.
Arguments Thrown {A} message.

Module Fetch.
(** The response of [fetch]: [json] is what [response.json()] gives, which
    throws on a body that is not JSON. *)
Record Response := {
  ok : bool;
  status : Z;
  text : string;
  json : outcome SearchResult
}.
(** [fetch] itself rejects when the network fails. *)
Definition result := outcome Response.
End Fetch.

Definition World := list Request.
Definition Tracker := World -> Request -> Fetch.result.

Definition M (A : Type) : Type := World -> outcome A * World.

Definition ret {A : Type} (a : A) : M A := fun w => (Returned a, w).
Definition throw {A : Type} (message : string) : M A := fun w => (Thrown message, w).
Definition bind {A B : Type} (m : M A) (k : A -> M B) : M B :=
  fun w =>
    match m w with
    | (Returned a, w') => k a w'
    | (Thrown e, w') => (Thrown e, w')
    end.
Definition try_catch {A : Type} (m : M A) (handler : string -> M A) : M A :=
  fun w =>
    match m w with
    | (Returned a, w') => (Returned a, w')
    | (Thrown e, w') => handler e w'
    end.
Definition lift {A : Type} (o : outcome A) : M A := fun w => (o, w).
Definition fetch (tracker : Tracker) (r : Request) : M Fetch.Response :=
  fun w => (tracker w r, w ++ [r]).

Notation "x <- m ;; k" := (bind m (fun x => k))
  (at level 100, m at next level, right associativity).

(** A template literal prints an unset variable as [undefined]. *)
Definition interpolate (v : option string) : string :=
  match v with
  | Some s => s
  | None => "undefined"
  end.

(** Truthiness of a text that may be missing: the empty text is falsy. *)
Definition present (v : option string) : bool :=
  match v with
  | Some s => negb (String.eqb s EmptyString)
  | None => false
  end.

(** [v || d] *)
Definition or_else (v : option string) (d : string) : string :=
  match v with
  | Some s => if String.eqb s EmptyString then d else s
  | None => d
  end.

Definition search_request (env : Env) (jql : string) (fields : list string) : Request :=
  {| url_domain := interpolate (JIRA_DOMAIN env);
     credentials := (interpolate (JIRA_EMAIL env) ++ ":" ++ interpolate (JIRA_API_TOKEN env))%string;
     jql := jql;
     field_names := fields;
     maxResults := 500;
     expand := "changelog" |}.

Record NextResponse (B : Type) := { status_code : Z; body : B }.
Arguments status_code {B} _.
Arguments body {B} _.

(** [NextResponse.json(body)] and [NextResponse.json(body, { status })] *)
Definition json_response {B : Type} (b : B) : NextResponse B :=
  {| status_code := 200; body := b |}.
Definition json_response_with {B : Type} (b : B) (status : Z) : NextResponse B :=
  {| status_code := status; body := b |}.

(** ** The health-matrix handler (route.ts, lines 1-136) *)

Module HealthMatrix.

Inductive Body : Type :=
  | Success (data : gmap string Metrics)
  | Failure (error details : string).

Definition success (b : Body) : bool :=
  match b with
  | Success _ => true
  | Failure _ _ => false
  end.

Definition fetchJiraIssues (env : Env) (tracker : Tracker)
    (jql : string) (fields : list string) : M SearchResult :=
  response <- fetch tracker (search_request env jql fields) ;;
  if negb (Fetch.ok response)
  then throw ("JIRA API error: " ++ digits (Fetch.status response))%string
  else lift (Fetch.json response).

Definition projects : list string := ["DAI"; "DGDPO"; "DMM"; "DE"; "VEH"; "CAT"]%string.

Definition fields : list string :=
  ["status"; "created"; "resolutiondate"; "issuetype"; "customfield_10024"]%string.

(** The [for] loop over the projects, on the rest of the list. *)
Fixpoint for_projects (env : Env) (tracker : Tracker) (rest : list string)
    (healthMatrix : gmap string Metrics) : M (gmap string Metrics) :=
  match rest with
  | [] => ret healthMatrix
  | project :: rest' =>
      let jql := ("project = " ++ project ++ " AND created >= -30d")%string in
      data <- fetchJiraIssues env tracker jql fields ;;
      let metrics := calculateDORAMetrics (issues data) in
      for_projects env tracker rest' (<[project := metrics]> healthMatrix)
  end.

Definition GET (env : Env) (tracker : Tracker) : M (NextResponse Body) :=
  try_catch
    (healthMatrix <- for_projects env tracker projects ∅ ;;
     ret (json_response (Success healthMatrix)))
    (fun message =>
       ret (json_response_with (Failure "Failed to fetch health matrix" message) 500)).

End HealthMatrix.

(** ** The single-project handler (route.ts, lines 137-289) *)

Module Dora.

Inductive Body : Type :=
  | Success (project : string) (totalIssues : Z) (metrics : Metrics)
  | Failure (error details : string).

(** [searchParams.get] on the three parameters the handler reads. *)
Record SearchParams := {
  get_project : option string;
  get_startDate : option string;
  get_endDate : option string
}.

Definition fetchJiraIssues (env : Env) (tracker : Tracker)
    (jql : string) (fields : list string) : M SearchResult :=
  response <- fetch tracker (search_request env jql fields) ;;
  if negb (Fetch.ok response)
  then
    let error := Fetch.text response in
    throw ("JIRA API error: " ++ digits (Fetch.status response) ++ " - " ++ error)%string
  else lift (Fetch.json response).

Definition fields : list string :=
  ["status"; "created"; "updated"; "resolutiondate"; "issuetype";
   "customfield_10024"]%string.

Definition quoted (s : string) : string :=
  (String (ascii_of_nat 34) s ++ String (ascii_of_nat 34) EmptyString)%string.

Definition build_jql (project : string) (startDate endDate : option string) : string :=
  let jql := ("project = " ++ project)%string in
  let jql := if present startDate
             then (jql ++ " AND created >= " ++ quoted (interpolate startDate))%string
             else jql in
  let jql := if present endDate
             then (jql ++ " AND created <= " ++ quoted (interpolate endDate))%string
             else jql in
  jql.

Definition GET (env : Env) (tracker : Tracker) (searchParams : SearchParams)
  : M (NextResponse Body) :=
  try_catch
    (let project := or_else (get_project searchParams) "DAI" in
     let startDate := get_startDate searchParams in
     let endDate := get_endDate searchParams in
     let jql := build_jql project startDate endDate in
     data <- fetchJiraIssues env tracker jql fields ;;
     let metrics := calculateDORAMetrics (issues data) in
     ret (json_response (Success project (total data) metrics)))
    (fun message =>
       ret (json_response_with (Failure "Failed to fetch DORA metrics" message) 500)).

End Dora.

(** ** The health handler (health/route.ts) *)

Module Health.

Record Body := {
  status : string;
  message : string;
  jiraConnected : bool;
  domain : string
}.

Definition GET (env : Env) : M (NextResponse Body) :=
  let jiraConnected := present (JIRA_EMAIL env) && present (JIRA_API_TOKEN env) in
  ret (json_response
         {| status := "ok";
            message := "DMINT Dashboard API is running";
            jiraConnected := jiraConnected;
            domain := or_else (JIRA_DOMAIN env) "Not configured" |}).

End Health.

(** ** Vocabulary of the handlers' properties *)

(** The data that a reply of the tracker lets [fetchJiraIssues] return:
    none when [fetch] rejects, when the response is not [ok], or when its
    body is not JSON. *)
Definition reply_data (reply : Fetch.result) : option SearchResult :=
  match reply with
  | Returned response =>
      if Fetch.ok response then
        match Fetch.json response with
        | Returned data => Some data
        | Thrown _ => None
        end
      else None
  | Thrown _ => None
  end.

(** The replies that the tracker gives to requests sent one after the other,
    starting in the world [w]. *)
Fixpoint replies (tracker : Tracker) (w : World) (requests : list Request)
  : list Fetch.result :=
  match requests with
  | [] => []
  | r :: rest => tracker w r :: replies tracker (w ++ [r]) rest
  end.

(** The request of the health matrix for one project. *)
Definition matrix_request (env : Env) (project : string) : Request :=
  search_request env ("project = " ++ project ++ " AND created >= -30d")%string
                 HealthMatrix.fields.

(** A variable of the configuration, or a query parameter, that is set to a
    text that is not empty. *)
Definition configured (v : option string) : Prop :=
  exists s, v = Some s /\ s <> EmptyString.

(** The clause of the query for one date bound, empty when the bound is not
    given. *)
Definition date_clause (op : string) (bound : option string) : string :=
  match bound with
  | Some b => if String.eqb b EmptyString then EmptyString
              else (" AND created " ++ op ++ " " ++ Dora.quoted b)%string
  | None => EmptyString
  end.

(** The matrix after the projects [ps] with the data [ds] are added to [m]. *)
Fixpoint matrix_after (ps : list string) (ds : list SearchResult)
    (m : gmap string Metrics) : gmap string Metrics :=
  match ps, ds with
  | p :: ps', d :: ds' => matrix_after ps' ds' (<[p := calculateDORAMetrics (issues d)]> m)
  | _, _ => m
  end.

(** A parameter that is given but empty, read as missing. *)
Definition drop_empty (v : option string) : option string :=
  match v with
  | Some s => if String.eqb s EmptyString then None else Some s
  | None => None
  end.

(** * Properties *)

(** ** Powers of two and the size of a rational *)

Lemma pow2_pos e : 0 < pow2 e.
Proof. apply Qpower_0_lt. reflexivity. Qed.

Lemma pow2_add a b : pow2 (a + b) == pow2 a * pow2 b.
Proof. apply Qpower_plus. discriminate. Qed.

Lemma pow2_le a b : (a <= b)%Z -> pow2 a <= pow2 b.
Proof. intros H. apply Qpower_le_compat_l; [exact H | discriminate]. Qed.

Lemma pow2_lt a b : (a < b)%Z -> pow2 a < pow2 b.
Proof. intros H. apply Qpower_lt_compat_l; [exact H | reflexivity]. Qed.

Lemma pow2_lt_inv a b : pow2 a < pow2 b -> (a < b)%Z.
Proof. intros H. apply (Qpower_lt_compat_l_inv 2); [exact H | reflexivity]. Qed.

Lemma pow2_Z e : (0 <= e)%Z -> pow2 e == inject_Z (2 ^ e).
Proof. intros H. unfold pow2. rewrite Zpower_Qpower by exact H. reflexivity. Qed.

Lemma pow2_succ e : pow2 (e + 1) == 2 * pow2 e.
Proof. rewrite pow2_add. change (pow2 1) with 2. ring. Qed.

Lemma pow2_sub a b : pow2 (a - b) == pow2 a / pow2 b.
Proof.
  assert (Hb := pow2_pos b).
  assert (E : pow2 a == pow2 (a - b) * pow2 b).
  { rewrite <- pow2_add. replace (a - b + b)%Z with a by ring. reflexivity. }
  rewrite E. field. intros H. rewrite H in Hb. discriminate.
Qed.

(** Bounds of a positive fraction by powers of two. *)
Lemma ilog2_spec x : 0 < x -> pow2 (ilog2 x) <= x < pow2 (ilog2 x + 1).
Proof.
  intros Hx. destruct x as [a b]. unfold ilog2. simpl Qnum. simpl Qden.
  assert (Ha : (0 < a)%Z).
  { unfold Qlt in Hx. simpl in Hx. lia. }
  set (la := Z.log2 a). set (lb := Z.log2 (Z.pos b)).
  destruct (Z.log2_spec a Ha) as [Ha1 Ha2]. fold la in Ha1, Ha2.
  destruct (Z.log2_spec (Z.pos b) (Pos2Z.is_pos b)) as [Hb1 Hb2]. fold lb in Hb1, Hb2.
  assert (Hla : (0 <= la)%Z) by apply Z.log2_nonneg.
  assert (Hlb : (0 <= lb)%Z) by apply Z.log2_nonneg.
  assert (Qb : 0 < inject_Z (Z.pos b)) by reflexivity.
  assert (E : a # b == inject_Z a / inject_Z (Z.pos b)) by apply Qmake_Qdiv.
  assert (Xb : (a # b) * inject_Z (Z.pos b) == inject_Z a).
  { rewrite E. field. intros H. rewrite H in Qb. discriminate. }
  assert (U : a # b < pow2 (la - lb + 1)).
  { apply (Qmult_lt_r _ _ (inject_Z (Z.pos b))); [exact Qb|]. rewrite Xb.
    apply Qlt_le_trans with (pow2 (la + 1)).
    - rewrite pow2_Z by lia. rewrite <- Zlt_Qlt.
      replace (la + 1)%Z with (Z.succ la) by lia. exact Ha2.
    - replace (la + 1)%Z with ((la - lb + 1) + lb)%Z by ring.
      rewrite pow2_add. apply Qmult_le_l; [apply pow2_pos|].
      rewrite pow2_Z by lia. rewrite <- Zle_Qle. exact Hb1. }
  assert (L : pow2 (la - lb - 1) <= a # b).
  { apply (Qmult_le_r _ _ (inject_Z (Z.pos b))); [exact Qb|]. rewrite Xb.
    apply Qle_trans with (pow2 la).
    - replace la with ((la - lb - 1) + (lb + 1))%Z at 2 by ring.
      rewrite pow2_add. apply Qmult_le_l; [apply pow2_pos|].
      rewrite pow2_Z by lia. rewrite <- Zle_Qle.
      replace (lb + 1)%Z with (Z.succ lb) by lia. lia.
    - rewrite pow2_Z by lia. rewrite <- Zle_Qle. exact Ha1. }
  destruct (Qle_bool (pow2 (la - lb)) (a # b)) eqn:T.
  - apply Qle_bool_iff in T. split; assumption.
  - split.
    + exact L.
    + replace (la - lb - 1 + 1)%Z with (la - lb)%Z by ring.
      apply Qnot_le_lt. intros H. apply Qle_bool_iff in H. congruence.
Qed.

Lemma ilog2_unique x l : pow2 l <= x < pow2 (l + 1) -> ilog2 x = l.
Proof.
  intros [H1 H2].
  assert (Hx : 0 < x) by (apply Qlt_le_trans with (pow2 l); [apply pow2_pos | exact H1]).
  destruct (ilog2_spec x Hx) as [S1 S2].
  assert (A : (ilog2 x < l + 1)%Z).
  { apply pow2_lt_inv. apply Qle_lt_trans with x; assumption. }
  assert (B : (l < ilog2 x + 1)%Z).
  { apply pow2_lt_inv. apply Qle_lt_trans with x; assumption. }
  lia.
Qed.

Lemma ilog2_proper x y : 0 < x -> x == y -> ilog2 x = ilog2 y.
Proof.
  intros Hx E. symmetry. apply ilog2_unique. rewrite <- E. apply ilog2_spec. exact Hx.
Qed.

Lemma ilog2_le x y : 0 < x -> x <= y -> (ilog2 x <= ilog2 y)%Z.
Proof.
  intros Hx Hxy.
  assert (Hy : 0 < y) by (apply Qlt_le_trans with x; assumption).
  destruct (ilog2_spec x Hx) as [S1 _]. destruct (ilog2_spec y Hy) as [_ S2].
  assert (A : (ilog2 x < ilog2 y + 1)%Z).
  { apply pow2_lt_inv. apply Qle_lt_trans with x; [exact S1|].
    apply Qle_lt_trans with y; assumption. }
  lia.
Qed.

(** ** Rounding to the nearest binary64 value *)

Lemma rhe_proper x y : x == y -> round_half_even x = round_half_even y.
Proof.
  intros E. unfold round_half_even.
  rewrite (Qfloor_comp _ _ E).
  assert (C : Qcompare (x - inject_Z (Qfloor y)) (1 # 2) = Qcompare (y - inject_Z (Qfloor y)) (1 # 2)).
  { apply Qcompare_comp; [rewrite E|]; reflexivity. }
  rewrite C. reflexivity.
Qed.

Lemma floor_bounds x : inject_Z (Qfloor x) <= x < inject_Z (Qfloor x) + 1.
Proof.
  split; [apply Qfloor_le|].
  assert (H := Qlt_floor x). rewrite inject_Z_plus in H. exact H.
Qed.

Lemma rhe_bounds x :
  x - (1 # 2) <= inject_Z (round_half_even x) <= x + (1 # 2).
Proof.
  unfold round_half_even. destruct (floor_bounds x) as [F1 F2].
  destruct (Qcompare (x - inject_Z (Qfloor x)) (1 # 2)) eqn:C.
  - apply (proj2 (Qeq_alt _ _)) in C. destruct (Z.even (Qfloor x));
      rewrite ?inject_Z_plus; change (inject_Z 1) with 1; split; lra.
  - apply (proj2 (Qlt_alt _ _)) in C. split; lra.
  - apply (proj2 (Qgt_alt _ _)) in C. rewrite inject_Z_plus. change (inject_Z 1) with 1. split; lra.
Qed.

Lemma rhe_Z z : round_half_even (inject_Z z) = z.
Proof.
  unfold round_half_even. rewrite Qfloor_Z.
  assert (E : inject_Z z - inject_Z z == 0) by ring.
  assert (C : Qcompare (inject_Z z - inject_Z z) (1 # 2) = Qcompare 0 (1 # 2)).
  { apply Qcompare_comp; [exact E | reflexivity]. }
  rewrite C. reflexivity.
Qed.

Lemma rhe_ge_Z x z : inject_Z z <= x -> (z <= round_half_even x)%Z.
Proof.
  intros H. unfold round_half_even. destruct (floor_bounds x) as [F1 F2].
  assert (Hz : (z <= Qfloor x)%Z).
  { rewrite <- (Qfloor_Z z). apply Qfloor_resp_le. exact H. }
  destruct (Qcompare _ _); [destruct (Z.even _)| |]; lia.
Qed.

Lemma rhe_le_Z x z : x <= inject_Z z -> (round_half_even x <= z)%Z.
Proof.
  intros H. unfold round_half_even. destruct (floor_bounds x) as [F1 F2].
  assert (Hz : (Qfloor x <= z)%Z).
  { rewrite <- (Qfloor_Z z). apply Qfloor_resp_le. exact H. }
  destruct (Z.eq_dec (Qfloor x) z) as [E|NE].
  - assert (X : x == inject_Z z).
    { apply Qle_antisym; [exact H|]. rewrite <- E. exact F1. }
    assert (C : Qcompare (x - inject_Z (Qfloor x)) (1 # 2) = Lt).
    { apply (proj1 (Qlt_alt _ _)). rewrite E. lra. }
    rewrite C. lia.
  - destruct (Qcompare _ _); [destruct (Z.even _)| |]; lia.
Qed.

(** [nearest] on the grid of multiples of the last place of [x]. *)
Lemma nearest_ge_grid x c m :
  c == inject_Z m * pow2 (fexp x) -> c <= x -> c <= nearest x.
Proof.
  intros E H. unfold nearest. assert (P := pow2_pos (fexp x)).
  rewrite E. apply Qmult_le_r; [exact P|]. rewrite <- Zle_Qle.
  apply rhe_ge_Z. apply Qle_shift_div_l; [exact P|]. rewrite <- E. exact H.
Qed.

Lemma nearest_le_grid x c m :
  c == inject_Z m * pow2 (fexp x) -> x <= c -> nearest x <= c.
Proof.
  intros E H. unfold nearest. assert (P := pow2_pos (fexp x)).
  rewrite E. apply Qmult_le_r; [exact P|]. rewrite <- Zle_Qle.
  apply rhe_le_Z. apply Qle_shift_div_r; [exact P|]. rewrite <- E. exact H.
Qed.

Lemma nearest_exact x m : x == inject_Z m * pow2 (fexp x) -> nearest x == x.
Proof.
  intros E. apply Qle_antisym.
  - apply (nearest_le_grid x x m E). apply Qle_refl.
  - apply (nearest_ge_grid x x m E). apply Qle_refl.
Qed.

Lemma nearest_error x :
  Qabs (nearest x - x) <= pow2 (fexp x) / 2.
Proof.
  unfold nearest. assert (P := pow2_pos (fexp x)).
  set (p := pow2 (fexp x)) in *.
  destruct (rhe_bounds (x / p)) as [B1 B2].
  set (m := inject_Z (round_half_even (x / p))) in *.
  assert (E1 : (x / p - (1 # 2)) * p == x - p / 2) by (field; lra).
  assert (E2 : (x / p + (1 # 2)) * p == x + p / 2) by (field; lra).
  assert (T1 : (x / p - (1 # 2)) * p <= m * p) by (apply Qmult_le_r; assumption).
  assert (T2 : m * p <= (x / p + (1 # 2)) * p) by (apply Qmult_le_r; assumption).
  rewrite E1 in T1. rewrite E2 in T2.
  apply Qabs_Qle_condition. split; lra.
Qed.

Lemma fexp_proper x y : 0 < x -> x == y -> fexp x = fexp y.
Proof. intros Hx E. unfold fexp. rewrite (ilog2_proper x y Hx E). reflexivity. Qed.

Lemma nearest_proper x y : 0 < x -> x == y -> nearest x == nearest y.
Proof.
  intros Hx E. unfold nearest. rewrite (fexp_proper x y Hx E).
  assert (R : round_half_even (x / pow2 (fexp y)) = round_half_even (y / pow2 (fexp y))).
  { apply rhe_proper. rewrite E. reflexivity. }
  rewrite R. reflexivity.
Qed.

Lemma Qle_bool_proper a b c d : a == b -> c == d -> Qle_bool a c = Qle_bool b d.
Proof.
  intros E1 E2. destruct (Qle_bool a c) eqn:H1, (Qle_bool b d) eqn:H2; try reflexivity.
  - apply Qle_bool_iff in H1. rewrite E1, E2 in H1. apply Qle_bool_iff in H1. congruence.
  - apply Qle_bool_iff in H2. rewrite <- E1, <- E2 in H2. apply Qle_bool_iff in H2. congruence.
Qed.

Lemma round_proper x y : x == y -> round x = round y.
Proof.
  intros E. unfold round.
  assert (C : Qcompare x 0 = Qcompare y 0) by (apply Qcompare_comp; [exact E | reflexivity]).
  rewrite <- C. destruct (Qcompare x 0) eqn:Cx.
  - reflexivity.
  - apply (proj2 (Qlt_alt _ _)) in Cx.
    assert (N : nearest (- x) == nearest (- y)).
    { apply nearest_proper; [lra | rewrite E; reflexivity]. }
    rewrite (Qle_bool_proper _ (pow2 1024) _ (nearest (- y)) (Qeq_refl _) N).
    destruct (Qle_bool _ _); [reflexivity|]. f_equal. apply Qred_complete.
    rewrite N. reflexivity.
  - apply (proj2 (Qgt_alt _ _)) in Cx.
    assert (N : nearest x == nearest y) by (apply nearest_proper; assumption).
    rewrite (Qle_bool_proper _ (pow2 1024) _ (nearest y) (Qeq_refl _) N).
    destruct (Qle_bool _ _); [reflexivity|]. f_equal. apply Qred_complete. exact N.
Qed.

(** ** Values that rounding keeps *)

Lemma fexp_ge x : (-1074 <= fexp x)%Z.
Proof. unfold fexp. lia. Qed.

Lemma fexp_le x j : x < pow2 (j + 53) -> 0 < x -> (-1074 <= j)%Z -> (fexp x <= j)%Z.
Proof.
  intros H Hx Hj. destruct (ilog2_spec x Hx) as [S1 _].
  assert (A : (ilog2 x < j + 53)%Z).
  { apply pow2_lt_inv. apply Qle_lt_trans with x; assumption. }
  unfold fexp. lia.
Qed.

(** Multiples of a power of two are on every finer grid. *)
Lemma on_grid z j e : (e <= j)%Z ->
  inject_Z z * pow2 j == inject_Z (z * 2 ^ (j - e)) * pow2 e.
Proof.
  intros H. rewrite inject_Z_mult. rewrite <- pow2_Z by lia.
  replace j with ((j - e) + e)%Z at 1 by ring. rewrite pow2_add. ring.
Qed.

Lemma round_pos x : 0 < x -> nearest x < pow2 1024 -> round x = Num (Qred (nearest x)).
Proof.
  intros Hx Hn. unfold round.
  assert (C : Qcompare x 0 = Gt) by (apply (proj1 (Qgt_alt _ _)); exact Hx).
  rewrite C. destruct (Qle_bool (pow2 1024) (nearest x)) eqn:T; [|reflexivity].
  apply Qle_bool_iff in T. lra.
Qed.

Lemma round_neg x : x < 0 -> nearest (- x) < pow2 1024 ->
  round x = Num (Qred (- nearest (- x))).
Proof.
  intros Hx Hn. unfold round.
  assert (C : Qcompare x 0 = Lt) by (apply (proj1 (Qlt_alt _ _)); exact Hx).
  rewrite C. destruct (Qle_bool (pow2 1024) (nearest (- x))) eqn:T; [|reflexivity].
  apply Qle_bool_iff in T. lra.
Qed.

Lemma round_0 x : x == 0 -> round x = Num 0.
Proof. intros E. rewrite (round_proper x 0 E). reflexivity. Qed.

Lemma pos_dyadic_exact z j x :
  (0 < z < 2 ^ 53)%Z -> (-1074 <= j <= 971)%Z -> x == inject_Z z * pow2 j ->
  nearest x == x /\ 0 < x < pow2 1024.
Proof.
  intros Hz Hj E.
  assert (Pj := pow2_pos j).
  assert (Hx : 0 < x).
  { rewrite E. apply Qmult_lt_0_compat; [|exact Pj]. rewrite <- (Zlt_Qlt 0). lia. }
  assert (Hu : x < pow2 (j + 53)).
  { rewrite E, Z.add_comm, pow2_add. apply Qmult_lt_r; [exact Pj|].
    rewrite pow2_Z by lia. rewrite <- Zlt_Qlt. lia. }
  split; [|split; [exact Hx|]].
  - apply (nearest_exact x (z * 2 ^ (j - fexp x))).
    rewrite E at 1. apply on_grid. apply fexp_le; [exact Hu | exact Hx | lia].
  - apply Qlt_le_trans with (pow2 (j + 53)); [exact Hu|]. apply pow2_le. lia.
Qed.

(** A value with at most 53 significant bits is not changed by rounding. *)
Lemma round_dyadic z j x :
  (Z.abs z < 2 ^ 53)%Z -> (-1074 <= j <= 971)%Z -> x == inject_Z z * pow2 j ->
  round x = Num (Qred x).
Proof.
  intros Hz Hj E. destruct (Z.lt_trichotomy z 0) as [N|[Z0|P]].
  - assert (E' : - x == inject_Z (- z) * pow2 j) by (rewrite E, inject_Z_opp; ring).
    destruct (pos_dyadic_exact (- z) j (- x)) as [X [X1 X2]]; [lia | lia | exact E' |].
    rewrite round_neg; [|lra|lra]. f_equal. apply Qred_complete. rewrite X. ring.
  - subst z. assert (X : x == 0) by (rewrite E; ring).
    rewrite (round_0 x X). f_equal. symmetry. apply (Qred_complete x 0 X).
  - destruct (pos_dyadic_exact z j x) as [X [X1 X2]]; [lia | lia | exact E |].
    rewrite round_pos; [|lra|lra]. f_equal. apply Qred_complete. exact X.
Qed.

Lemma Qred_inject_Z z : Qred (inject_Z z) = inject_Z z.
Proof. apply Qred_identity. simpl. apply Z.gcd_1_r. Qed.

Lemma of_Z_exact z : (Z.abs z < 2 ^ 53)%Z -> of_Z z = Num (inject_Z z).
Proof.
  intros H. unfold of_Z. rewrite (round_dyadic z 0); [| exact H | lia |].
  - rewrite Qred_inject_Z. reflexivity.
  - change (pow2 0) with 1. ring.
Qed.

Lemma round_Z x z : (Z.abs z < 2 ^ 53)%Z -> x == inject_Z z -> round x = Num (inject_Z z).
Proof.
  intros H E. rewrite (round_proper x (inject_Z z) E). apply (of_Z_exact z H).
Qed.

(** In the normal range the last place follows the size of the value. *)
Lemma fexp_normal x : pow2 (-1022) <= x -> fexp x = (ilog2 x - 52)%Z.
Proof.
  intros H.
  assert (Hx : 0 < x) by (apply Qlt_le_trans with (pow2 (-1022)); [apply pow2_pos | exact H]).
  destruct (ilog2_spec x Hx) as [_ S2].
  assert (A : (-1022 < ilog2 x + 1)%Z).
  { apply pow2_lt_inv. apply Qle_lt_trans with x; assumption. }
  unfold fexp. lia.
Qed.

Lemma nearest_range x : pow2 (-1022) <= x ->
  pow2 (ilog2 x) <= nearest x <= pow2 (ilog2 x + 1).
Proof.
  intros H.
  assert (Hx : 0 < x) by (apply Qlt_le_trans with (pow2 (-1022)); [apply pow2_pos | exact H]).
  destruct (ilog2_spec x Hx) as [S1 S2]. assert (Fe := fexp_normal x H).
  split.
  - apply (nearest_ge_grid x _ (1 * 2 ^ (ilog2 x - fexp x))); [|exact S1].
    rewrite <- on_grid by lia. change (inject_Z 1) with 1. ring.
  - apply (nearest_le_grid x _ (1 * 2 ^ (ilog2 x + 1 - fexp x))); [|lra].
    rewrite <- on_grid by lia. change (inject_Z 1) with 1. ring.
Qed.

(** Rounding a positive value of ordinary size: the result is finite, at
    least as large as the power of two below and within half a last place. *)
Lemma round_normal x : pow2 (-1022) <= x -> x < pow2 1023 ->
  exists r, round x = Num r /\ pow2 (ilog2 x) <= r <= pow2 (ilog2 x + 1)
            /\ Qabs (r - x) <= pow2 (ilog2 x - 53).
Proof.
  intros H Hu.
  assert (Hx : 0 < x) by (apply Qlt_le_trans with (pow2 (-1022)); [apply pow2_pos | exact H]).
  destruct (ilog2_spec x Hx) as [S1 S2].
  assert (A : (ilog2 x < 1023)%Z).
  { apply pow2_lt_inv. apply Qle_lt_trans with x; assumption. }
  destruct (nearest_range x H) as [N1 N2].
  assert (B : pow2 (ilog2 x + 1) < pow2 1024) by (apply pow2_lt; lia).
  exists (Qred (nearest x)). split; [apply round_pos; [exact Hx | lra]|].
  rewrite Qred_correct. split; [split; assumption|].
  assert (E := nearest_error x). rewrite (fexp_normal x H) in E.
  replace (ilog2 x - 52)%Z with ((ilog2 x - 53) + 1)%Z in E by ring.
  rewrite pow2_succ in E.
  assert (EE : 2 * pow2 (ilog2 x - 53) / 2 == pow2 (ilog2 x - 53)) by field.
  rewrite EE in E.
  exact E.
Qed.

(** ** Rounded quotients of whole numbers *)

Lemma Qceiling_proper x y : x == y -> Qceiling x = Qceiling y.
Proof.
  intros E. unfold Qceiling. f_equal. apply Qfloor_comp. rewrite E. reflexivity.
Qed.

Lemma Qceiling_unique x k : inject_Z (k - 1) < x -> x <= inject_Z k -> Qceiling x = k.
Proof.
  intros H1 H2. assert (A := Qle_ceiling x). assert (B := Qceiling_lt x).
  assert (C : (Qceiling x - 1 < k)%Z).
  { rewrite Zlt_Qlt. apply Qlt_le_trans with x; assumption. }
  assert (D : (k - 1 < Qceiling x)%Z).
  { rewrite Zlt_Qlt. apply Qlt_le_trans with x; assumption. }
  lia.
Qed.

Lemma inject_Z_pos z : (0 < z)%Z -> 0 < inject_Z z.
Proof. intros H. rewrite <- (Zlt_Qlt 0). exact H. Qed.

Lemma inject_Z_lt_pow2 z e : (0 <= e)%Z -> (z < 2 ^ e)%Z -> inject_Z z < pow2 e.
Proof. intros He H. rewrite pow2_Z by exact He. rewrite <- Zlt_Qlt. exact H. Qed.

Lemma inject_Z_le_pow2 z e : (0 <= e)%Z -> (z <= 2 ^ e)%Z -> inject_Z z <= pow2 e.
Proof. intros He H. rewrite pow2_Z by exact He. rewrite <- Zle_Qle. exact H. Qed.

(** The quotient of two integers, rounded and then taken to its ceiling, is
    the ceiling of the exact quotient when the divisor is below 2^27 and the
    quotient below 2^26. *)
Lemma ceil_div_exact d D :
  (0 < D < 2 ^ 27)%Z -> (0 <= d < 2 ^ 26 * D)%Z ->
  ceil (round (inject_Z d / inject_Z D)) = Num (inject_Z (- ((- d) / D))).
Proof.
  intros HD Hd. set (k := (- ((- d) / D))%Z).
  assert (QD := inject_Z_pos D (proj1 HD)).
  assert (Hk : (d <= k * D < d + D)%Z).
  { unfold k. assert (M := Z.div_mod (- d) D). assert (R := Z.mod_pos_bound (- d) D). lia. }
  destruct (Z.eq_dec d 0%Z) as [Z0|NZ].
  - subst d. assert (K0 : k = 0%Z) by (unfold k; rewrite Z.opp_0, Z.div_0_l by lia; reflexivity).
    rewrite K0. rewrite round_0; [reflexivity|]. unfold Qdiv. ring.
  - set (q := inject_Z d / inject_Z D).
    assert (Hq2 : q <= inject_Z k).
    { unfold q. apply Qle_shift_div_r; [exact QD|]. rewrite <- inject_Z_mult, <- Zle_Qle. lia. }
    assert (P27 : pow2 (-27) * inject_Z D <= 1).
    { assert (E : pow2 (-27) * pow2 27 == 1) by reflexivity.
      assert (T : pow2 (-27) * inject_Z D <= pow2 (-27) * pow2 27).
      { apply Qmult_le_l; [apply pow2_pos|]. apply inject_Z_le_pow2; lia. }
      lra. }
    assert (Hq1 : inject_Z (k - 1) + pow2 (-27) <= q).
    { unfold q. apply Qle_shift_div_l; [exact QD|].
      assert (T : inject_Z ((k - 1) * D + 1) <= inject_Z d) by (rewrite <- Zle_Qle; lia).
      rewrite inject_Z_plus, inject_Z_mult in T. change (inject_Z 1) with 1 in T.
      rewrite Qmult_plus_distr_l. lra. }
    assert (K1 : (1 <= k)%Z) by nia.
    assert (Kq : 0 <= inject_Z (k - 1)) by (rewrite <- (Zle_Qle 0); lia).
    assert (P0 := pow2_pos (-27)).
    assert (L : pow2 (-1022) <= q).
    { apply Qle_trans with (pow2 (-27)); [apply pow2_le; lia | lra]. }
    assert (U : q < pow2 26).
    { unfold q. apply Qlt_shift_div_r; [exact QD|]. rewrite pow2_Z by lia.
      rewrite <- inject_Z_mult, <- Zlt_Qlt. lia. }
    assert (Hx : 0 < q) by lra.
    destruct (ilog2_spec q Hx) as [S1 _].
    assert (I : (ilog2 q < 26)%Z).
    { apply pow2_lt_inv. apply Qle_lt_trans with q; assumption. }
    assert (Fe := fexp_normal q L).
    assert (N2 : nearest q <= inject_Z k).
    { apply (nearest_le_grid q _ (k * 2 ^ (0 - fexp q))); [|exact Hq2].
      rewrite <- on_grid by lia. change (pow2 0) with 1. ring. }
    assert (N1 : inject_Z (k - 1) + pow2 (-27) <= nearest q).
    { apply (nearest_ge_grid q _ (((k - 1) * 2 ^ 27 + 1) * 2 ^ (-27 - fexp q))); [|exact Hq1].
      rewrite <- on_grid by lia. rewrite inject_Z_plus, inject_Z_mult.
      change (inject_Z 1) with 1. rewrite <- (pow2_Z 27) by lia.
      assert (E : pow2 27 * pow2 (-27) == 1) by reflexivity.
      rewrite Qmult_plus_distr_l, <- Qmult_assoc, E. ring. }
    assert (KU : inject_Z k < pow2 1024).
    { apply Qlt_le_trans with (pow2 27); [|apply pow2_le; lia].
      apply inject_Z_lt_pow2; [lia|]. nia. }
    rewrite round_pos; [|exact Hx|lra]. unfold ceil. do 2 f_equal.
    rewrite (Qceiling_proper _ _ (Qred_correct _)).
    apply Qceiling_unique; lra.
Qed.

(** Rounding the quotient of two integers does not cross the middle between
    two tenths: the integer nearest to ten times the rounded quotient is also
    nearest to ten times the exact one. *)
Lemma round_tenths a b :
  (0 < a)%Z -> (0 < b)%Z -> (20 * a < 2 ^ 53)%Z -> (b < 2 ^ 53)%Z ->
  exists r, round (inject_Z a / inject_Z b) = Num r /\ 0 < r /\ r <= 2 * inject_Z a
    /\ Qabs (inject_Z (Qfloor (r * 10 + (1 # 2))) / 10 - inject_Z a / inject_Z b) <= 1 # 20.
Proof.
  intros Ha Hb Hab Hbb.
  assert (QA := inject_Z_pos a Ha). assert (QB := inject_Z_pos b Hb).
  set (x := inject_Z a / inject_Z b).
  assert (Xb : x * inject_Z b == inject_Z a) by (unfold x; field; lra).
  assert (Hx : 0 < x) by (unfold x; apply Qlt_shift_div_l; lra).
  assert (L : pow2 (-1022) <= x).
  { apply Qle_trans with (pow2 (-53)); [apply pow2_le; lia|].
    unfold x. apply Qle_shift_div_l; [exact QB|].
    assert (B1 : inject_Z b <= pow2 53) by (apply inject_Z_le_pow2; lia).
    assert (A1 : 1 <= inject_Z a) by (rewrite <- (Zle_Qle 1); lia).
    assert (E : pow2 (-53) * pow2 53 == 1) by reflexivity.
    assert (T : pow2 (-53) * inject_Z b <= pow2 (-53) * pow2 53).
    { apply Qmult_le_l; [apply pow2_pos | exact B1]. }
    lra. }
  assert (XA : x <= inject_Z a).
  { unfold x. apply Qle_shift_div_r; [exact QB|].
    assert (B1 : 1 <= inject_Z b) by (rewrite <- (Zle_Qle 1); lia).
    assert (T : inject_Z a * 1 <= inject_Z a * inject_Z b) by (apply Qmult_le_l; assumption).
    lra. }
  assert (A53 : inject_Z a < pow2 53) by (apply inject_Z_lt_pow2; lia).
  assert (U : x < pow2 1023).
  { apply Qlt_le_trans with (pow2 53); [lra | apply pow2_le; lia]. }
  destruct (round_normal x L U) as (r & Hr & [R1 R2] & Re).
  destruct (ilog2_spec x Hx) as [S1 S2].
  exists r. split; [exact Hr|].
  assert (P1 := pow2_pos (ilog2 x)).
  split; [lra|]. split.
  { rewrite pow2_succ in R2. lra. }
  (* the error is below 1/(20 b) *)
  set (dl := pow2 (ilog2 x - 53)) in *.
  assert (Dl : dl == pow2 (ilog2 x) * pow2 (-53)).
  { unfold dl. rewrite <- pow2_add. replace (ilog2 x + -53)%Z with (ilog2 x - 53)%Z by ring.
    reflexivity. }
  assert (D20 : 20 * (dl * inject_Z b) < 1).
  { rewrite Dl.
    assert (T1 : pow2 (ilog2 x) * inject_Z b <= inject_Z a).
    { rewrite <- Xb. apply Qmult_le_r; assumption. }
    assert (T2 : 20 * inject_Z a < pow2 53).
    { rewrite pow2_Z by lia. change 20 with (inject_Z 20).
      rewrite <- inject_Z_mult, <- Zlt_Qlt. exact Hab. }
    assert (E : pow2 53 * pow2 (-53) == 1) by reflexivity.
    assert (T3 : 20 * inject_Z a * pow2 (-53) < pow2 53 * pow2 (-53)).
    { apply Qmult_lt_r; [apply pow2_pos | exact T2]. }
    assert (T4 : pow2 (ilog2 x) * inject_Z b * pow2 (-53) <= inject_Z a * pow2 (-53)).
    { apply Qmult_le_r; [apply pow2_pos | exact T1]. }
    lra. }
  apply Qabs_Qle_condition in Re. destruct Re as [Re1 Re2].
  destruct (floor_bounds (r * 10 + (1 # 2))) as [F1 F2].
  set (n := Qfloor (r * 10 + (1 # 2))) in *.
  assert (Rb1 : (r - x) * inject_Z b <= dl * inject_Z b) by (apply Qmult_le_r; [exact QB | lra]).
  assert (Rb2 : (x - r) * inject_Z b <= dl * inject_Z b) by (apply Qmult_le_r; [exact QB | lra]).
  assert (E10 : inject_Z n / 10 == inject_Z n * (1 # 10)) by reflexivity.
  rewrite E10.
  apply Qabs_Qle_condition. split.
  - (* n/10 - x >= -1/20 *)
    apply Qnot_lt_le. intros C.
    (* (2n+1) b < 20 a, hence (2n+1) b + 1 <= 20 a *)
    assert (Cz : ((2 * n + 1) * b + 1 <= 20 * a)%Z).
    { assert (Cq : inject_Z ((2 * n + 1) * b) < inject_Z (20 * a)).
      { rewrite !inject_Z_mult, inject_Z_plus, inject_Z_mult.
        change (inject_Z 2) with 2. change (inject_Z 1) with 1. change (inject_Z 20) with 20.
        rewrite <- Xb.
        assert (T : (2 * inject_Z n + 1) * inject_Z b < 20 * x * inject_Z b).
        { apply Qmult_lt_r; [exact QB | lra]. }
        lra. }
      rewrite <- Zlt_Qlt in Cq. lia. }
    assert (Cq : inject_Z ((2 * n + 1) * b + 1) <= inject_Z (20 * a)) by (rewrite <- Zle_Qle; exact Cz).
    rewrite inject_Z_plus, !inject_Z_mult, inject_Z_plus, inject_Z_mult in Cq.
    change (inject_Z 2) with 2 in Cq. change (inject_Z 1) with 1 in Cq.
    change (inject_Z 20) with 20 in Cq. rewrite <- Xb in Cq.
    assert (T : 20 * r * inject_Z b < (2 * inject_Z n + 1) * inject_Z b).
    { apply Qmult_lt_r; [exact QB | lra]. }
    lra.
  - (* n/10 - x <= 1/20 *)
    apply Qnot_lt_le. intros C.
    assert (Cz : (20 * a + 1 <= (2 * n - 1) * b)%Z).
    { assert (Cq : inject_Z (20 * a) < inject_Z ((2 * n - 1) * b)).
      { unfold Z.sub. rewrite !inject_Z_mult, inject_Z_plus, inject_Z_mult, inject_Z_opp.
        change (inject_Z 2) with 2. change (inject_Z 1) with 1. change (inject_Z 20) with 20.
        rewrite <- Xb.
        assert (T : 20 * x * inject_Z b < (2 * inject_Z n + - (1)) * inject_Z b).
        { apply Qmult_lt_r; [exact QB | lra]. }
        lra. }
      rewrite <- Zlt_Qlt in Cq. lia. }
    assert (Cq : inject_Z (20 * a + 1) <= inject_Z ((2 * n - 1) * b)) by (rewrite <- Zle_Qle; exact Cz).
    unfold Z.sub in Cq.
    rewrite inject_Z_plus, !inject_Z_mult, inject_Z_plus, inject_Z_mult, inject_Z_opp in Cq.
    change (inject_Z 2) with 2 in Cq. change (inject_Z 1) with 1 in Cq.
    change (inject_Z 20) with 20 in Cq. rewrite <- Xb in Cq.
    assert (T : (2 * inject_Z n + - (1)) * inject_Z b <= 20 * r * inject_Z b).
    { apply Qmult_le_r; [exact QB | lra]. }
    lra.
Qed.

(** ** Decimal text *)

Lemma append_assoc (s1 s2 s3 : string) :
  ((s1 ++ s2) ++ s3 = s1 ++ (s2 ++ s3))%string.
Proof.
  induction s1 as [|c s1 IH]; [reflexivity|].
  change (String c ((s1 ++ s2) ++ s3) = String c (s1 ++ (s2 ++ s3)))%string.
  rewrite IH. reflexivity.
Qed.

Lemma digits_aux_app fuel : forall n acc,
  digits_aux fuel n acc = (digits_aux fuel n EmptyString ++ acc)%string.
Proof.
  induction fuel as [|fuel IH]; intros n acc; simpl; [reflexivity|].
  destruct (n / 10 =? 0)%Z; [reflexivity|].
  rewrite IH. rewrite (IH _ (String _ EmptyString)).
  rewrite append_assoc. reflexivity.
Qed.

Lemma digits_aux_enough f1 : forall f2 n acc,
  (0 < n < 2 ^ Z.of_nat f1)%Z -> (n < 2 ^ Z.of_nat f2)%Z ->
  digits_aux f1 n acc = digits_aux f2 n acc.
Proof.
  induction f1 as [|f1 IH]; intros f2 n acc H1 H2.
  - simpl in H1. lia.
  - destruct f2 as [|f2]; [simpl in H2; lia|]. simpl.
    destruct (n / 10 =? 0)%Z eqn:E; [reflexivity|].
    apply Z.eqb_neq in E.
    assert (P : (0 < n / 10)%Z).
    { assert (0 <= n / 10)%Z by (apply Z.div_pos; lia). lia. }
    rewrite Nat2Z.inj_succ, Z.pow_succ_r in H1, H2 by lia.
    assert (D : (n / 10 <= n / 2)%Z) by (apply Z.div_le_compat_l; lia).
    assert (D1 : (n / 2 < 2 ^ Z.of_nat f1)%Z) by (apply Z.div_lt_upper_bound; lia).
    assert (D2 : (n / 2 < 2 ^ Z.of_nat f2)%Z) by (apply Z.div_lt_upper_bound; lia).
    apply IH; lia.
Qed.

Lemma digits_small n : (0 <= n < 10)%Z -> digits n = String (digit_char n) EmptyString.
Proof.
  intros H. unfold digits. cbn [digits_aux].
  rewrite Z.mod_small by lia. rewrite Z.div_small by lia. reflexivity.
Qed.

Lemma log2_fuel n : (0 < n)%Z -> (n < 2 ^ Z.of_nat (S (Z.to_nat (Z.log2 n))))%Z.
Proof.
  intros H. rewrite Nat2Z.inj_succ, Z2Nat.id by apply Z.log2_nonneg.
  apply Z.log2_spec. exact H.
Qed.

Lemma digits_step n : (10 <= n)%Z ->
  digits n = (digits (n / 10) ++ String (digit_char (n mod 10)) EmptyString)%string.
Proof.
  intros H. unfold digits at 1. cbn [digits_aux].
  assert (P : (0 < n / 10)%Z) by (apply Z.div_str_pos; lia).
  destruct (n / 10 =? 0)%Z eqn:E; [apply Z.eqb_eq in E; lia|].
  rewrite digits_aux_app. f_equal. unfold digits.
  assert (L := log2_fuel n ltac:(lia)). rewrite Nat2Z.inj_succ, Z.pow_succ_r in L by lia.
  assert (D : (n / 10 <= n / 2)%Z) by (apply Z.div_le_compat_l; lia).
  assert (D1 : (n / 2 < 2 ^ Z.of_nat (Z.to_nat (Z.log2 n)))%Z) by (apply Z.div_lt_upper_bound; lia).
  apply digits_aux_enough; [lia|]. apply log2_fuel. exact P.
Qed.

Lemma digit_char_ok d : (0 <= d < 10)%Z ->
  is_digit (digit_char d) = true /\ digit_value (digit_char d) = d.
Proof.
  intros H.
  assert (C : (d = 0 \/ d = 1 \/ d = 2 \/ d = 3 \/ d = 4 \/ d = 5 \/ d = 6 \/ d = 7
               \/ d = 8 \/ d = 9)%Z) by lia.
  destruct C as [C|[C|[C|[C|[C|[C|[C|[C|[C|C]]]]]]]]]; subst d; split; reflexivity.
Qed.

Lemma digits_value_app s1 : forall s2 acc,
  digits_value (s1 ++ s2) acc = digits_value s2 (digits_value s1 acc).
Proof. induction s1 as [|c s1 IH]; intros s2 acc; simpl; [reflexivity | apply IH]. Qed.

Lemma all_digits_app s1 s2 : all_digits (s1 ++ s2) = all_digits s1 && all_digits s2.
Proof.
  induction s1 as [|c s1 IH]; simpl; [reflexivity|]. rewrite IH. apply andb_assoc.
Qed.

(** The digits of [n] are digits, and their value is [n]. *)
Lemma digits_spec n : (0 <= n)%Z ->
  all_digits (digits n) = true /\ digits_value (digits n) 0 = n
  /\ exists c s, digits n = String c s.
Proof.
  intros H. generalize H. pattern n. apply Z_lt_induction; [clear n H | exact H].
  intros n IH H. destruct (Z_lt_ge_dec n 10) as [S|B].
  - rewrite digits_small by lia. destruct (digit_char_ok n ltac:(lia)) as [D1 D2].
    cbn [all_digits digits_value]. rewrite D1, D2. repeat split; eauto.
  - rewrite digits_step by lia.
    assert (M := Z.mod_pos_bound n 10 ltac:(lia)).
    assert (Q1 : (0 <= n / 10 < n)%Z).
    { split; [apply Z.div_pos; lia | apply Z.div_lt; lia]. }
    destruct (IH (n / 10)%Z Q1 ltac:(lia)) as (A & V & c & s & E).
    destruct (digit_char_ok (n mod 10) M) as [D1 D2].
    rewrite all_digits_app, digits_value_app, A, V.
    cbn [all_digits digits_value]. rewrite D1, D2.
    repeat split.
    + assert (DM := Z.div_mod n 10 ltac:(lia)). lia.
    + rewrite E. cbn [String.append]. eauto.
Qed.

Lemma read_digits_app s1 : forall s2 acc cnt, all_digits s1 = true ->
  read_digits (s1 ++ s2) acc cnt
  = read_digits s2 (digits_value s1 acc) (cnt + Z.of_nat (String.length s1)).
Proof.
  induction s1 as [|c s1 IH]; intros s2 acc cnt H.
  - simpl. rewrite Z.add_0_r. reflexivity.
  - simpl in H. apply andb_prop in H. destruct H as [H1 H2].
    change (String c s1 ++ s2)%string with (String c (s1 ++ s2)%string).
    cbn [read_digits]. rewrite H1. rewrite (IH _ _ _ H2).
    cbn [digits_value String.length]. f_equal. lia.
Qed.

(** A text that starts with a digit has no space or sign to skip and is not
    [Infinity]. *)
Lemma digit_head c s : is_digit c = true ->
  skip_spaces (String c s) = String c s /\ read_sign (String c s) = (false, String c s)
  /\ String.prefix "Infinity" (String c s) = false.
Proof.
  intros H. destruct c as [[] [] [] [] [] [] [] []]; try discriminate H;
    repeat split; reflexivity.
Qed.

Lemma Qabs_nonneg_eq r : 0 <= r -> Qabs r = r.
Proof.
  intros H. destruct r as [n d]. unfold Qle in H. simpl in H. simpl.
  rewrite Z.abs_eq by lia. reflexivity.
Qed.

Lemma is_neg_nonneg r : 0 <= r -> is_neg r = false.
Proof.
  intros H. unfold is_neg. apply (proj2 (Qle_bool_iff _ _)) in H. rewrite H. reflexivity.
Qed.

(** Printing a number below 10^21 with one decimal and reading it back gives
    the number nearest to the printed tenths. *)
Lemma parseFloat_toFixed1 r : 0 <= r -> r < pow10 21 ->
  parseFloat (toFixed1 (Num r)) = round (inject_Z (Qfloor (r * 10 + (1 # 2))) / 10).
Proof.
  intros H0 H1. unfold toFixed1. rewrite is_neg_nonneg by exact H0.
  rewrite Qabs_nonneg_eq by exact H0.
  destruct (Qle_bool (pow10 21) r) eqn:T;
    [apply Qle_bool_iff in T; destruct (Qlt_not_le _ _ H1 T)|].
  set (n := Qfloor (r * 10 + (1 # 2))).
  assert (Hn : (0 <= n)%Z).
  { unfold n. rewrite <- (Qfloor_Z 0). apply Qfloor_resp_le.
    change (inject_Z 0) with 0. clear H1 T. lra. }
  assert (M := Z.mod_pos_bound n 10 ltac:(lia)).
  assert (Q1 : (0 <= n / 10)%Z) by (apply Z.div_pos; lia).
  destruct (digits_spec (n / 10)%Z Q1) as (A & V & c & s & E).
  rewrite (digits_small (n mod 10)) by exact M.
  destruct (digit_char_ok (n mod 10) M) as [D1 D2].
  assert (Hc : is_digit c = true).
  { rewrite E in A. simpl in A. apply andb_prop in A. tauto. }
  set (dc := digit_char (n mod 10)) in *.
  set (tail := String "." (String dc EmptyString)).
  assert (Str : (EmptyString ++ digits (n / 10) ++ "." ++ String dc EmptyString)%string
                = String c (s ++ tail)%string).
  { rewrite E. reflexivity. }
  rewrite Str. unfold parseFloat.
  destruct (digit_head c (s ++ tail)%string Hc) as (K1 & K2 & K3).
  rewrite K1, K2, K3.
  change (String c (s ++ tail)%string) with (String c s ++ tail)%string.
  rewrite <- E. rewrite read_digits_app by exact A. rewrite V.
  unfold tail. cbn [read_digits]. change (is_digit ".") with false. cbn iota.
  assert (RD : read_digits (String dc EmptyString) (n / 10) 0
               = ((n / 10 * 10 + n mod 10)%Z, 1%Z, EmptyString)).
  { cbn [read_digits]. rewrite D1. cbn [read_digits]. rewrite D2. reflexivity. }
  rewrite RD. rewrite andb_false_r.
  cbn [signed read_exponent]. apply round_proper.
  assert (DM := Z.div_mod n 10 ltac:(lia)).
  replace (n / 10 * 10 + n mod 10)%Z with n by lia.
  reflexivity.
Qed.

Lemma parseFloat_0 : parseFloat "0" = Num 0.
Proof. reflexivity. Qed.

(** ** Bounds of rounded values, dates and days *)

(** Rounding stays below a bound that has at most 53 significant bits at
    the size of the rounded value. *)
Lemma round_upper m j x :
  0 <= x -> x <= inject_Z m * pow2 j -> x < pow2 (j + 53) -> (-1074 <= j)%Z ->
  inject_Z m * pow2 j < pow2 1024 ->
  exists r, round x = Num r /\ 0 <= r <= inject_Z m * pow2 j.
Proof.
  intros H0 Hc Hu Hj Hf. destruct (Qeq_dec x 0) as [E|NE].
  - exists 0. split; [apply round_0; exact E|]. lra.
  - assert (Hx : 0 < x) by (destruct (Qlt_le_dec 0 x) as [G|G]; [exact G|];
      exfalso; apply NE; apply Qle_antisym; assumption).
    assert (N1 : 0 <= nearest x).
    { apply (nearest_ge_grid x 0 0); [ring | lra]. }
    assert (N2 : nearest x <= inject_Z m * pow2 j).
    { apply (nearest_le_grid x _ (m * 2 ^ (j - fexp x))); [|exact Hc].
      apply on_grid. apply fexp_le; assumption. }
    exists (Qred (nearest x)). split; [apply round_pos; [exact Hx | lra]|].
    rewrite Qred_correct. split; assumption.
Qed.

Lemma round_bounded k x :
  0 <= x -> x <= pow2 k -> (-1074 <= k <= 1023)%Z ->
  exists r, round x = Num r /\ 0 <= r <= pow2 k.
Proof.
  intros H0 Hk Hr. assert (P := pow2_pos k).
  destruct (round_upper 1 k x) as (r & R1 & R2 & R3).
  - exact H0.
  - change (inject_Z 1) with 1. lra.
  - apply Qle_lt_trans with (pow2 k); [exact Hk | apply pow2_lt; lia].
  - lia.
  - change (inject_Z 1) with 1. rewrite Qmult_1_l. apply pow2_lt. lia.
  - exists r. change (inject_Z 1) with 1 in R3. split; [exact R1|]. lra.
Qed.

Lemma round_opp x : round (- x) = neg (round x).
Proof.
  unfold round at 2. destruct (Qcompare x 0) eqn:C.
  - apply (proj2 (Qeq_alt _ _)) in C. rewrite round_0 by (rewrite C; reflexivity). reflexivity.
  - apply (proj2 (Qlt_alt _ _)) in C. unfold round.
    assert (G : Qcompare (- x) 0 = Gt) by (apply (proj1 (Qgt_alt _ _)); lra).
    rewrite G. destruct (Qle_bool (pow2 1024) (nearest (- x))); [reflexivity|].
    cbn [neg]. f_equal. apply Qred_complete. rewrite Qred_correct. ring.
  - apply (proj2 (Qgt_alt _ _)) in C. unfold round.
    assert (G : Qcompare (- x) 0 = Lt) by (apply (proj1 (Qlt_alt _ _)); lra).
    rewrite G.
    assert (N : nearest (- - x) == nearest x).
    { apply nearest_proper; [lra | ring]. }
    rewrite (Qle_bool_proper _ (pow2 1024) _ (nearest x) (Qeq_refl _) N).
    destruct (Qle_bool (pow2 1024) (nearest x)); [reflexivity|].
    cbn [neg]. f_equal. apply Qred_complete. rewrite N, Qred_correct. reflexivity.
Qed.

Lemma abs_neg y : abs (neg y) = abs y.
Proof.
  destruct y as [|s|a]; try reflexivity. cbn [neg abs]. f_equal. apply Qred_complete.
  rewrite Qred_correct. apply Qabs_opp.
Qed.

Lemma abs_round_Z d : abs (round (inject_Z d)) = abs (round (inject_Z (Z.abs d))).
Proof.
  destruct (Z_lt_ge_dec d 0) as [N|P].
  - rewrite <- (abs_neg (round (inject_Z d))), <- round_opp.
    f_equal. apply round_proper. rewrite <- inject_Z_opp.
    replace (Z.abs d) with (- d)%Z by lia. reflexivity.
  - rewrite Z.abs_eq by lia. reflexivity.
Qed.

Lemma abs_nonneg r : 0 <= r -> abs (Num r) = Num (Qred r).
Proof. intros H. cbn [abs]. rewrite Qabs_nonneg_eq by exact H. reflexivity. Qed.

(** *** Dates and days *)

Lemma new_Date_valid t : valid_time t -> new_Date t = Num (inject_Z t).
Proof.
  unfold valid_time, new_Date. intros H.
  destruct (Z.leb_spec (Z.abs t) 8640000000000000) as [L|L]; [|lia].
  apply of_Z_exact. assert (8640000000000000 < 2 ^ 53)%Z by reflexivity. lia.
Qed.

Lemma iso_valid t : iso_time t -> valid_time t.
Proof. unfold iso_time, valid_time. lia. Qed.

Lemma one_day : mul (mul (mul (of_Z 1000) (of_Z 60)) (of_Z 60)) (of_Z 24)
                = Num (inject_Z ms_per_day).
Proof. vm_compute. reflexivity. Qed.

Lemma sub_Z a b : sub (Num (inject_Z a)) (Num (inject_Z b)) = round (inject_Z (a - b)).
Proof.
  unfold sub. cbn [neg add]. apply round_proper. rewrite Qred_correct.
  unfold Z.sub. rewrite inject_Z_plus, inject_Z_opp. reflexivity.
Qed.

Lemma days_between_bounds t1 t2 :
  (0 <= days_between t1 t2)%Z
  /\ (Z.abs (t2 - t1) <= days_between t1 t2 * ms_per_day < Z.abs (t2 - t1) + ms_per_day)%Z.
Proof.
  unfold days_between. set (d := Z.abs (t2 - t1)).
  assert (D : (0 <= d)%Z) by (unfold d; lia).
  assert (M := Z.div_mod (- d) ms_per_day ltac:(discriminate)).
  assert (R := Z.mod_pos_bound (- d) ms_per_day ltac:(reflexivity)).
  unfold ms_per_day in *. lia.
Qed.

(** Within the year range of the timestamps, [calculateDaysBetween] is the
    exact ceiling of the difference in days. *)
Lemma days_exact t1 t2 : iso_time t1 -> iso_time t2 ->
  calculateDaysBetween (new_Date t1) (new_Date t2) = Num (inject_Z (days_between t1 t2)).
Proof.
  intros H1 H2. unfold calculateDaysBetween, getTime.
  rewrite !new_Date_valid by (apply iso_valid; assumption). rewrite one_day, sub_Z.
  unfold iso_time in H1, H2.
  rewrite abs_round_Z.
  rewrite (round_Z (inject_Z (Z.abs (t2 - t1))) (Z.abs (t2 - t1))); [| |reflexivity].
  2:{ assert (2 ^ 49 < 2 ^ 53)%Z by reflexivity.
      assert (315569520000000 < 2 ^ 49)%Z by reflexivity. lia. }
  rewrite abs_nonneg by (rewrite <- (Zle_Qle 0); lia). rewrite Qred_inject_Z.
  cbn [div]. change (is_zero (inject_Z ms_per_day)) with false. cbn iota.
  unfold days_between. apply ceil_div_exact.
  - split; reflexivity.
  - assert (315569520000000 < 2 ^ 26 * ms_per_day)%Z by reflexivity. lia.
Qed.

Lemma days_between_iso t1 t2 : iso_time t1 -> iso_time t2 ->
  (0 <= days_between t1 t2 < 2 ^ 22)%Z.
Proof.
  intros H1 H2. destruct (days_between_bounds t1 t2) as [B0 [B1 B2]].
  unfold iso_time in *. unfold ms_per_day in *.
  assert (2 ^ 22 = 4194304)%Z by reflexivity. lia.
Qed.

(** For all valid dates the result is a whole number of days, not negative
    and finite. *)
Lemma days_valid t1 t2 : valid_time t1 -> valid_time t2 ->
  exists k, calculateDaysBetween (new_Date t1) (new_Date t2) = Num (inject_Z k)
            /\ (0 <= k <= 2 ^ 28)%Z.
Proof.
  intros H1 H2. unfold calculateDaysBetween, getTime.
  rewrite !new_Date_valid by assumption. rewrite one_day, sub_Z, abs_round_Z.
  unfold valid_time in H1, H2.
  set (d := Z.abs (t2 - t1)).
  assert (Hd : (0 <= d <= 2 ^ 54)%Z).
  { unfold d. assert (2 * 8640000000000000 <= 2 ^ 54)%Z by (vm_compute; discriminate). lia. }
  destruct (round_bounded 54 (inject_Z d)) as (r & R & R0 & R1).
  { rewrite <- (Zle_Qle 0). lia. }
  { apply inject_Z_le_pow2; lia. }
  { lia. }
  rewrite R, abs_nonneg by exact R0. cbn [div].
  change (is_zero (inject_Z ms_per_day)) with false. cbn iota.
  assert (QD : 0 < inject_Z ms_per_day) by reflexivity.
  assert (E26 : pow2 26 <= inject_Z ms_per_day) by (apply Qle_bool_iff; reflexivity).
  assert (P28 := pow2_pos 28).
  assert (E54 : pow2 54 == pow2 28 * pow2 26) by reflexivity.
  assert (T : pow2 28 * pow2 26 <= pow2 28 * inject_Z ms_per_day).
  { apply Qmult_le_l; assumption. }
  destruct (round_bounded 28 (Qred r / inject_Z ms_per_day)) as (r2 & R2 & R20 & R21).
  { apply Qle_shift_div_l; [exact QD|]. rewrite Qred_correct. lra. }
  { apply Qle_shift_div_r; [exact QD|]. rewrite Qred_correct. lra. }
  { lia. }
  rewrite R2. cbn [ceil]. exists (Qceiling r2). split; [reflexivity|]. split.
  - rewrite <- (Qceiling_Z 0). apply Qceiling_resp_le. exact R20.
  - rewrite <- (Qceiling_Z (2 ^ 28)). apply Qceiling_resp_le.
    rewrite <- pow2_Z by lia. exact R21.
Qed.

(** A time value that is not valid makes an invalid date, and the days
    between an invalid date and any date are NaN. *)
Lemma new_Date_invalid t : ~ valid_time t -> new_Date t = NaN.
Proof.
  unfold valid_time, new_Date. intros H.
  destruct (Z.leb_spec (Z.abs t) 8640000000000000) as [L|L]; [contradiction | reflexivity].
Qed.

Lemma calculateDaysBetween_NaN (d : Date) :
  calculateDaysBetween NaN d = NaN /\ calculateDaysBetween d NaN = NaN.
Proof.
  unfold calculateDaysBetween, getTime, sub. split; destruct d; reflexivity.
Qed.

(** ** The accumulating loops and the averages *)

Lemma add_Z a b : (Z.abs (a + b) < 2 ^ 53)%Z ->
  add (Num (inject_Z a)) (Num (inject_Z b)) = Num (inject_Z (a + b)).
Proof.
  intros H. cbn [add]. apply round_Z; [exact H|]. rewrite inject_Z_plus. reflexivity.
Qed.

Lemma mul_Z a b : (Z.abs (a * b) < 2 ^ 53)%Z ->
  mul (Num (inject_Z a)) (Num (inject_Z b)) = Num (inject_Z (a * b)).
Proof.
  intros H. cbn [mul]. apply round_Z; [exact H|]. rewrite inject_Z_mult. reflexivity.
Qed.

Lemma of_Z_small z : (Z.abs z < 2 ^ 53)%Z -> of_Z z = Num (inject_Z z).
Proof. apply of_Z_exact. Qed.

Lemma of_Z_1 : of_Z 1 = Num (inject_Z 1).
Proof. reflexivity. Qed.

Lemma of_Z_0 : of_Z 0 = Num (inject_Z 0).
Proof. reflexivity. Qed.

Lemma sumZ_cons z l : sumZ (z :: l) = (z + sumZ l)%Z.
Proof. reflexivity. Qed.

Lemma keep_some_length {A B : Type} (g : A -> option B) l :
  (List.length (keep_some g l) <= List.length l)%nat.
Proof.
  induction l as [|a l IH]; simpl; [lia|]. destruct (g a); simpl; lia.
Qed.

(** The loops in whole numbers: when every value is a whole number between 0
    and [B] and the totals stay below 2^53, no addition rounds. *)
Lemma fold_exact {A : Type} (value : A -> option number) (g : A -> option Z) (B : Z) l :
  (0 <= B)%Z ->
  (forall x, In x l -> value x = option_map (fun z => Num (inject_Z z)) (g x)) ->
  (forall x z, In x l -> g x = Some z -> (0 <= z <= B)%Z) ->
  forall T C, (0 <= T)%Z -> (0 <= C)%Z ->
    (T + B * Z.of_nat (List.length l) < 2 ^ 53)%Z ->
    (C + Z.of_nat (List.length l) < 2 ^ 53)%Z ->
    fold_left (accumulate value) l (Num (inject_Z T), Num (inject_Z C))
    = (Num (inject_Z (T + sumZ (keep_some g l))),
       Num (inject_Z (C + Z.of_nat (List.length (keep_some g l))))).
Proof.
  intros HB. induction l as [|x l IH]; intros Hv Hb T C HT HC HTB HCB.
  - cbn [fold_left keep_some sumZ fold_right List.length]. rewrite !Z.add_0_r. reflexivity.
  - cbn [fold_left]. unfold accumulate at 2. rewrite (Hv x (or_introl eq_refl)).
    cbn [List.length] in HTB, HCB. rewrite Nat2Z.inj_succ in HTB, HCB.
    assert (Hv' : forall y, In y l -> value y = option_map (fun z => Num (inject_Z z)) (g y)).
    { intros y Hy. apply Hv. right. exact Hy. }
    assert (Hb' : forall y z, In y l -> g y = Some z -> (0 <= z <= B)%Z).
    { intros y z Hy. apply Hb. right. exact Hy. }
    cbn [keep_some]. destruct (g x) as [z|] eqn:G; cbn [option_map].
    + destruct (Hb x z (or_introl eq_refl) G) as [Z0 ZB].
      cbn [fst snd]. rewrite of_Z_1. rewrite !add_Z by nia.
      rewrite IH; try assumption; try nia.
      rewrite sumZ_cons. cbn [List.length]. rewrite Nat2Z.inj_succ.
      f_equal; do 2 f_equal; lia.
    + apply IH; try assumption; nia.
Qed.

(** The loops in general: totals of values bounded by [b * 2^28] stay finite
    for arrays. *)
Lemma fold_bounded {A : Type} (value : A -> option number) (b : Z) l :
  (0 <= b < 2 ^ 5)%Z ->
  (forall x v, In x l -> value x = Some v ->
     exists q, v = Num q /\ 0 <= q <= inject_Z b * pow2 28) ->
  forall T C K, (0 <= C <= K)%Z ->
    0 <= T <= inject_Z (K * b) * pow2 28 ->
    (K + Z.of_nat (List.length l) < 2 ^ 32)%Z ->
    exists T' C',
      fold_left (accumulate value) l (Num T, Num (inject_Z C)) = (Num T', Num (inject_Z C'))
      /\ 0 <= T' <= inject_Z ((K + Z.of_nat (List.length l)) * b) * pow2 28
      /\ (0 <= C' <= K + Z.of_nat (List.length l))%Z.
Proof.
  intros Hb. induction l as [|x l IH]; intros Hv T C K HC HT HK.
  - exists T, C. cbn [fold_left List.length]. rewrite !Z.add_0_r. repeat split; try tauto; lia.
  - cbn [List.length] in HK |- *. rewrite Nat2Z.inj_succ in HK |- *.
    assert (Hv' : forall y v, In y l -> value y = Some v ->
                    exists q, v = Num q /\ 0 <= q <= inject_Z b * pow2 28).
    { intros y v Hy. apply Hv. right. exact Hy. }
    assert (P28 := pow2_pos 28).
    assert (Kb : inject_Z (K * b) * pow2 28 <= inject_Z ((K + 1) * b) * pow2 28).
    { apply Qmult_le_r; [exact P28|]. rewrite <- Zle_Qle. nia. }
    cbn [fold_left]. unfold accumulate at 2. destruct (value x) as [v|] eqn:V.
    + destruct (Hv x v (or_introl eq_refl) V) as (q & -> & Q0 & Q1).
      cbn [fst snd]. rewrite of_Z_1, add_Z by lia. cbn [add].
      assert (S1 : T + q <= inject_Z ((K + 1) * b) * pow2 28).
      { replace ((K + 1) * b)%Z with (K * b + b)%Z by ring.
        rewrite inject_Z_plus, Qmult_plus_distr_l. lra. }
      destruct (round_upper ((K + 1) * b) 28 (T + q)) as (r & R & R0 & R1).
      * lra.
      * exact S1.
      * apply Qle_lt_trans with (inject_Z ((K + 1) * b) * pow2 28); [exact S1|].
        assert (E : pow2 (28 + 53) == pow2 53 * pow2 28) by reflexivity. rewrite E.
        apply Qmult_lt_r; [exact P28|]. apply inject_Z_lt_pow2; [lia|].
        assert (2 ^ 32 * 2 ^ 5 < 2 ^ 53)%Z by reflexivity. nia.
      * lia.
      * apply Qlt_le_trans with (pow2 53 * pow2 28); [|apply Qle_bool_iff; reflexivity].
        apply Qmult_lt_r; [exact P28|]. apply inject_Z_lt_pow2; [lia|].
        assert (2 ^ 32 * 2 ^ 5 < 2 ^ 53)%Z by reflexivity. nia.
      * rewrite R. destruct (IH Hv' r (C + 1)%Z (K + 1)%Z) as (T' & C' & F & FT & FC).
        { lia. } { split; assumption. } { lia. }
        exists T', C'. rewrite F. split; [reflexivity|].
        replace (K + Z.succ (Z.of_nat (List.length l)))%Z
          with (K + 1 + Z.of_nat (List.length l))%Z by lia.
        split; [exact FT | lia].
    + destruct (IH Hv' T C (K + 1)%Z) as (T' & C' & F & FT & FC).
      { lia. } { lra. } { lia. }
      exists T', C'. rewrite F. split; [reflexivity|].
      replace (K + Z.succ (Z.of_nat (List.length l)))%Z
        with (K + 1 + Z.of_nat (List.length l))%Z by lia.
      split; [exact FT | lia].
Qed.

Lemma gt_Z a : gt (Num (inject_Z a)) (of_Z 0) = (0 <? a)%Z.
Proof.
  rewrite of_Z_0. cbn [gt].
  destruct (Z.ltb_spec 0 a) as [H|H].
  - destruct (Qle_bool (inject_Z a) (inject_Z 0)) eqn:T; [|reflexivity].
    apply Qle_bool_iff in T. rewrite <- Zle_Qle in T. lia.
  - assert (T : Qle_bool (inject_Z a) (inject_Z 0) = true).
    { apply Qle_bool_iff. rewrite <- Zle_Qle. exact H. }
    rewrite T. reflexivity.
Qed.

Lemma is_zero_Z a : is_zero (inject_Z a) = (a =? 0)%Z.
Proof.
  unfold is_zero. destruct (Z.eqb_spec a 0) as [E|NE].
  - subst a. reflexivity.
  - destruct (Qeq_bool (inject_Z a) 0) eqn:T; [|reflexivity].
    apply Qeq_bool_iff in T. apply (inject_Z_injective a 0) in T. contradiction.
Qed.

Lemma div_Z a b : (b <> 0)%Z ->
  div (Num (inject_Z a)) (Num (inject_Z b)) = round (inject_Z a / inject_Z b).
Proof.
  intros H. cbn [div]. rewrite is_zero_Z.
  destruct (Z.eqb_spec b 0) as [E|NE]; [contradiction | reflexivity].
Qed.

Lemma pow10_21 : pow2 66 <= pow10 21.
Proof. apply Qle_bool_iff. vm_compute. reflexivity. Qed.

(** Printing with one decimal and reading back: finite and not negative. *)
Lemma tenths_finite r : 0 <= r <= pow2 65 ->
  exists n, parseFloat (toFixed1 (Num r)) = round (inject_Z n / 10)
            /\ (0 <= n)%Z /\ finite_nonneg (round (inject_Z n / 10)).
Proof.
  intros [R0 R1].
  assert (P65 : pow2 65 < pow2 66) by (apply pow2_lt; lia).
  assert (E66 : pow2 66 == 2 * pow2 65) by reflexivity.
  assert (P := pow2_pos 65). assert (P21 := pow10_21).
  rewrite parseFloat_toFixed1; [|exact R0|lra].
  destruct (floor_bounds (r * 10 + (1 # 2))) as [F1 F2].
  set (n := Qfloor (r * 10 + (1 # 2))) in *.
  assert (Hn : (0 <= n)%Z).
  { unfold n. rewrite <- (Qfloor_Z 0). apply Qfloor_resp_le.
    change (inject_Z 0) with 0. clear - R0. lra. }
  exists n. split; [reflexivity|]. split; [exact Hn|].
  assert (E10 : inject_Z n / 10 == inject_Z n * (1 # 10)) by reflexivity.
  assert (N0 : 0 <= inject_Z n) by (rewrite <- (Zle_Qle 0); exact Hn).
  assert (P1 : 1 <= pow2 65) by (apply Qle_bool_iff; reflexivity).
  destruct (round_bounded 66 (inject_Z n / 10)) as (r2 & R2 & R20 & R21).
  { rewrite E10. lra. } { rewrite E10. lra. } { lia. }
  rewrite R2. exact R20.
Qed.

(** The average of whole numbers, printed with one decimal and read back, is
    a decimal nearest to the exact average. *)
Lemma average_tenth a b :
  (0 <= a)%Z -> (1 <= b)%Z -> (20 * a < 2 ^ 53)%Z -> (b < 2 ^ 53)%Z ->
  exists n, parseFloat (toFixed1 (div (Num (inject_Z a)) (Num (inject_Z b))))
            = round (inject_Z n / 10)
            /\ nearest_tenth n (inject_Z a / inject_Z b) /\ (0 <= n)%Z.
Proof.
  intros Ha Hb Hab Hbb. rewrite div_Z by lia.
  destruct (Z.eq_dec a 0%Z) as [Z0|NZ].
  - subst a. rewrite round_0 by (unfold Qdiv; ring). exists 0%Z.
    split; [reflexivity|]. split; [|lia].
    unfold nearest_tenth. apply Qabs_Qle_condition.
    assert (E : inject_Z 0 / 10 - inject_Z 0 / inject_Z b == 0) by (unfold Qdiv; ring).
    rewrite E. split; discriminate.
  - destruct (round_tenths a b) as (r & R & R0 & R1 & Rt); try lia.
    rewrite R.
    assert (A54 : inject_Z a < pow2 53) by (apply inject_Z_lt_pow2; lia).
    assert (E66 : pow2 66 == 8192 * pow2 53) by reflexivity.
    assert (P := pow2_pos 53). assert (P21 := pow10_21).
    rewrite parseFloat_toFixed1; [|lra|lra].
    exists (Qfloor (r * 10 + (1 # 2))). split; [reflexivity|]. split; [exact Rt|].
    rewrite <- (Qfloor_Z 0). apply Qfloor_resp_le. change (inject_Z 0) with 0.
    clear - R0. lra.
Qed.

(** ** The metric computation *)

(** *** The scan of the changelog *)

Lemma items_match_existsb items s :
  items_match items s
  = existsb (fun item => String.eqb (field item) "status" && String.eqb (toString item) s) items.
Proof.
  induction items as [|it rest IH]; [reflexivity|]. cbn [items_match existsb].
  rewrite IH. destruct (String.eqb (field it) "status" && String.eqb (toString it) s); reflexivity.
Qed.

Lemma scan_histories_find hs s :
  scan_histories hs s
  = option_map (fun h => new_Date (History.created h)) (List.find (transition_to s) hs).
Proof.
  induction hs as [|h rest IH]; [reflexivity|]. cbn [scan_histories List.find].
  unfold transition_to at 1. rewrite <- items_match_existsb.
  destruct (items_match (History.items h) s); [reflexivity | exact IH].
Qed.

Lemma findStatusChangeTime_first s i :
  findStatusChangeTime (changelog i) s = option_map new_Date (first_transition s i).
Proof.
  unfold findStatusChangeTime, first_transition, issue_histories.
  destruct (changelog i) as [c|]; [|reflexivity].
  destruct (histories c) as [hs|]; [|reflexivity].
  rewrite scan_histories_find. destruct (List.find _ hs); reflexivity.
Qed.

Lemma first_transition_time s i t :
  first_transition s i = Some t -> In t (issue_times i).
Proof.
  unfold first_transition, issue_times. intros H.
  destruct (List.find (transition_to s) (issue_histories i)) as [h|] eqn:F; [|discriminate].
  injection H as <-. apply List.find_some in F. destruct F as [F _].
  apply List.in_or_app. right. apply List.in_or_app. right. apply List.in_map. exact F.
Qed.

Lemma created_time i t : created (fields i) = Some t -> In t (issue_times i).
Proof.
  unfold issue_times. intros ->. apply List.in_or_app. left. left. reflexivity.
Qed.

Lemma resolution_time i t : resolutiondate (fields i) = Some t -> In t (issue_times i).
Proof.
  unfold issue_times. intros ->. apply List.in_or_app. right. apply List.in_or_app.
  left. left. reflexivity.
Qed.

(** *** The two loops *)

Lemma leadTime_step_accumulate st i : leadTime_step st i = accumulate lead_value st i.
Proof.
  destruct st as [t c]. unfold leadTime_step, accumulate, lead_value.
  destruct (findStatusChangeTime (changelog i) "In Development"); reflexivity.
Qed.

Lemma recovery_step_accumulate st i : recovery_step st i = accumulate recovery_value st i.
Proof.
  destruct st as [t c]. unfold recovery_step, accumulate, recovery_value.
  destruct (is_set (created (fields i)) && is_set (resolutiondate (fields i))); reflexivity.
Qed.

Lemma fold_left_ext {A B : Type} (f g : A -> B -> A) l :
  (forall a b, f a b = g a b) -> forall a, fold_left f l a = fold_left g l a.
Proof.
  intros E. induction l as [|b l IH]; intros a; [reflexivity|].
  cbn [fold_left]. rewrite E. apply IH.
Qed.

Lemma lead_value_exact i : Forall iso_time (issue_times i) -> released i = true ->
  lead_value i = option_map (fun z => Num (inject_Z z)) (lead_days i)
  /\ forall z, lead_days i = Some z -> (0 <= z <= 2 ^ 22)%Z.
Proof.
  intros Ht Hr. rewrite List.Forall_forall in Ht.
  unfold released in Hr. apply andb_prop in Hr. destruct Hr as [_ Hr].
  unfold lead_value, lead_days. rewrite findStatusChangeTime_first.
  destruct (resolutiondate (fields i)) as [t1|] eqn:R; [|discriminate Hr].
  destruct (first_transition "In Development" i) as [t0|] eqn:F; cbn [option_map].
  - assert (I0 := Ht t0 (first_transition_time _ _ _ F)).
    assert (I1 := Ht t1 (resolution_time _ _ R)).
    cbn [new_Date_field]. rewrite days_exact by assumption. split; [reflexivity|].
    intros z E. injection E as <-. assert (D := days_between_iso t0 t1 I0 I1). lia.
  - split; [reflexivity | discriminate].
Qed.

Lemma recovery_value_exact i : Forall iso_time (issue_times i) ->
  recovery_value i = option_map (fun z => Num (inject_Z z)) (recovery_hours i)
  /\ forall z, recovery_hours i = Some z -> (0 <= z <= 2 ^ 27)%Z.
Proof.
  intros Ht. rewrite List.Forall_forall in Ht. unfold recovery_value, recovery_hours.
  destruct (created (fields i)) as [t0|] eqn:C; [|split; [reflexivity | discriminate]].
  destruct (resolutiondate (fields i)) as [t1|] eqn:R; [|split; [reflexivity | discriminate]].
  assert (I0 := Ht t0 (created_time _ _ C)). assert (I1 := Ht t1 (resolution_time _ _ R)).
  assert (D := days_between_iso t0 t1 I0 I1).
  assert (P : (2 ^ 22 * 24 < 2 ^ 27)%Z) by reflexivity.
  assert (P' : (2 ^ 27 < 2 ^ 53)%Z) by reflexivity.
  cbn [is_set andb new_Date_field option_map]. rewrite days_exact by assumption.
  rewrite (of_Z_small 24) by reflexivity. rewrite mul_Z by lia.
  split; [reflexivity|]. intros z E. injection E as <-. lia.
Qed.

Lemma keep_some_filter {A B : Type} (g : A -> option B) (p q : A -> bool) l :
  (forall x, g x <> None -> p x = q x) ->
  keep_some g (List.filter p l) = keep_some g (List.filter q l).
Proof.
  intros H. induction l as [|x l IH]; [reflexivity|]. cbn [List.filter].
  destruct (g x) as [b|] eqn:G.
  - rewrite (H x) by congruence. destruct (q x); cbn [keep_some]; rewrite ?G, IH; reflexivity.
  - destruct (p x), (q x); cbn [keep_some]; rewrite ?G; exact IH.
Qed.

Lemma filter_filter {A : Type} (p q : A -> bool) l :
  List.filter p (List.filter q l) = List.filter (fun x => q x && p x) l.
Proof.
  induction l as [|x l IH]; [reflexivity|]. cbn [List.filter].
  destruct (q x); cbn [List.filter andb]; [destruct (p x)|]; rewrite IH; reflexivity.
Qed.

Lemma releasedBugs_filter issues :
  releasedBugs issues = List.filter (fun i => is_bug i && status_released i) issues.
Proof. unfold releasedBugs, bugs. apply filter_filter. Qed.

Lemma recovery_times_code issues :
  keep_some recovery_hours (releasedBugs issues) = recovery_times issues.
Proof.
  rewrite releasedBugs_filter. unfold recovery_times. apply keep_some_filter.
  intros x H. unfold released, status_released, recovery_hours in *.
  destruct (created (fields x)); [|congruence].
  destruct (resolutiondate (fields x)); [|congruence].
  cbn [is_set]. rewrite andb_true_r. reflexivity.
Qed.

Lemma filter_length_le {A : Type} (p : A -> bool) l :
  (List.length (List.filter p l) <= List.length l)%nat.
Proof.
  induction l as [|x l IH]; [cbn; lia|]. cbn [List.filter]. destruct (p x); cbn [List.length]; lia.
Qed.

Lemma iso_times_in issues i : iso_times issues -> In i issues -> Forall iso_time (issue_times i).
Proof. unfold iso_times. rewrite List.Forall_forall. intros H. apply H. Qed.

Lemma sum_keep_some_bound {A : Type} (g : A -> option Z) (B : Z) l :
  (0 <= B)%Z ->
  (forall x z, In x l -> g x = Some z -> (0 <= z <= B)%Z) ->
  (0 <= sumZ (keep_some g l) <= B * Z.of_nat (List.length l))%Z.
Proof.
  intros HB. induction l as [|x l IH]; intros Hb.
  - cbn. lia.
  - assert (IH' := IH (fun y z Hy => Hb y z (or_intror Hy))).
    cbn [keep_some List.length]. rewrite Nat2Z.inj_succ.
    destruct (g x) as [z|] eqn:G.
    + assert (Z0 := Hb x z (or_introl eq_refl) G). rewrite sumZ_cons. nia.
    + nia.
Qed.

(** The first loop, for timestamps of the year range and at most 2^20
    issues: the total of the lead times and their number. *)
Lemma lead_loop issues :
  iso_times issues -> (Z.of_nat (List.length issues) <= 2 ^ 20)%Z ->
  fold_left leadTime_step (releasedIssues issues) (of_Z 0, of_Z 0)
  = (Num (inject_Z (sumZ (lead_times issues))),
     Num (inject_Z (Z.of_nat (List.length (lead_times issues)))))
  /\ (0 <= sumZ (lead_times issues) <= 2 ^ 42)%Z.
Proof.
  intros Ht Hl.
  assert (Ll := filter_length_le released issues).
  assert (P : (2 ^ 22 * 2 ^ 20 = 2 ^ 42)%Z) by reflexivity.
  assert (P' : (2 ^ 42 < 2 ^ 53)%Z) by reflexivity.
  assert (Hv : forall x, In x (List.filter released issues) ->
                 lead_value x = option_map (fun z => Num (inject_Z z)) (lead_days x)).
  { intros x Hx. apply List.filter_In in Hx. destruct Hx as [Hx Hr].
    apply lead_value_exact; [apply (iso_times_in issues); assumption | exact Hr]. }
  assert (Hb : forall x z, In x (List.filter released issues) -> lead_days x = Some z ->
                 (0 <= z <= 2 ^ 22)%Z).
  { intros x z Hx. apply List.filter_In in Hx. destruct Hx as [Hx Hr].
    apply lead_value_exact; [apply (iso_times_in issues); assumption | exact Hr]. }
  assert (Sb := sum_keep_some_bound lead_days (2 ^ 22) _ ltac:(lia) Hb).
  split.
  - rewrite (fold_left_ext _ _ _ leadTime_step_accumulate).
    change (releasedIssues issues) with (List.filter released issues).
    rewrite of_Z_0.
    rewrite (fold_exact lead_value lead_days (2 ^ 22) _ ltac:(lia) Hv Hb 0 0); try lia.
    reflexivity.
  - unfold lead_times. nia.
Qed.

(** The second loop, likewise: the total of the recovery times in hours and
    their number. *)
Lemma recovery_loop issues :
  iso_times issues -> (Z.of_nat (List.length issues) <= 2 ^ 20)%Z ->
  fold_left recovery_step (releasedBugs issues) (of_Z 0, of_Z 0)
  = (Num (inject_Z (sumZ (recovery_times issues))),
     Num (inject_Z (Z.of_nat (List.length (recovery_times issues)))))
  /\ (0 <= sumZ (recovery_times issues) <= 2 ^ 47)%Z.
Proof.
  intros Ht Hl. rewrite <- recovery_times_code.
  assert (Ll : (List.length (releasedBugs issues) <= List.length issues)%nat).
  { rewrite releasedBugs_filter. apply filter_length_le. }
  assert (P : (2 ^ 27 * 2 ^ 20 = 2 ^ 47)%Z) by reflexivity.
  assert (P' : (2 ^ 47 < 2 ^ 53)%Z) by reflexivity.
  assert (Hi : forall x, In x (releasedBugs issues) -> Forall iso_time (issue_times x)).
  { intros x Hx. rewrite releasedBugs_filter in Hx. apply List.filter_In in Hx.
    apply (iso_times_in issues); tauto. }
  assert (Hv : forall x, In x (releasedBugs issues) ->
                 recovery_value x = option_map (fun z => Num (inject_Z z)) (recovery_hours x)).
  { intros x Hx. apply recovery_value_exact. apply Hi. exact Hx. }
  assert (Hb : forall x z, In x (releasedBugs issues) -> recovery_hours x = Some z ->
                 (0 <= z <= 2 ^ 27)%Z).
  { intros x z Hx. apply recovery_value_exact. apply Hi. exact Hx. }
  assert (Sb := sum_keep_some_bound recovery_hours (2 ^ 27) _ ltac:(lia) Hb).
  split.
  - rewrite (fold_left_ext _ _ _ recovery_step_accumulate). rewrite of_Z_0.
    rewrite (fold_exact recovery_value recovery_hours (2 ^ 27) _ ltac:(lia) Hv Hb 0 0); try lia.
    reflexivity.
  - nia.
Qed.

(** *** The fields of the result *)

Lemma leadTime_eq issues :
  leadTime (calculateDORAMetrics issues)
  = let '(total, count) := fold_left leadTime_step (releasedIssues issues) (of_Z 0, of_Z 0) in
    parseFloat (if gt count (of_Z 0) then toFixed1 (div total count) else "0"%string).
Proof.
  unfold calculateDORAMetrics.
  destruct (fold_left leadTime_step _ _) as [t c].
  destruct (fold_left recovery_step _ _) as [t' c']. reflexivity.
Qed.

Lemma recoveryTime_eq issues :
  recoveryTime (calculateDORAMetrics issues)
  = let '(total, count) := fold_left recovery_step (releasedBugs issues) (of_Z 0, of_Z 0) in
    parseFloat (if gt count (of_Z 0) then toFixed1 (div total count) else "0"%string).
Proof.
  unfold calculateDORAMetrics.
  destruct (fold_left leadTime_step _ _) as [t c].
  destruct (fold_left recovery_step _ _) as [t' c']. reflexivity.
Qed.

Lemma deploymentFrequency_eq issues :
  deploymentFrequency (calculateDORAMetrics issues)
  = parseFloat (toFixed1 (div (array_length (releasedIssues issues)) (of_Z 4))).
Proof.
  unfold calculateDORAMetrics.
  destruct (fold_left leadTime_step _ _) as [t c].
  destruct (fold_left recovery_step _ _) as [t' c']. reflexivity.
Qed.

Lemma changeFailureRate_eq issues :
  changeFailureRate (calculateDORAMetrics issues)
  = parseFloat
      (if gt (array_length (releasedIssues issues)) (of_Z 0)
       then toFixed1 (mul (div (array_length (releasedBugs issues))
                               (array_length (releasedIssues issues)))
                          (of_Z 100))
       else "0"%string).
Proof.
  unfold calculateDORAMetrics.
  destruct (fold_left leadTime_step _ _) as [t c].
  destruct (fold_left recovery_step _ _) as [t' c']. reflexivity.
Qed.

Lemma velocity_eq issues :
  velocity (calculateDORAMetrics issues)
  = fold_left (fun sum issue => add sum (points issue)) issues (of_Z 0).
Proof.
  unfold calculateDORAMetrics.
  destruct (fold_left leadTime_step _ _) as [t c].
  destruct (fold_left recovery_step _ _) as [t' c']. reflexivity.
Qed.

Lemma array_length_exact {A : Type} (l : list A) : is_array l ->
  array_length l = Num (inject_Z (Z.of_nat (List.length l))).
Proof.
  unfold is_array, array_length, of_nat. intros H. apply of_Z_exact.
  assert (2 ^ 32 < 2 ^ 53)%Z by reflexivity. lia.
Qed.

Lemma is_array_filter {A : Type} (p : A -> bool) l : is_array l -> is_array (List.filter p l).
Proof. unfold is_array. intros H. assert (L := filter_length_le p l). lia. Qed.

(** ** Averages of the loops *)

(** The average that both loops end with. *)
Lemma average_spec (l : list Z) :
  (0 <= sumZ l)%Z -> (20 * sumZ l < 2 ^ 53)%Z -> (Z.of_nat (List.length l) < 2 ^ 53)%Z ->
  let total := Num (inject_Z (sumZ l)) in
  let count := Num (inject_Z (Z.of_nat (List.length l))) in
  let average := parseFloat (if gt count (of_Z 0) then toFixed1 (div total count)
                             else "0"%string) in
  (l = [] -> average = Num 0)
  /\ (l <> [] -> exists n, average = round (inject_Z n / 10) /\ nearest_tenth n (mean l)).
Proof.
  intros H0 H1 H2. cbv zeta. rewrite gt_Z. split.
  - intros ->. reflexivity.
  - intros NE. assert (L : (1 <= Z.of_nat (List.length l))%Z).
    { destruct l; [contradiction | cbn [List.length]; lia]. }
    destruct (Z.ltb_spec 0 (Z.of_nat (List.length l))) as [_|F]; [|lia].
    destruct (average_tenth (sumZ l) (Z.of_nat (List.length l)) H0 L H1 H2) as (n & E & Nt & _).
    exists n. split; [exact E | exact Nt].
Qed.

Lemma finite_nonneg_0 : finite_nonneg (parseFloat "0").
Proof. vm_compute. discriminate. Qed.

(** The average of a bounded total over a positive count is finite and not
    negative. *)
Lemma average_finite T C : 0 <= T <= pow2 65 -> (0 <= C)%Z ->
  finite_nonneg (parseFloat (if gt (Num (inject_Z C)) (of_Z 0)
                             then toFixed1 (div (Num T) (Num (inject_Z C)))
                             else "0"%string)).
Proof.
  intros [T0 T1] HC. rewrite gt_Z. destruct (Z.ltb_spec 0 C) as [P|N]; [|apply finite_nonneg_0].
  cbn [div]. rewrite is_zero_Z. destruct (Z.eqb_spec C 0) as [E|_]; [lia|].
  assert (QC : 1 <= inject_Z C) by (rewrite <- (Zle_Qle 1); lia).
  assert (Q : 0 <= T / inject_Z C <= T).
  { split; [apply Qle_shift_div_l; lra|]. apply Qle_shift_div_r; [lra|].
    assert (X : T * 1 <= T * inject_Z C).
    { destruct (Qeq_dec T 0) as [Z0|NZ]; [rewrite Z0; lra|].
      apply Qmult_le_l; [|exact QC]. destruct (Qlt_le_dec 0 T) as [G|G]; [exact G|].
      exfalso. apply NZ. apply Qle_antisym; assumption. }
    lra. }
  destruct (round_bounded 65 (T / inject_Z C)) as (r & R & R0 & R1); [lra | lra | lia |].
  rewrite R. destruct (tenths_finite r (conj R0 R1)) as (n & E & _ & F). rewrite E. exact F.
Qed.

(** The value that a released issue adds to the lead time: finite when its
    dates are valid, NaN when one of them is not, none when it has no dates.
    The same for a bug with the status [Released] and the recovery time. *)
Lemma lead_value_dates i : released i = true ->
  (Forall valid_time (lead_dates i) ->
   forall v, lead_value i = Some v -> exists q, v = Num q /\ 0 <= q <= inject_Z 1 * pow2 28)
  /\ (Exists (fun t => ~ valid_time t) (lead_dates i) -> lead_value i = Some NaN)
  /\ (lead_dates i = [] -> lead_value i = None).
Proof.
  intros Hr. unfold lead_dates, lead_value. rewrite Hr, findStatusChangeTime_first.
  apply andb_prop in Hr. destruct Hr as [_ Hd].
  destruct (first_transition "In Development" i) as [t0|].
  2:{ split; [discriminate|]. split; [intros H; inversion H | reflexivity]. }
  destruct (resolutiondate (fields i)) as [t1|]; [clear Hd | discriminate Hd].
  cbn [option_map new_Date_field]. split; [|split].
  - intros Hv v E. injection E as <-.
    apply List.Forall_cons_iff in Hv. destruct Hv as [V0 Hv].
    apply List.Forall_cons_iff in Hv. destruct Hv as [V1 _].
    destruct (days_valid t0 t1 V0 V1) as (k & -> & K0 & K1).
    exists (inject_Z k). split; [reflexivity|].
    change (inject_Z 1) with 1. rewrite Qmult_1_l, pow2_Z by lia.
    rewrite <- !Zle_Qle. rewrite <- (Zle_Qle 0). lia.
  - intros H. f_equal. apply List.Exists_cons in H. destruct H as [H|H].
    + rewrite (new_Date_invalid _ H). apply calculateDaysBetween_NaN.
    + apply List.Exists_cons in H. destruct H as [H|H]; [|inversion H].
      rewrite (new_Date_invalid _ H). apply calculateDaysBetween_NaN.
  - discriminate.
Qed.

Lemma recovery_value_dates i : is_bug i && status_released i = true ->
  (Forall valid_time (recovery_dates i) ->
   forall v, recovery_value i = Some v ->
             exists q, v = Num q /\ 0 <= q <= inject_Z 24 * pow2 28)
  /\ (Exists (fun t => ~ valid_time t) (recovery_dates i) -> recovery_value i = Some NaN)
  /\ (recovery_dates i = [] -> recovery_value i = None).
Proof.
  intros Hr. unfold recovery_dates, recovery_value. rewrite Hr.
  destruct (created (fields i)) as [t0|].
  2:{ split; [discriminate|]. split; [intros H; inversion H | reflexivity]. }
  destruct (resolutiondate (fields i)) as [t1|].
  2:{ split; [discriminate|]. split; [intros H; inversion H | reflexivity]. }
  cbn [is_set andb new_Date_field]. split; [|split].
  - intros Hv v E. injection E as <-.
    apply List.Forall_cons_iff in Hv. destruct Hv as [V0 Hv].
    apply List.Forall_cons_iff in Hv. destruct Hv as [V1 _].
    destruct (days_valid t0 t1 V0 V1) as (k & -> & K0 & K1).
    assert (P : (2 ^ 28 * 24 < 2 ^ 53)%Z) by reflexivity.
    rewrite (of_Z_small 24) by reflexivity. rewrite mul_Z by lia.
    exists (inject_Z (k * 24)). split; [reflexivity|].
    rewrite pow2_Z by lia. rewrite <- inject_Z_mult, <- !Zle_Qle. rewrite <- (Zle_Qle 0). lia.
  - intros H. f_equal. apply List.Exists_cons in H. destruct H as [H|H].
    + rewrite (new_Date_invalid _ H), (proj1 (calculateDaysBetween_NaN (new_Date t1))).
      reflexivity.
    + apply List.Exists_cons in H. destruct H as [H|H]; [|inversion H].
      rewrite (new_Date_invalid _ H), (proj2 (calculateDaysBetween_NaN (new_Date t0))).
      reflexivity.
  - discriminate.
Qed.

Lemma loop_finite {A : Type} (value : A -> option number) (b : Z) (l : list A) :
  (0 <= b <= 24)%Z -> is_array l ->
  (forall x v, In x l -> value x = Some v ->
     exists q, v = Num q /\ 0 <= q <= inject_Z b * pow2 28) ->
  let '(total, count) := fold_left (accumulate value) l (of_Z 0, of_Z 0) in
  finite_nonneg (parseFloat (if gt count (of_Z 0) then toFixed1 (div total count)
                             else "0"%string)).
Proof.
  intros Hb Ha Hv. unfold is_array in Ha.
  destruct (fold_bounded value b l ltac:(cbn; lia) Hv 0 0%Z 0%Z) as (T & C & F & FT & FC).
  { lia. } { cbn. split; discriminate. } { lia. }
  change (of_Z 0) with (Num 0) at 1. change (of_Z 0) with (Num (inject_Z 0)) at 1.
  rewrite F. apply average_finite; [|lia]. split; [tauto|].
  apply Qle_trans with (inject_Z ((0 + Z.of_nat (List.length l)) * b) * pow2 28); [tauto|].
  assert (E : pow2 65 == pow2 37 * pow2 28) by reflexivity. rewrite E.
  apply Qmult_le_r; [apply pow2_pos|]. apply inject_Z_le_pow2; [lia|].
  assert (2 ^ 32 * 24 <= 2 ^ 37)%Z by (vm_compute; discriminate). nia.
Qed.

Lemma add_NaN_r x : add x NaN = NaN.
Proof. destruct x; reflexivity. Qed.

Lemma keep_some_In {A B : Type} (g : A -> option B) l x v :
  In x l -> g x = Some v -> (1 <= List.length (keep_some g l))%nat.
Proof.
  induction l as [|y l IH]; intros H G; [destruct H|]. cbn [keep_some].
  destruct H as [->|H].
  - rewrite G. cbn [List.length]. lia.
  - destruct (g y); cbn [List.length]; [|apply IH; assumption]. lia.
Qed.

Lemma keep_some_none {A B : Type} (g : A -> option B) l :
  (forall x, In x l -> g x = None) -> keep_some g l = [].
Proof.
  induction l as [|y l IH]; intros H; [reflexivity|]. cbn [keep_some].
  rewrite (H y (or_introl eq_refl)). apply IH. intros x Hx. apply H. right. exact Hx.
Qed.

(** The count of a loop is exact, and a NaN among the values makes the total
    NaN. *)
Lemma fold_count_NaN {A : Type} (value : A -> option number) l : forall T c,
  (0 <= c)%Z -> (c + Z.of_nat (List.length l) < 2 ^ 53)%Z ->
  exists T',
    fold_left (accumulate value) l (T, Num (inject_Z c))
    = (T', Num (inject_Z (c + Z.of_nat (List.length (keep_some value l)))))
    /\ (T = NaN \/ (exists x, In x l /\ value x = Some NaN) -> T' = NaN).
Proof.
  induction l as [|y l IH]; intros T c Hc Hl.
  - exists T. cbn [fold_left keep_some List.length]. rewrite Z.add_0_r. split; [reflexivity|].
    intros [H|(x & [] & _)]. exact H.
  - cbn [List.length] in Hl. rewrite Nat2Z.inj_succ in Hl.
    cbn [fold_left keep_some]. unfold accumulate at 2. destruct (value y) as [v|] eqn:V.
    + cbn [fst snd]. rewrite of_Z_1, add_Z by lia.
      destruct (IH (add T v) (c + 1)%Z ltac:(lia) ltac:(lia)) as (T' & E & N).
      exists T'. rewrite E. cbn [List.length]. rewrite Nat2Z.inj_succ. split.
      * do 3 f_equal. lia.
      * intros [->|(x & [<-|Hx] & Vx)]; apply N.
        -- left. reflexivity.
        -- left. rewrite V in Vx. injection Vx as ->. apply add_NaN_r.
        -- right. eauto.
    + destruct (IH T c Hc ltac:(lia)) as (T' & E & N). exists T'. split; [exact E|].
      intros [->|(x & [<-|Hx] & Vx)]; apply N.
      * left. reflexivity.
      * rewrite V in Vx. discriminate Vx.
      * right. eauto.
Qed.

(** A NaN among the values makes the average NaN; without any value the
    average is 0. *)
Lemma loop_NaN {A : Type} (value : A -> option number) l x :
  is_array l -> In x l -> value x = Some NaN ->
  let '(total, count) := fold_left (accumulate value) l (of_Z 0, of_Z 0) in
  parseFloat (if gt count (of_Z 0) then toFixed1 (div total count) else "0"%string) = NaN.
Proof.
  intros Ha Hx V. unfold is_array in Ha.
  assert (P : (2 ^ 32 < 2 ^ 53)%Z) by reflexivity.
  rewrite of_Z_0.
  destruct (fold_count_NaN value l (Num (inject_Z 0)) 0) as (T' & E & N); [lia | lia |].
  rewrite E, (N (or_intror (ex_intro _ x (conj Hx V)))).
  assert (C := keep_some_In value _ x NaN Hx V).
  rewrite <- of_Z_0, gt_Z.
  destruct (Z.ltb_spec 0 (0 + Z.of_nat (List.length (keep_some value l)))) as [_|L];
    [reflexivity | lia].
Qed.

Lemma loop_zero {A : Type} (value : A -> option number) l :
  is_array l -> (forall x, In x l -> value x = None) ->
  let '(total, count) := fold_left (accumulate value) l (of_Z 0, of_Z 0) in
  parseFloat (if gt count (of_Z 0) then toFixed1 (div total count) else "0"%string) = Num 0.
Proof.
  intros Ha Hn. unfold is_array in Ha.
  assert (P : (2 ^ 32 < 2 ^ 53)%Z) by reflexivity.
  rewrite of_Z_0.
  destruct (fold_count_NaN value l (Num (inject_Z 0)) 0) as (T' & E & _); [lia | lia |].
  rewrite E, (keep_some_none value l Hn). reflexivity.
Qed.

(** ** The fields of the metrics *)

Lemma deployment_frequency_value issues : is_array issues ->
  deploymentFrequency (calculateDORAMetrics issues)
  = round (round1 (inject_Z (Z.of_nat (List.length (List.filter released issues))) / 4)).
Proof.
  intros Ha. rewrite deploymentFrequency_eq.
  change (releasedIssues issues) with (List.filter released issues).
  assert (Hf := is_array_filter released issues Ha).
  rewrite array_length_exact by exact Hf. unfold is_array in Hf.
  set (n := Z.of_nat (List.length (List.filter released issues))) in *.
  assert (N0 : (0 <= n)%Z) by (unfold n; lia).
  assert (P : (2 ^ 32 < 2 ^ 53)%Z) by reflexivity.
  rewrite (of_Z_small 4) by reflexivity. rewrite div_Z by discriminate.
  assert (Q0 : 0 <= inject_Z n) by (rewrite <- (Zle_Qle 0); exact N0).
  assert (Q1 : inject_Z n < pow2 32) by (apply inject_Z_lt_pow2; lia).
  assert (E4 : inject_Z n / inject_Z 4 == inject_Z n * (1 # 4)) by reflexivity.
  rewrite (round_dyadic n (-2)); [|lia|lia|exact E4].
  assert (P32 : pow2 32 <= pow2 65) by (apply pow2_le; lia).
  assert (P21 := pow10_21). assert (P65 : pow2 65 < pow2 66) by (apply pow2_lt; lia).
  rewrite parseFloat_toFixed1.
  - unfold round1. apply round_proper.
    assert (F : Qfloor (Qred (inject_Z n / inject_Z 4) * 10 + (1 # 2))
                = Qfloor (inject_Z n / 4 * 10 + (1 # 2))).
    { apply Qfloor_comp. rewrite Qred_correct. reflexivity. }
    rewrite F. reflexivity.
  - rewrite Qred_correct, E4. lra.
  - rewrite Qred_correct, E4. lra.
Qed.

Lemma In_releasedIssues issues i :
  In i (releasedIssues issues)
  <-> In i issues /\ status_released i = true /\ resolutiondate (fields i) <> None.
Proof.
  unfold releasedIssues, status_released. rewrite List.filter_In, andb_true_iff.
  destruct (resolutiondate (fields i)); cbn [is_set]; intuition congruence.
Qed.

Lemma In_releasedBugs issues b :
  In b (releasedBugs issues)
  <-> In b issues /\ is_bug b = true /\ status_released b = true.
Proof.
  rewrite releasedBugs_filter, List.filter_In, andb_true_iff. tauto.
Qed.

Lemma two_bugs_rate : changeFailureRate (calculateDORAMetrics two_bugs) = Num 200.
Proof. vm_compute. reflexivity. Qed.

Lemma points_whole i p : whole_points i p -> points i = Num (inject_Z p).
Proof.
  unfold whole_points, points. destruct (customfield_10024 (fields i)) as [x|].
  - intros ->. cbn [truthy]. rewrite is_zero_Z.
    destruct (Z.eqb_spec p 0) as [->|_]; reflexivity.
  - intros ->. reflexivity.
Qed.

Lemma fold_left_snoc {A B : Type} (f : A -> B -> A) l b a :
  fold_left f (l ++ [b]) a = f (fold_left f l a) b.
Proof. rewrite List.fold_left_app. reflexivity. Qed.

Lemma velocity_whole issues : forall ps a,
  Forall2 whole_points issues ps -> (Z.abs a + sumZ (map Z.abs ps) < 2 ^ 53)%Z ->
  fold_left (fun sum issue => add sum (points issue)) issues (Num (inject_Z a))
  = Num (inject_Z (a + sumZ ps)).
Proof.
  induction issues as [|i issues IH]; intros ps a H Hs; inversion H as [|? p ? ps' Hp Hps]; subst.
  - cbn. rewrite Z.add_0_r. reflexivity.
  - cbn [fold_left]. rewrite (points_whole i p Hp).
    assert (N : (0 <= sumZ (map Z.abs ps'))%Z).
    { clear. induction ps' as [|q ps' IH]; cbn; [lia|]. fold (sumZ (map Z.abs ps')). lia. }
    cbn [map] in Hs. rewrite sumZ_cons in Hs.
    rewrite add_Z by lia. rewrite (IH ps' (a + p)%Z Hps) by lia.
    rewrite sumZ_cons. do 2 f_equal. lia.
Qed.

(** The deployment frequency and the change-failure rate are finite and not
    negative. *)
Lemma deployment_frequency_finite issues : is_array issues ->
  finite_nonneg (deploymentFrequency (calculateDORAMetrics issues)).
Proof.
  intros Ha. assert (Hr := is_array_filter released issues Ha).
  assert (P32 : pow2 32 <= pow2 65) by (apply pow2_le; lia).
  rewrite deployment_frequency_value by exact Ha. unfold round1.
  unfold is_array in Hr.
  set (n := Z.of_nat (List.length (List.filter released issues))) in *.
  assert (N0 : 0 <= inject_Z n) by (rewrite <- (Zle_Qle 0); unfold n; lia).
  assert (N1 : inject_Z n < pow2 32) by (apply inject_Z_lt_pow2; lia).
  assert (E4 : inject_Z n / 4 == inject_Z n * (1 # 4)) by reflexivity.
  set (x := inject_Z n / 4) in *.
  destruct (floor_bounds (x * 10 + (1 # 2))) as [F1 F2].
  assert (F0 : (0 <= Qfloor (x * 10 + (1 # 2)))%Z).
  { rewrite <- (Qfloor_Z 0). apply Qfloor_resp_le. change (inject_Z 0) with 0.
    clear - N0 E4. lra. }
  set (k := Qfloor (x * 10 + (1 # 2))) in *.
  assert (K0 : 0 <= inject_Z k) by (rewrite <- (Zle_Qle 0); exact F0).
  assert (E10 : inject_Z k / 10 == inject_Z k * (1 # 10)) by reflexivity.
  assert (P1 : 1 <= pow2 32) by (apply Qle_bool_iff; reflexivity).
  destruct (round_bounded 65 (inject_Z k / 10)) as (r & R & R0 & R1).
  { rewrite E10. lra. } { rewrite E10. lra. } { lia. }
  rewrite R. exact R0.
Qed.

Lemma change_failure_rate_finite issues : is_array issues ->
  finite_nonneg (changeFailureRate (calculateDORAMetrics issues)).
Proof.
  intros Ha. assert (Hr := is_array_filter released issues Ha).
  assert (Hb : is_array (releasedBugs issues)).
  { rewrite releasedBugs_filter. apply is_array_filter. exact Ha. }
  rewrite changeFailureRate_eq. rewrite !array_length_exact by assumption.
  change (releasedIssues issues) with (List.filter released issues).
  unfold is_array in Hr, Hb.
  set (ri := Z.of_nat (List.length (List.filter released issues))) in *.
  set (rb := Z.of_nat (List.length (releasedBugs issues))) in *.
  rewrite gt_Z. destruct (Z.ltb_spec 0 ri) as [P|N]; [|apply finite_nonneg_0].
  rewrite div_Z by lia.
  assert (B0 : 0 <= inject_Z rb) by (rewrite <- (Zle_Qle 0); unfold rb; lia).
  assert (B1 : inject_Z rb <= pow2 32) by (apply inject_Z_le_pow2; lia).
  assert (I1 : 1 <= inject_Z ri) by (rewrite <- (Zle_Qle 1); lia).
  assert (Q : 0 <= inject_Z rb / inject_Z ri <= inject_Z rb).
  { split; [apply Qle_shift_div_l; lra|]. apply Qle_shift_div_r; [lra|].
    destruct (Qeq_dec (inject_Z rb) 0) as [Z0|NZ]; [rewrite Z0; lra|].
    assert (X : inject_Z rb * 1 <= inject_Z rb * inject_Z ri).
    { apply Qmult_le_l; [|exact I1]. destruct (Qlt_le_dec 0 (inject_Z rb)) as [G|G];
        [exact G|]. exfalso. apply NZ. apply Qle_antisym; assumption. }
    lra. }
  destruct (round_bounded 32 (inject_Z rb / inject_Z ri)) as (r1 & R1 & R10 & R11);
    [lra | lra | lia |].
  rewrite R1, (of_Z_small 100) by reflexivity. cbn [mul].
  assert (E39 : pow2 32 * inject_Z 100 <= pow2 39) by (apply Qle_bool_iff; reflexivity).
  assert (M : r1 * inject_Z 100 <= pow2 32 * inject_Z 100).
  { apply Qmult_le_r; [reflexivity | exact R11]. }
  assert (M0 : 0 <= r1 * inject_Z 100).
  { apply Qmult_le_0_compat; [exact R10 | discriminate]. }
  destruct (round_bounded 39 (r1 * inject_Z 100)) as (r2 & R2 & R20 & R21);
    [lra | lra | lia |].
  rewrite R2. assert (P39 : pow2 39 <= pow2 65) by (apply pow2_le; lia).
  destruct (tenths_finite r2) as (n & E & _ & F); [split; lra|]. rewrite E. exact F.
Qed.

(** ** The handlers *)

(** *** Fetching *)

Lemma matrix_fetch_data env tracker jql fields w data :
  reply_data (tracker w (search_request env jql fields)) = Some data ->
  HealthMatrix.fetchJiraIssues env tracker jql fields w
  = (Returned data, w ++ [search_request env jql fields]).
Proof.
  unfold reply_data, HealthMatrix.fetchJiraIssues, bind, fetch. intros H.
  destruct (tracker w _) as [response|e]; [|discriminate].
  destruct (Fetch.ok response); [|discriminate]. cbn [negb]. unfold lift.
  destruct (Fetch.json response) as [d|e]; [|discriminate].
  injection H as ->. reflexivity.
Qed.

Lemma matrix_fetch_none env tracker jql fields w :
  reply_data (tracker w (search_request env jql fields)) = None ->
  exists message, HealthMatrix.fetchJiraIssues env tracker jql fields w
                  = (Thrown message, w ++ [search_request env jql fields]).
Proof.
  unfold reply_data, HealthMatrix.fetchJiraIssues, bind, fetch. intros H.
  destruct (tracker w _) as [response|e]; [|eauto].
  destruct (Fetch.ok response); cbn [negb]; [|unfold throw; eauto]. unfold lift.
  destruct (Fetch.json response) as [d|e]; [discriminate | eauto].
Qed.

Lemma dora_fetch_data env tracker jql fields w data :
  reply_data (tracker w (search_request env jql fields)) = Some data ->
  Dora.fetchJiraIssues env tracker jql fields w
  = (Returned data, w ++ [search_request env jql fields]).
Proof.
  unfold reply_data, Dora.fetchJiraIssues, bind, fetch. intros H.
  destruct (tracker w _) as [response|e]; [|discriminate].
  destruct (Fetch.ok response); [|discriminate]. cbn [negb]. unfold lift.
  destruct (Fetch.json response) as [d|e]; [|discriminate].
  injection H as ->. reflexivity.
Qed.

Lemma dora_fetch_none env tracker jql fields w :
  reply_data (tracker w (search_request env jql fields)) = None ->
  exists message, Dora.fetchJiraIssues env tracker jql fields w
                  = (Thrown message, w ++ [search_request env jql fields]).
Proof.
  unfold reply_data, Dora.fetchJiraIssues, bind, fetch. intros H.
  destruct (tracker w _) as [response|e]; [|eauto].
  destruct (Fetch.ok response); cbn [negb]; [|unfold throw; eauto]. unfold lift.
  destruct (Fetch.json response) as [d|e]; [discriminate | eauto].
Qed.

(** *** The loop over the projects *)

Lemma for_projects_all env tracker ps : forall ds m w,
  Forall2 (fun reply d => reply_data reply = Some d)
          (replies tracker w (map (matrix_request env) ps)) ds ->
  HealthMatrix.for_projects env tracker ps m w
  = (Returned (matrix_after ps ds m), w ++ map (matrix_request env) ps).
Proof.
  induction ps as [|p ps IH]; intros ds m w H.
  - cbn. rewrite List.app_nil_r. reflexivity.
  - cbn [map replies] in H. inversion H as [|reply d rs ds' Hd Hrest]; subst.
    cbn [HealthMatrix.for_projects]. unfold bind.
    unfold matrix_request in Hd at 1. rewrite (matrix_fetch_data _ _ _ _ _ _ Hd).
    fold (matrix_request env p). rewrite (IH ds' _ _ Hrest).
    cbn [matrix_after map]. rewrite <- List.app_assoc. reflexivity.
Qed.

Lemma for_projects_some_fails env tracker ps : forall m w,
  Exists (fun reply => reply_data reply = None)
         (replies tracker w (map (matrix_request env) ps)) ->
  exists message w', HealthMatrix.for_projects env tracker ps m w = (Thrown message, w').
Proof.
  induction ps as [|p ps IH]; intros m w H.
  - cbn in H. inversion H.
  - cbn [map replies] in H. cbn [HealthMatrix.for_projects]. unfold bind.
    destruct (reply_data (tracker w (matrix_request env p))) as [d|] eqn:R.
    + assert (R' := R). unfold matrix_request in R' at 1.
      rewrite (matrix_fetch_data _ _ _ _ _ _ R').
      fold (matrix_request env p). apply IH.
      inversion H as [? ? H1|? ? H1]; subst; [congruence | exact H1].
    + unfold matrix_request in R at 1.
      destruct (matrix_fetch_none _ _ _ _ _ R) as (message & E). rewrite E. eauto.
Qed.

Lemma matrix_after_keys ps : forall ds m p,
  List.length ds = List.length ps -> In p ps -> is_Some (matrix_after ps ds m !! p).
Proof.
  assert (Keep : forall qs ds (m : gmap string Metrics) p,
             is_Some (m !! p) -> is_Some (matrix_after qs ds m !! p)).
  { clear. intros qs. induction qs as [|q qs IH]; intros ds m p H; [exact H|].
    destruct ds as [|d ds]; [exact H|]. cbn [matrix_after]. apply IH.
    destruct (decide (q = p)) as [->|NE].
    - rewrite lookup_insert_eq. eauto.
    - rewrite lookup_insert_ne by exact NE. exact H. }
  induction ps as [|q ps IH]; intros ds m p L H; [destruct H|].
  destruct ds as [|d ds]; [discriminate L|]. cbn [matrix_after].
  destruct H as [->|H].
  - apply Keep. rewrite lookup_insert_eq. eauto.
  - apply IH; [cbn in L; lia | exact H].
Qed.

(** The last data fetched for a project is the one the matrix keeps. *)
Lemma matrix_after_lookup ps : forall ds m k p d,
  NoDup ps -> ps !! k = Some p -> ds !! k = Some d ->
  matrix_after ps ds m !! p = Some (calculateDORAMetrics (issues d)).
Proof.
  assert (Keep : forall qs ds (m : gmap string Metrics) p,
             ~ In p qs -> matrix_after qs ds m !! p = m !! p).
  { clear. intros qs. induction qs as [|q qs IH]; intros ds m p H; [reflexivity|].
    destruct ds as [|d ds]; [reflexivity|]. cbn [matrix_after].
    rewrite IH by (intros X; apply H; right; exact X).
    apply lookup_insert_ne. intros ->. apply H. left. reflexivity. }
  induction ps as [|q ps IH]; intros ds m k p d N Hp Hd; [discriminate Hp|].
  destruct ds as [|d0 ds]; [discriminate Hd|]. cbn [matrix_after].
  apply NoDup_cons in N as [N1 N2].
  destruct k as [|k].
  - cbn in Hp, Hd. injection Hp as ->. injection Hd as ->.
    rewrite Keep; [apply lookup_insert_eq|].
    intros X. apply N1. apply list_elem_of_In. exact X.
  - cbn in Hp, Hd. apply (IH ds _ k p d N2 Hp Hd).
Qed.

(** *** The single-project handler *)

Lemma build_jql_clauses project startDate endDate :
  Dora.build_jql project startDate endDate
  = ("project = " ++ project ++ date_clause ">=" startDate ++ date_clause "<=" endDate)%string.
Proof.
  unfold Dora.build_jql, date_clause, present.
  assert (R : forall s, (s ++ EmptyString)%string = s).
  { induction s as [|c s IH]; [reflexivity|].
    change (String c (s ++ EmptyString)%string = String c s). rewrite IH. reflexivity. }
  destruct startDate as [s|], endDate as [e|]; cbn [interpolate negb];
    try destruct (String.eqb s EmptyString); try destruct (String.eqb e EmptyString);
    cbn [negb]; rewrite ?R, ?append_assoc; reflexivity.
Qed.

Lemma dora_GET_data env tracker params w data :
  let project := or_else (Dora.get_project params) "DAI" in
  let request :=
    search_request env (Dora.build_jql project (Dora.get_startDate params)
                                       (Dora.get_endDate params)) Dora.fields in
  reply_data (tracker w request) = Some data ->
  Dora.GET env tracker params w
  = (Returned (json_response
                 (Dora.Success project (total data) (calculateDORAMetrics (issues data)))),
     w ++ [request]).
Proof.
  intros project request H. unfold Dora.GET, try_catch, bind.
  fold project. fold request. unfold request in H |- *.
  rewrite (dora_fetch_data _ _ _ _ _ _ H). reflexivity.
Qed.

Lemma dora_GET_none env tracker params w :
  let project := or_else (Dora.get_project params) "DAI" in
  let request :=
    search_request env (Dora.build_jql project (Dora.get_startDate params)
                                       (Dora.get_endDate params)) Dora.fields in
  reply_data (tracker w request) = None ->
  exists details,
    Dora.GET env tracker params w
    = (Returned (json_response_with (Dora.Failure "Failed to fetch DORA metrics" details) 500),
       w ++ [request]).
Proof.
  intros project request H. unfold Dora.GET, try_catch, bind.
  fold project. fold request. unfold request in H |- *.
  destruct (dora_fetch_none _ _ _ _ _ H) as (message & E). rewrite E.
  exists message. reflexivity.
Qed.

(** ** The claims *)

Ltac iso_times_tac :=
  unfold iso_times; repeat (apply List.Forall_cons || apply List.Forall_nil);
  unfold iso_time; vm_compute; split; discriminate.

Ltac valid_dates_tac :=
  unfold valid_dates; repeat (apply List.Forall_cons || apply List.Forall_nil);
  vm_compute; repeat (apply List.Forall_cons || apply List.Forall_nil); discriminate.

Ltac invalid_date_tac :=
  unfold invalid_date; apply List.Exists_cons_hd; cbv beta;
  apply List.Exists_cons_tl, List.Exists_cons_hd; unfold valid_time;
  vm_compute; intros H; apply H; reflexivity.

(** C1: the change-failure rate that the code computes is not the rate of
    the claim.  On two bugs with the status [Released], of which only the
    first has a resolution date, the code counts both bugs over the one
    released issue and returns 200, where the claimed rate, the released
    bugs over the released issues, is 100. *)
Theorem change_failure_rate_counts_unresolved_bugs :
  changeFailureRate (calculateDORAMetrics two_bugs) = Num 200
  /\ claimed_failure_rate two_bugs = Num 100.
Proof. split; vm_compute; reflexivity. Qed.

(** C2: [releasedBugs], the numerator of the change-failure rate and the
    list that the recovery loop runs over, holds the bugs with the status
    [Released] whether or not they have a resolution date, while
    [releasedIssues], the denominator, holds only issues that have one; on
    [two_bugs] the rate is 200, above 100. *)
Theorem released_bugs_ignore_resolution_date :
  (forall issues b,
     In b (releasedBugs issues)
     <-> In b issues /\ is_bug b = true /\ status_released b = true)
  /\ (forall issues i,
        In i (releasedIssues issues)
        <-> In i issues /\ status_released i = true /\ resolutiondate (fields i) <> None)
  /\ (forall issues,
        changeFailureRate (calculateDORAMetrics issues)
        = parseFloat
            (if gt (array_length (releasedIssues issues)) (of_Z 0)
             then toFixed1 (mul (div (array_length (releasedBugs issues))
                                     (array_length (releasedIssues issues)))
                                (of_Z 100))
             else "0"%string))
  /\ (forall issues,
        recoveryTime (calculateDORAMetrics issues)
        = let '(total, count) :=
            fold_left recovery_step (releasedBugs issues) (of_Z 0, of_Z 0) in
          parseFloat (if gt count (of_Z 0) then toFixed1 (div total count) else "0"%string))
  /\ changeFailureRate (calculateDORAMetrics two_bugs) = Num 200
  /\ gt (changeFailureRate (calculateDORAMetrics two_bugs)) (of_Z 100) = true.
Proof.
  split; [exact In_releasedBugs|]. split; [exact In_releasedIssues|].
  split; [exact changeFailureRate_eq|]. split; [exact recoveryTime_eq|].
  split; vm_compute; reflexivity.
Qed.

Lemma released_bugs_ignore_resolution_date_witness :
  In (make_issue "Released" "Bug" (Some (day 0)) None None None) (releasedBugs two_bugs)
  /\ ~ In (make_issue "Released" "Bug" (Some (day 0)) None None None) (releasedIssues two_bugs).
Proof.
  split.
  - apply (proj1 released_bugs_ignore_resolution_date). split; [right; left; reflexivity|].
    split; reflexivity.
  - intros H. apply (proj1 (proj2 released_bugs_ignore_resolution_date)) in H.
    destruct H as (_ & _ & H). apply H. reflexivity.
Defined.

(** C3: the lead time.  For timestamps with a four-digit year and at most
    2^20 issues, [leadTime] is 0 when no released issue has a change of the
    status to [In Development], and otherwise a decimal with one place
    nearest to the exact mean of the lead times, where the lead time of a
    released issue is the ceiling, in days, of the absolute difference
    between its resolution date and the time of the first history of its
    changelog, in the given order, that has an item of the field [status]
    going to [In Development]; issues without such a history do not count.
    On [lead_scenario] the lead time is 8. *)
Theorem lead_time_spec :
  (forall issues,
     iso_times issues -> (Z.of_nat (List.length issues) <= 2 ^ 20)%Z ->
     (lead_times issues = [] -> leadTime (calculateDORAMetrics issues) = Num 0)
     /\ (lead_times issues <> [] ->
         exists n, leadTime (calculateDORAMetrics issues) = round (inject_Z n / 10)
                   /\ nearest_tenth n (mean (lead_times issues))))
  /\ (forall statusName before h after,
        Forall (fun h' => transition_to statusName h' = false) before ->
        transition_to statusName h = true ->
        findStatusChangeTime (Some {| histories := Some (before ++ h :: after) |}) statusName
        = Some (new_Date (History.created h)))
  /\ (forall statusName hs,
        Forall (fun h' => transition_to statusName h' = false) hs ->
        findStatusChangeTime (Some {| histories := Some hs |}) statusName = None)
  /\ (forall t1 t2,
        (0 <= days_between t1 t2)%Z
        /\ (Z.abs (t2 - t1) <= days_between t1 t2 * ms_per_day
            < Z.abs (t2 - t1) + ms_per_day)%Z)
  /\ leadTime (calculateDORAMetrics lead_scenario) = Num 8.
Proof.
  split; [|split; [|split; [|split]]].
  - intros issues Ht Hl. rewrite leadTime_eq.
    destruct (lead_loop issues Ht Hl) as [E [S0 S1]]. rewrite E.
    assert (Ln := keep_some_length lead_days (List.filter released issues)).
    assert (Lf := filter_length_le released issues). fold (lead_times issues) in Ln.
    assert (P : (20 * 2 ^ 42 < 2 ^ 53)%Z) by reflexivity.
    assert (P' : (2 ^ 20 < 2 ^ 53)%Z) by reflexivity.
    apply (average_spec (lead_times issues)); lia.
  - intros s before h after Hb Hh. cbn [findStatusChangeTime histories].
    rewrite scan_histories_find.
    induction Hb as [|h' before Hh' Hb IH]; cbn [List.app List.find].
    + rewrite Hh. reflexivity.
    + rewrite Hh'. exact IH.
  - intros s hs Hb. cbn [findStatusChangeTime histories]. rewrite scan_histories_find.
    induction Hb as [|h' hs Hh' Hb IH]; cbn [List.find]; [reflexivity|].
    rewrite Hh'. exact IH.
  - exact days_between_bounds.
  - vm_compute. reflexivity.
Qed.

Lemma lead_time_spec_witness :
  iso_times lead_scenario /\ (Z.of_nat (List.length lead_scenario) <= 2 ^ 20)%Z
  /\ exists n, leadTime (calculateDORAMetrics lead_scenario) = round (inject_Z n / 10)
               /\ nearest_tenth n (mean (lead_times lead_scenario)).
Proof.
  assert (H1 : iso_times lead_scenario) by iso_times_tac.
  assert (H2 : (Z.of_nat (List.length lead_scenario) <= 2 ^ 20)%Z) by (vm_compute; discriminate).
  split; [exact H1|]. split; [exact H2|].
  apply (proj2 (proj1 lead_time_spec lead_scenario H1 H2)). vm_compute. discriminate.
Defined.

(** C4: the recovery time.  For timestamps with a four-digit year and at most
    2^20 issues, [recoveryTime] is 0 when no released bug has both a creation
    and a resolution date, and otherwise a decimal with one place nearest to
    the exact mean of the recovery times, where the recovery time of such a
    bug, in hours, is 24 times the ceiling in days of the absolute difference
    between its resolution and its creation. *)
Theorem recovery_time_spec :
  (forall issues,
     iso_times issues -> (Z.of_nat (List.length issues) <= 2 ^ 20)%Z ->
     (recovery_times issues = [] -> recoveryTime (calculateDORAMetrics issues) = Num 0)
     /\ (recovery_times issues <> [] ->
         exists n, recoveryTime (calculateDORAMetrics issues) = round (inject_Z n / 10)
                   /\ nearest_tenth n (mean (recovery_times issues))))
  /\ (forall bug t0 t1,
        created (fields bug) = Some t0 -> resolutiondate (fields bug) = Some t1 ->
        iso_time t0 -> iso_time t1 ->
        recovery_value bug = Some (Num (inject_Z (days_between t0 t1 * 24))))
  /\ (forall st bug, recovery_step st bug = accumulate recovery_value st bug)
  /\ (forall t1 t2,
        (0 <= days_between t1 t2)%Z
        /\ (Z.abs (t2 - t1) <= days_between t1 t2 * ms_per_day
            < Z.abs (t2 - t1) + ms_per_day)%Z).
Proof.
  split; [|split; [|split]].
  - intros issues Ht Hl. rewrite recoveryTime_eq.
    destruct (recovery_loop issues Ht Hl) as [E [S0 S1]]. rewrite E.
    assert (Ln := keep_some_length recovery_hours
                    (List.filter (fun i => is_bug i && released i) issues)).
    assert (Lf := filter_length_le (fun i => is_bug i && released i) issues).
    fold (recovery_times issues) in Ln.
    assert (P : (20 * 2 ^ 47 < 2 ^ 53)%Z) by reflexivity.
    assert (P' : (2 ^ 20 < 2 ^ 53)%Z) by reflexivity.
    apply (average_spec (recovery_times issues)); lia.
  - intros bug t0 t1 C R I0 I1. unfold recovery_value. rewrite C, R.
    cbn [is_set andb new_Date_field]. rewrite days_exact by assumption.
    assert (D := days_between_iso t0 t1 I0 I1).
    assert (P : (2 ^ 22 * 24 < 2 ^ 53)%Z) by reflexivity.
    rewrite (of_Z_small 24) by reflexivity. rewrite mul_Z by lia. reflexivity.
  - exact recovery_step_accumulate.
  - exact days_between_bounds.
Qed.

Lemma recovery_time_spec_witness :
  iso_times two_bugs /\ (Z.of_nat (List.length two_bugs) <= 2 ^ 20)%Z
  /\ exists n, recoveryTime (calculateDORAMetrics two_bugs) = round (inject_Z n / 10)
               /\ nearest_tenth n (mean (recovery_times two_bugs)).
Proof.
  assert (H1 : iso_times two_bugs) by iso_times_tac.
  assert (H2 : (Z.of_nat (List.length two_bugs) <= 2 ^ 20)%Z) by (vm_compute; discriminate).
  split; [exact H1|]. split; [exact H2|].
  apply (proj2 (proj1 recovery_time_spec two_bugs H1 H2)). vm_compute. discriminate.
Defined.

(** C5: the deployment frequency is the number of released issues, those
    with the status [Released] and a resolution date, divided by 4 and
    rounded to one decimal, whatever the dates of the query: the
    single-project handler returns this value for every [startDate] and
    [endDate]. *)
Theorem deployment_frequency_spec :
  (forall issues, is_array issues ->
     deploymentFrequency (calculateDORAMetrics issues)
     = round (round1 (inject_Z (Z.of_nat (List.length (List.filter released issues))) / 4)))
  /\ (forall env tracker params w data,
        let project := or_else (Dora.get_project params) "DAI" in
        let request :=
          search_request env
            (Dora.build_jql project (Dora.get_startDate params) (Dora.get_endDate params))
            Dora.fields in
        reply_data (tracker w request) = Some data -> is_array (issues data) ->
        exists metrics,
          fst (Dora.GET env tracker params w)
          = Returned (json_response (Dora.Success project (total data) metrics))
          /\ deploymentFrequency metrics
             = round (round1 (inject_Z (Z.of_nat (List.length
                                          (List.filter released (issues data)))) / 4))).
Proof.
  split; [exact deployment_frequency_value|].
  intros env tracker params w data project request H Ha.
  exists (calculateDORAMetrics (issues data)). split.
  - unfold project, request in *. rewrite (dora_GET_data _ _ _ _ _ H). reflexivity.
  - apply deployment_frequency_value. exact Ha.
Qed.

Lemma deployment_frequency_spec_witness :
  is_array lead_scenario
  /\ deploymentFrequency (calculateDORAMetrics lead_scenario)
     = round (round1 (inject_Z (Z.of_nat (List.length (List.filter released lead_scenario))) / 4)).
Proof.
  assert (H : is_array lead_scenario) by (vm_compute; reflexivity).
  split; [exact H|]. apply (proj1 deployment_frequency_spec lead_scenario H).
Defined.

(** C6: the velocity is the sum, from left to right, of the story points of
    all the issues, released or not, an absent (or zero) field counting 0;
    it is 0 on the empty list, and when the story points are whole numbers
    whose absolute values sum to less than 2^53 it is their exact sum. *)
Theorem velocity_spec :
  velocity (calculateDORAMetrics []) = Num 0
  /\ (forall issues i,
        velocity (calculateDORAMetrics (issues ++ [i]))
        = add (velocity (calculateDORAMetrics issues)) (points i))
  /\ (forall i, customfield_10024 (fields i) = None -> points i = Num 0)
  /\ (forall issues ps,
        Forall2 whole_points issues ps -> (sumZ (map Z.abs ps) < 2 ^ 53)%Z ->
        velocity (calculateDORAMetrics issues) = Num (inject_Z (sumZ ps))).
Proof.
  split; [reflexivity|]. split; [|split].
  - intros issues i. rewrite !velocity_eq.
    exact (fold_left_snoc (fun sum issue => add sum (points issue)) issues i (of_Z 0)).
  - intros i H. unfold points. rewrite H. reflexivity.
  - intros issues ps H Hs. rewrite velocity_eq. rewrite of_Z_0.
    rewrite (velocity_whole issues ps 0 H) by (cbn; lia). reflexivity.
Qed.

Lemma velocity_spec_witness :
  Forall2 whole_points
    [make_issue "Released" "Story" None None (Some (Num (inject_Z 5))) None;
     make_issue "To Do" "Bug" None None None None;
     make_issue "In Development" "Task" None None (Some (Num (inject_Z 3))) None]
    [5; 0; 3]%Z
  /\ velocity (calculateDORAMetrics
       [make_issue "Released" "Story" None None (Some (Num (inject_Z 5))) None;
        make_issue "To Do" "Bug" None None None None;
        make_issue "In Development" "Task" None None (Some (Num (inject_Z 3))) None])
     = Num (inject_Z 8).
Proof.
  assert (H : Forall2 whole_points
    [make_issue "Released" "Story" None None (Some (Num (inject_Z 5))) None;
     make_issue "To Do" "Bug" None None None None;
     make_issue "In Development" "Task" None None (Some (Num (inject_Z 3))) None]
    [5; 0; 3]%Z).
  { repeat constructor. }
  split; [exact H|].
  apply (proj2 (proj2 (proj2 velocity_spec)) _ [5; 0; 3]%Z H). vm_compute. reflexivity.
Defined.

(** C10: for every array of issues the deployment frequency and the
    change-failure rate are finite numbers, not negative and not NaN.  So
    are the lead time and the recovery time when the dates that they are
    computed from are valid dates; a date among them that is not valid makes
    them NaN.  The lead time, the change-failure rate and the recovery time
    are 0 when their count is zero: no released issue with a change to
    [In Development], no released issue, no bug with the status [Released]
    and both dates. *)
Theorem metrics_finite_on_valid_dates issues :
  is_array issues ->
  finite_nonneg (deploymentFrequency (calculateDORAMetrics issues))
  /\ finite_nonneg (changeFailureRate (calculateDORAMetrics issues))
  /\ (valid_dates lead_dates issues ->
      finite_nonneg (leadTime (calculateDORAMetrics issues)))
  /\ (valid_dates recovery_dates issues ->
      finite_nonneg (recoveryTime (calculateDORAMetrics issues)))
  /\ (invalid_date lead_dates issues -> leadTime (calculateDORAMetrics issues) = NaN)
  /\ (invalid_date recovery_dates issues -> recoveryTime (calculateDORAMetrics issues) = NaN)
  /\ ((forall i, In i issues -> lead_dates i = []) ->
      leadTime (calculateDORAMetrics issues) = Num 0)
  /\ (List.filter released issues = [] -> changeFailureRate (calculateDORAMetrics issues) = Num 0)
  /\ ((forall i, In i issues -> recovery_dates i = []) ->
      recoveryTime (calculateDORAMetrics issues) = Num 0).
Proof.
  intros Ha.
  assert (Hr : is_array (releasedIssues issues)) by exact (is_array_filter released issues Ha).
  assert (Hb : is_array (releasedBugs issues)).
  { rewrite releasedBugs_filter. apply is_array_filter. exact Ha. }
  assert (Lr : forall x, In x (releasedIssues issues) -> In x issues /\ released x = true).
  { intros x Hx. apply List.filter_In in Hx. exact Hx. }
  assert (Lb : forall x, In x (releasedBugs issues) ->
                         In x issues /\ is_bug x && status_released x = true).
  { intros x Hx. rewrite releasedBugs_filter in Hx. apply List.filter_In in Hx. exact Hx. }
  split; [exact (deployment_frequency_finite issues Ha)|].
  split; [exact (change_failure_rate_finite issues Ha)|].
  split; [|split; [|split; [|split; [|split; [|split]]]]].
  - intros Hv. unfold valid_dates in Hv. rewrite List.Forall_forall in Hv.
    rewrite leadTime_eq, (fold_left_ext _ _ _ leadTime_step_accumulate).
    assert (L := loop_finite lead_value 1 (releasedIssues issues) ltac:(lia) Hr).
    destruct (fold_left (accumulate lead_value) (releasedIssues issues) _) as [t c].
    apply L. intros x v Hx. destruct (Lr x Hx) as [I R].
    apply (proj1 (lead_value_dates x R)). apply Hv. exact I.
  - intros Hv. unfold valid_dates in Hv. rewrite List.Forall_forall in Hv.
    rewrite recoveryTime_eq, (fold_left_ext _ _ _ recovery_step_accumulate).
    assert (L := loop_finite recovery_value 24 (releasedBugs issues) ltac:(lia) Hb).
    destruct (fold_left (accumulate recovery_value) (releasedBugs issues) _) as [t c].
    apply L. intros x v Hx. destruct (Lb x Hx) as [I R].
    apply (proj1 (recovery_value_dates x R)). apply Hv. exact I.
  - intros Hi. unfold invalid_date in Hi. apply List.Exists_exists in Hi.
    destruct Hi as (x & I & E).
    assert (R : released x = true).
    { unfold lead_dates in E. destruct (released x); [reflexivity | inversion E]. }
    rewrite leadTime_eq, (fold_left_ext _ _ _ leadTime_step_accumulate).
    assert (L := loop_NaN lead_value (releasedIssues issues) x Hr).
    destruct (fold_left (accumulate lead_value) (releasedIssues issues) _) as [t c].
    apply L; [apply List.filter_In; split; assumption|].
    apply (proj1 (proj2 (lead_value_dates x R))). exact E.
  - intros Hi. unfold invalid_date in Hi. apply List.Exists_exists in Hi.
    destruct Hi as (x & I & E).
    assert (R : is_bug x && status_released x = true).
    { unfold recovery_dates in E. destruct (is_bug x && status_released x);
        [reflexivity | inversion E]. }
    rewrite recoveryTime_eq, (fold_left_ext _ _ _ recovery_step_accumulate).
    assert (L := loop_NaN recovery_value (releasedBugs issues) x Hb).
    destruct (fold_left (accumulate recovery_value) (releasedBugs issues) _) as [t c].
    apply L; [rewrite releasedBugs_filter; apply List.filter_In; split; assumption|].
    apply (proj1 (proj2 (recovery_value_dates x R))). exact E.
  - intros Hn. rewrite leadTime_eq, (fold_left_ext _ _ _ leadTime_step_accumulate).
    assert (L := loop_zero lead_value (releasedIssues issues) Hr).
    destruct (fold_left (accumulate lead_value) (releasedIssues issues) _) as [t c].
    apply L. intros x Hx. destruct (Lr x Hx) as [I R].
    apply (proj2 (proj2 (lead_value_dates x R))). apply Hn. exact I.
  - intros Hn. rewrite changeFailureRate_eq.
    change (releasedIssues issues) with (List.filter released issues). rewrite Hn.
    reflexivity.
  - intros Hn. rewrite recoveryTime_eq, (fold_left_ext _ _ _ recovery_step_accumulate).
    assert (L := loop_zero recovery_value (releasedBugs issues) Hb).
    destruct (fold_left (accumulate recovery_value) (releasedBugs issues) _) as [t c].
    apply L. intros x Hx. destruct (Lb x Hx) as [I R].
    apply (proj2 (proj2 (recovery_value_dates x R))). apply Hn. exact I.
Qed.

(** C10 as it is stated, for every issue list, does not hold: the bug of
    [invalid_release] has a resolution date that is not a valid date, and
    the lead time and the recovery time are NaN. *)
Lemma metrics_not_finite_on_invalid_date :
  is_array invalid_release
  /\ leadTime (calculateDORAMetrics invalid_release) = NaN
  /\ recoveryTime (calculateDORAMetrics invalid_release) = NaN
  /\ ~ (forall issues, is_array issues ->
          finite_nonneg (leadTime (calculateDORAMetrics issues))
          /\ finite_nonneg (deploymentFrequency (calculateDORAMetrics issues))
          /\ finite_nonneg (changeFailureRate (calculateDORAMetrics issues))
          /\ finite_nonneg (recoveryTime (calculateDORAMetrics issues))).
Proof.
  assert (A : is_array invalid_release) by (vm_compute; reflexivity).
  assert (E : leadTime (calculateDORAMetrics invalid_release) = NaN)
    by (vm_compute; reflexivity).
  split; [exact A|]. split; [exact E|]. split; [vm_compute; reflexivity|].
  intros H. destruct (H invalid_release A) as [F _]. rewrite E in F. exact F.
Qed.

Lemma metrics_finite_on_valid_dates_witness :
  (is_array (lead_scenario ++ two_bugs)
   /\ valid_dates lead_dates (lead_scenario ++ two_bugs)
   /\ valid_dates recovery_dates (lead_scenario ++ two_bugs)
   /\ finite_nonneg (leadTime (calculateDORAMetrics (lead_scenario ++ two_bugs)))
   /\ finite_nonneg (deploymentFrequency (calculateDORAMetrics (lead_scenario ++ two_bugs)))
   /\ finite_nonneg (changeFailureRate (calculateDORAMetrics (lead_scenario ++ two_bugs)))
   /\ finite_nonneg (recoveryTime (calculateDORAMetrics (lead_scenario ++ two_bugs))))
  /\ (is_array invalid_release
      /\ invalid_date lead_dates invalid_release
      /\ invalid_date recovery_dates invalid_release
      /\ leadTime (calculateDORAMetrics invalid_release) = NaN
      /\ recoveryTime (calculateDORAMetrics invalid_release) = NaN)
  /\ (is_array [make_issue "To Do" "Bug" (Some (day 0)) (Some (day 1)) None None]
      /\ leadTime (calculateDORAMetrics
           [make_issue "To Do" "Bug" (Some (day 0)) (Some (day 1)) None None]) = Num 0
      /\ changeFailureRate (calculateDORAMetrics
           [make_issue "To Do" "Bug" (Some (day 0)) (Some (day 1)) None None]) = Num 0
      /\ recoveryTime (calculateDORAMetrics
           [make_issue "To Do" "Bug" (Some (day 0)) (Some (day 1)) None None]) = Num 0).
Proof.
  assert (A1 : is_array (lead_scenario ++ two_bugs)) by (vm_compute; reflexivity).
  assert (V1 : valid_dates lead_dates (lead_scenario ++ two_bugs)) by valid_dates_tac.
  assert (V2 : valid_dates recovery_dates (lead_scenario ++ two_bugs)) by valid_dates_tac.
  assert (A2 : is_array invalid_release) by (vm_compute; reflexivity).
  assert (I1 : invalid_date lead_dates invalid_release) by invalid_date_tac.
  assert (I2 : invalid_date recovery_dates invalid_release) by invalid_date_tac.
  assert (A3 : is_array [make_issue "To Do" "Bug" (Some (day 0)) (Some (day 1)) None None])
    by (vm_compute; reflexivity).
  destruct (metrics_finite_on_valid_dates _ A1) as (D & C & L & R & _).
  destruct (metrics_finite_on_valid_dates _ A2) as (_ & _ & _ & _ & NL & NR & _).
  destruct (metrics_finite_on_valid_dates _ A3) as (_ & _ & _ & _ & _ & _ & ZL & ZC & ZR).
  split; [|split].
  - split; [exact A1|]. split; [exact V1|]. split; [exact V2|].
    split; [exact (L V1)|]. split; [exact D|]. split; [exact C | exact (R V2)].
  - split; [exact A2|]. split; [exact I1|]. split; [exact I2|].
    split; [exact (NL I1) | exact (NR I2)].
  - split; [exact A3|]. split; [|split].
    + apply ZL. intros i [<-|[]]. reflexivity.
    + apply ZC. reflexivity.
    + apply ZR. intros i [<-|[]]. reflexivity.
Defined.

Lemma present_configured v : present v = true <-> configured v.
Proof.
  unfold present, configured. destruct v as [s|].
  - destruct (String.eqb_spec s EmptyString) as [E|NE]; cbn [negb].
    + split; [discriminate|]. intros (s' & H & N). congruence.
    + split; [eauto | reflexivity].
  - split; [discriminate|]. intros (s' & H & _). discriminate.
Qed.

Lemma projects_NoDup : NoDup HealthMatrix.projects.
Proof. apply NoDup_ListNoDup. repeat constructor; cbn; intuition discriminate. Qed.

(** C7: the health-matrix handler sends its six requests one after the
    other.  If the tracker fails on any of them, the response has the
    status 500 and the body [{ success: false, error, details }], with no
    metrics of any project; if it answers all six, the response is
    [{ success: true, data }] where [data] has each of the six project keys,
    with the metrics of the issues fetched for it. *)
Theorem health_matrix_all_or_nothing env tracker w :
  let requests := map (matrix_request env) HealthMatrix.projects in
  HealthMatrix.projects = ["DAI"; "DGDPO"; "DMM"; "DE"; "VEH"; "CAT"]%string
  /\ (Exists (fun reply => reply_data reply = None) (replies tracker w requests) ->
      exists details,
        fst (HealthMatrix.GET env tracker w)
        = Returned {| status_code := 500;
                      body := HealthMatrix.Failure "Failed to fetch health matrix" details |}
        /\ HealthMatrix.success
             (HealthMatrix.Failure "Failed to fetch health matrix" details) = false)
  /\ (forall ds,
        Forall2 (fun reply d => reply_data reply = Some d) (replies tracker w requests) ds ->
        exists data,
          HealthMatrix.GET env tracker w
          = (Returned {| status_code := 200; body := HealthMatrix.Success data |},
             w ++ requests)
          /\ (forall p, In p HealthMatrix.projects -> is_Some (data !! p))
          /\ (forall k p d,
                HealthMatrix.projects !! k = Some p -> ds !! k = Some d ->
                data !! p = Some (calculateDORAMetrics (issues d)))).
Proof.
  intros requests. split; [reflexivity|]. split.
  - intros H. unfold requests in H.
    destruct (for_projects_some_fails env tracker _ ∅ w H) as (message & w' & E).
    exists message. unfold HealthMatrix.GET, try_catch, bind. rewrite E. split; reflexivity.
  - intros ds H. unfold requests in H |- *.
    exists (matrix_after HealthMatrix.projects ds ∅).
    unfold HealthMatrix.GET, try_catch, bind.
    rewrite (for_projects_all env tracker _ ds ∅ w H). split; [reflexivity|]. split.
    + intros p Hp. apply matrix_after_keys; [|exact Hp].
      apply Forall2_length in H. rewrite <- H. clear.
      generalize w. induction HealthMatrix.projects as [|q qs IH]; intros w0; [reflexivity|].
      cbn [map replies List.length]. rewrite IH. reflexivity.
    + intros k p d Hp Hd. apply (matrix_after_lookup _ ds ∅ k p d projects_NoDup Hp Hd).
Qed.

Lemma health_matrix_all_or_nothing_witness :
  let env := {| JIRA_EMAIL := None; JIRA_API_TOKEN := None; JIRA_DOMAIN := None |} in
  let tracker : Tracker := fun _ _ => Thrown "fetch failed"%string in
  exists details,
    fst (HealthMatrix.GET env tracker [])
    = Returned {| status_code := 500;
                  body := HealthMatrix.Failure "Failed to fetch health matrix" details |}
    /\ HealthMatrix.success
         (HealthMatrix.Failure "Failed to fetch health matrix" details) = false.
Proof.
  intros env tracker.
  apply (proj1 (proj2 (health_matrix_all_or_nothing env tracker []))).
  apply List.Exists_cons_hd. reflexivity.
Defined.

(** C8: the health handler sends no request; [jiraConnected] is true exactly
    when the e-mail address and the API token are both set to a text that is
    not empty, and [domain] is [Not configured] when the domain is not
    set. *)
Theorem health_reports_configuration env w :
  exists b,
    Health.GET env w = (Returned {| status_code := 200; body := b |}, w)
    /\ Health.status b = "ok"%string
    /\ (Health.jiraConnected b = true
        <-> configured (JIRA_EMAIL env) /\ configured (JIRA_API_TOKEN env))
    /\ (JIRA_DOMAIN env = None -> Health.domain b = "Not configured"%string)
    /\ (forall d, JIRA_DOMAIN env = Some d -> d <> EmptyString -> Health.domain b = d).
Proof.
  eexists. split; [reflexivity|]. cbn [Health.status Health.jiraConnected Health.domain].
  split; [reflexivity|]. split; [|split].
  - rewrite andb_true_iff, !present_configured. reflexivity.
  - intros ->. reflexivity.
  - intros d -> N. cbn [or_else]. destruct (String.eqb_spec d EmptyString); [contradiction|].
    reflexivity.
Qed.

Lemma health_reports_configuration_witness :
  exists b,
    Health.GET {| JIRA_EMAIL := None; JIRA_API_TOKEN := None; JIRA_DOMAIN := None |} []
    = (Returned {| status_code := 200; body := b |}, [])
    /\ Health.jiraConnected b = false
    /\ Health.domain b = "Not configured"%string.
Proof.
  destruct (health_reports_configuration
              {| JIRA_EMAIL := None; JIRA_API_TOKEN := None; JIRA_DOMAIN := None |} [])
    as (b & E & _ & C & D & _).
  exists b. split; [exact E|]. split; [|apply D; reflexivity].
  destruct (Health.jiraConnected b); [|reflexivity].
  destruct (proj1 C eq_refl) as [(s & H & _) _]. discriminate H.
Defined.

(** C9: the single-project handler asks for the project [DAI] when the
    [project] parameter is missing; its query is the project filter followed
    by [created >= startDate] and [created <= endDate] for those of the two
    bounds that are given, and a successful response carries the total
    reported by the tracker beside the metrics. *)
Theorem single_project_query env tracker params w :
  let project := or_else (Dora.get_project params) "DAI" in
  let jql := ("project = " ++ project
              ++ date_clause ">=" (Dora.get_startDate params)
              ++ date_clause "<=" (Dora.get_endDate params))%string in
  let request := search_request env jql Dora.fields in
  (Dora.get_project params = None -> project = "DAI"%string)
  /\ (forall p, Dora.get_project params = Some p -> p <> EmptyString -> project = p)
  /\ snd (Dora.GET env tracker params w) = w ++ [request]
  /\ (forall data, reply_data (tracker w request) = Some data ->
        fst (Dora.GET env tracker params w)
        = Returned {| status_code := 200;
                      body := Dora.Success project (total data)
                                (calculateDORAMetrics (issues data)) |})
  /\ (forall op, date_clause op None = EmptyString)
  /\ (forall op b, b <> EmptyString ->
        date_clause op (Some b) = (" AND created " ++ op ++ " " ++ Dora.quoted b)%string).
Proof.
  intros project jql request.
  assert (J : jql = Dora.build_jql project (Dora.get_startDate params) (Dora.get_endDate params)).
  { unfold jql. rewrite build_jql_clauses. reflexivity. }
  split; [|split; [|split; [|split; [|split]]]].
  - intros H. unfold project. rewrite H. reflexivity.
  - intros p H N. unfold project. rewrite H. cbn [or_else].
    destruct (String.eqb_spec p EmptyString); [contradiction | reflexivity].
  - unfold request. rewrite J.
    destruct (reply_data (tracker w (search_request env
               (Dora.build_jql project (Dora.get_startDate params) (Dora.get_endDate params))
               Dora.fields))) as [data|] eqn:R.
    + rewrite (dora_GET_data _ _ _ _ _ R). reflexivity.
    + destruct (dora_GET_none _ _ _ _ R) as (details & E). rewrite E. reflexivity.
  - intros data R. unfold request in R. rewrite J in R.
    rewrite (dora_GET_data _ _ _ _ _ R). reflexivity.
  - reflexivity.
  - intros op b N. unfold date_clause.
    destruct (String.eqb_spec b EmptyString); [contradiction | reflexivity].
Qed.

Lemma single_project_query_witness :
  or_else (Dora.get_project
             {| Dora.get_project := None;
                Dora.get_startDate := Some "2024-01-01"%string;
                Dora.get_endDate := None |}) "DAI"
  = "DAI"%string.
Proof.
  apply (proj1 (single_project_query
                  {| JIRA_EMAIL := None; JIRA_API_TOKEN := None; JIRA_DOMAIN := None |}
                  (fun _ _ => Thrown "fetch failed"%string)
                  {| Dora.get_project := None;
                     Dora.get_startDate := Some "2024-01-01"%string;
                     Dora.get_endDate := None |} [])).
  reflexivity.
Defined.

(** * Further properties of the code *)

(** ** [calculateDaysBetween] *)

Lemma abs_sub_swap x y : abs (sub x y) = abs (sub y x).
Proof.
  destruct x as [|a|a], y as [|b|b]; try reflexivity.
  - destruct a, b; reflexivity.
  - unfold sub. cbn [neg add]. rewrite <- (abs_neg (round (b + Qred (- a)))), <- round_opp.
    f_equal. apply round_proper. rewrite !Qred_correct. ring.
Qed.

(** The days between two dates do not depend on their order, whatever the
    dates are, also invalid ones. *)
Theorem calculateDaysBetween_symmetric (date1 date2 : Date) :
  calculateDaysBetween date1 date2 = calculateDaysBetween date2 date1.
Proof. unfold calculateDaysBetween, getTime. rewrite abs_sub_swap. reflexivity. Qed.

(** Two dates of the year range that differ, by however little, are at least
    one day apart: every started day counts as a whole one.  The same instant
    gives 0. *)
Theorem calculateDaysBetween_started_day t1 t2 :
  iso_time t1 -> iso_time t2 ->
  exists k,
    calculateDaysBetween (new_Date t1) (new_Date t2) = Num (inject_Z k)
    /\ (t1 = t2 -> k = 0%Z)
    /\ (t1 <> t2 -> (1 <= k)%Z)
    /\ ((k - 1) * ms_per_day < Z.abs (t2 - t1) \/ k = 0)%Z
    /\ (Z.abs (t2 - t1) <= k * ms_per_day)%Z.
Proof.
  intros H1 H2. exists (days_between t1 t2).
  split; [apply days_exact; assumption|].
  destruct (days_between_bounds t1 t2) as [B0 [B1 B2]]. unfold ms_per_day in *.
  repeat split; [intros ->; lia | intros NE; lia | lia | exact B1].
Qed.

Lemma calculateDaysBetween_started_day_witness :
  exists k,
    calculateDaysBetween (new_Date (day 3)) (new_Date (day 3 + 1)) = Num (inject_Z k)
    /\ (1 <= k)%Z /\ (Z.abs (day 3 + 1 - day 3) <= k * ms_per_day)%Z.
Proof.
  assert (H1 : iso_time (day 3)) by (unfold iso_time; vm_compute; split; discriminate).
  assert (H2 : iso_time (day 3 + 1)) by (unfold iso_time; vm_compute; split; discriminate).
  destruct (calculateDaysBetween_started_day (day 3) (day 3 + 1) H1 H2)
    as (k & E & _ & K1 & _ & K2).
  exists k. split; [exact E|]. split; [apply K1; discriminate | exact K2].
Defined.

(** ** Issues that are not [Released] *)

Lemma releasedIssues_of_released issues :
  releasedIssues (List.filter status_released issues) = releasedIssues issues.
Proof.
  unfold releasedIssues. rewrite filter_filter. induction issues as [|i l IH]; [reflexivity|].
  cbn [List.filter]. rewrite IH. unfold status_released at 1.
  destruct (String.eqb (name (status (fields i))) "Released"); reflexivity.
Qed.

Lemma releasedBugs_of_released issues :
  releasedBugs (List.filter status_released issues) = releasedBugs issues.
Proof.
  rewrite !releasedBugs_filter, filter_filter. induction issues as [|i l IH]; [reflexivity|].
  cbn [List.filter]. rewrite IH.
  destruct (status_released i), (is_bug i); reflexivity.
Qed.

Lemma four_metrics_of_lists issues issues' :
  releasedIssues issues = releasedIssues issues' ->
  releasedBugs issues = releasedBugs issues' ->
  leadTime (calculateDORAMetrics issues) = leadTime (calculateDORAMetrics issues')
  /\ deploymentFrequency (calculateDORAMetrics issues)
     = deploymentFrequency (calculateDORAMetrics issues')
  /\ changeFailureRate (calculateDORAMetrics issues)
     = changeFailureRate (calculateDORAMetrics issues')
  /\ recoveryTime (calculateDORAMetrics issues) = recoveryTime (calculateDORAMetrics issues').
Proof.
  intros E1 E2.
  rewrite !leadTime_eq, !deploymentFrequency_eq, !changeFailureRate_eq, !recoveryTime_eq.
  rewrite E1, E2. repeat split; reflexivity.
Qed.

(** Only the issues with the status [Released] count for the lead time, the
    deployment frequency, the change-failure rate and the recovery time:
    dropping all the others changes none of the four. *)
Theorem other_statuses_do_not_count issues :
  let kept := List.filter status_released issues in
  leadTime (calculateDORAMetrics kept) = leadTime (calculateDORAMetrics issues)
  /\ deploymentFrequency (calculateDORAMetrics kept)
     = deploymentFrequency (calculateDORAMetrics issues)
  /\ changeFailureRate (calculateDORAMetrics kept)
     = changeFailureRate (calculateDORAMetrics issues)
  /\ recoveryTime (calculateDORAMetrics kept) = recoveryTime (calculateDORAMetrics issues).
Proof.
  apply four_metrics_of_lists;
    [apply releasedIssues_of_released | apply releasedBugs_of_released].
Qed.

Lemma filter_none {A : Type} (p : A -> bool) l :
  Forall (fun x => p x = false) l -> List.filter p l = [].
Proof.
  induction 1 as [|x l Hx H IH]; [reflexivity|]. cbn [List.filter]. rewrite Hx. exact IH.
Qed.

(** When no issue has the status [Released], and so on the empty list, the
    four metrics are 0, whatever else the issues hold. *)
Theorem nothing_released_all_zero issues :
  Forall (fun i => status_released i = false) issues ->
  leadTime (calculateDORAMetrics issues) = Num 0
  /\ deploymentFrequency (calculateDORAMetrics issues) = Num 0
  /\ changeFailureRate (calculateDORAMetrics issues) = Num 0
  /\ recoveryTime (calculateDORAMetrics issues) = Num 0.
Proof.
  intros H.
  assert (E1 : releasedIssues issues = releasedIssues []).
  { rewrite <- releasedIssues_of_released, (filter_none _ _ H). reflexivity. }
  assert (E2 : releasedBugs issues = releasedBugs []).
  { rewrite <- releasedBugs_of_released, (filter_none _ _ H). reflexivity. }
  destruct (four_metrics_of_lists issues [] E1 E2) as (-> & -> & -> & ->).
  repeat split; vm_compute; reflexivity.
Qed.

Lemma nothing_released_all_zero_witness :
  leadTime (calculateDORAMetrics
              [make_issue "In Development" "Bug" (Some (day 1)) (Some (day 2)) None None])
  = Num 0.
Proof.
  apply (nothing_released_all_zero
           [make_issue "In Development" "Bug" (Some (day 1)) (Some (day 2)) None None]).
  repeat constructor.
Defined.

(** ** The order of the issues *)

Lemma filter_Permutation {A : Type} (p : A -> bool) l l' :
  Permutation l l' -> Permutation (List.filter p l) (List.filter p l').
Proof.
  induction 1 as [|x l l' H IH|x y l|l l' l'' H1 IH1 H2 IH2]; cbn [List.filter].
  - apply perm_nil.
  - destruct (p x); [apply perm_skip|]; exact IH.
  - destruct (p x), (p y); try apply Permutation_refl. apply perm_swap.
  - apply (perm_trans IH1 IH2).
Qed.

Lemma keep_some_Permutation {A B : Type} (g : A -> option B) l l' :
  Permutation l l' -> Permutation (keep_some g l) (keep_some g l').
Proof.
  induction 1 as [|x l l' H IH|x y l|l l' l'' H1 IH1 H2 IH2]; cbn [keep_some].
  - apply perm_nil.
  - destruct (g x); [apply perm_skip|]; exact IH.
  - destruct (g x), (g y); try apply Permutation_refl. apply perm_swap.
  - apply (perm_trans IH1 IH2).
Qed.

Lemma sumZ_Permutation l l' : Permutation l l' -> sumZ l = sumZ l'.
Proof.
  induction 1 as [|x l l' H IH|x y l|l l' l'' H1 IH1 H2 IH2]; rewrite ?sumZ_cons; lia.
Qed.

Lemma Forall2_Permutation_l {A B : Type} (R : A -> B -> Prop) l l' :
  Permutation l l' -> forall ps, Forall2 R l ps ->
  exists ps', Forall2 R l' ps' /\ Permutation ps ps'.
Proof.
  induction 1 as [|x l l' H IH|x y l|l l' l'' H1 IH1 H2 IH2]; intros ps F.
  - inversion F; subst. exists []. split; constructor.
  - inversion F as [|? p ? ps0 Hp F0]; subst. destruct (IH ps0 F0) as (ps' & F' & P).
    exists (p :: ps'). split; [constructor; assumption | apply perm_skip; exact P].
  - inversion F as [|? p ? ps0 Hp F0]; subst. inversion F0 as [|? q ? ps1 Hq F1]; subst.
    exists (q :: p :: ps1). split; [repeat constructor; assumption | apply perm_swap].
  - destruct (IH1 ps F) as (ps1 & F1 & P1). destruct (IH2 ps1 F1) as (ps2 & F2 & P2).
    exists ps2. split; [exact F2 | apply (perm_trans P1 P2)].
Qed.

Lemma iso_times_Permutation l l' : Permutation l l' -> iso_times l -> iso_times l'.
Proof.
  unfold iso_times. rewrite !List.Forall_forall. intros P H x Hx. apply H.
  apply (Permutation_in x (Permutation_sym P) Hx).
Qed.

(** The issues may come in any order.  The deployment frequency and the
    change-failure rate depend on counts only; for timestamps of the year
    range and at most 2^20 issues the lead time and the recovery time are the
    same for every order, and so is the velocity when the story points are
    whole numbers. *)
Theorem order_of_issues_does_not_matter issues issues' :
  Permutation issues issues' ->
  deploymentFrequency (calculateDORAMetrics issues)
  = deploymentFrequency (calculateDORAMetrics issues')
  /\ changeFailureRate (calculateDORAMetrics issues)
     = changeFailureRate (calculateDORAMetrics issues')
  /\ (iso_times issues -> (Z.of_nat (List.length issues) <= 2 ^ 20)%Z ->
      leadTime (calculateDORAMetrics issues) = leadTime (calculateDORAMetrics issues')
      /\ recoveryTime (calculateDORAMetrics issues)
         = recoveryTime (calculateDORAMetrics issues'))
  /\ (forall ps, Forall2 whole_points issues ps -> (sumZ (map Z.abs ps) < 2 ^ 53)%Z ->
      velocity (calculateDORAMetrics issues) = velocity (calculateDORAMetrics issues')).
Proof.
  intros P.
  assert (L1 : List.length (releasedIssues issues) = List.length (releasedIssues issues')).
  { apply Permutation_length, filter_Permutation, P. }
  assert (L2 : List.length (releasedBugs issues) = List.length (releasedBugs issues')).
  { rewrite !releasedBugs_filter. apply Permutation_length, filter_Permutation, P. }
  split; [|split; [|split]].
  - rewrite !deploymentFrequency_eq. unfold array_length. rewrite L1. reflexivity.
  - rewrite !changeFailureRate_eq. unfold array_length. rewrite L1, L2. reflexivity.
  - intros Ht Hl.
    assert (Ht' := iso_times_Permutation _ _ P Ht).
    assert (Hl' : (Z.of_nat (List.length issues') <= 2 ^ 20)%Z).
    { rewrite <- (Permutation_length P). exact Hl. }
    rewrite !leadTime_eq, !recoveryTime_eq.
    destruct (lead_loop issues Ht Hl) as [-> _]. destruct (lead_loop issues' Ht' Hl') as [-> _].
    destruct (recovery_loop issues Ht Hl) as [-> _].
    destruct (recovery_loop issues' Ht' Hl') as [-> _].
    assert (PL : Permutation (lead_times issues) (lead_times issues')).
    { apply keep_some_Permutation, filter_Permutation, P. }
    assert (PR : Permutation (recovery_times issues) (recovery_times issues')).
    { apply keep_some_Permutation, filter_Permutation, P. }
    rewrite (sumZ_Permutation _ _ PL), (Permutation_length PL).
    rewrite (sumZ_Permutation _ _ PR), (Permutation_length PR). split; reflexivity.
  - intros ps F Hs. destruct (Forall2_Permutation_l _ _ _ P ps F) as (ps' & F' & Pp).
    rewrite !velocity_eq, of_Z_0.
    rewrite (velocity_whole issues ps 0 F) by (cbn; lia).
    assert (Pa : Permutation (map Z.abs ps) (map Z.abs ps')) by (apply Permutation_map, Pp).
    rewrite (velocity_whole issues' ps' 0 F')
      by (rewrite <- (sumZ_Permutation _ _ Pa); cbn; lia).
    rewrite (sumZ_Permutation _ _ Pp). reflexivity.
Qed.

Lemma order_of_issues_does_not_matter_witness :
  leadTime (calculateDORAMetrics two_bugs) = leadTime (calculateDORAMetrics (rev two_bugs))
  /\ recoveryTime (calculateDORAMetrics two_bugs)
     = recoveryTime (calculateDORAMetrics (rev two_bugs)).
Proof.
  apply (proj1 (proj2 (proj2 (order_of_issues_does_not_matter two_bugs (rev two_bugs)
                                (Permutation_rev two_bugs))))).
  - unfold iso_times; repeat (apply List.Forall_cons || apply List.Forall_nil);
      unfold iso_time; vm_compute; split; discriminate.
  - vm_compute. discriminate.
Defined.

(** ** The change-failure rate within 100 *)

Lemma filter_length_mono {A : Type} (p q : A -> bool) l :
  (forall x, In x l -> p x = true -> q x = true) ->
  (List.length (List.filter p l) <= List.length (List.filter q l))%nat.
Proof.
  induction l as [|x l IH]; intros H; [cbn; lia|].
  assert (IH' := IH (fun y Hy => H y (or_intror Hy))). cbn [List.filter].
  destruct (p x) eqn:Px.
  - rewrite (H x (or_introl eq_refl) Px). cbn [List.length]. lia.
  - destruct (q x); cbn [List.length]; lia.
Qed.

(** When every bug with the status [Released] has a resolution date, the
    change-failure rate of an array of issues is between 0 and 100. *)
Theorem change_failure_rate_within_100 issues :
  is_array issues ->
  (forall b, In b issues -> is_bug b = true -> status_released b = true ->
             resolutiondate (fields b) <> None) ->
  exists q, changeFailureRate (calculateDORAMetrics issues) = Num q /\ 0 <= q <= 100.
Proof.
  intros Ha Hres.
  assert (Hr := is_array_filter released issues Ha).
  assert (Hb : is_array (releasedBugs issues)).
  { rewrite releasedBugs_filter. apply is_array_filter. exact Ha. }
  assert (Le : (List.length (releasedBugs issues)
                <= List.length (List.filter released issues))%nat).
  { rewrite releasedBugs_filter. apply filter_length_mono. intros x Hx Hp.
    apply andb_prop in Hp. destruct Hp as [Bx Sx]. unfold released.
    fold (status_released x). rewrite Sx. cbn [andb].
    destruct (resolutiondate (fields x)) eqn:R; [reflexivity|].
    exfalso. apply (Hres x Hx Bx Sx). exact R. }
  rewrite changeFailureRate_eq. rewrite !array_length_exact by assumption.
  change (releasedIssues issues) with (List.filter released issues).
  unfold is_array in Hr, Hb.
  set (ri := Z.of_nat (List.length (List.filter released issues))) in *.
  set (rb := Z.of_nat (List.length (releasedBugs issues))) in *.
  assert (Lz : (rb <= ri)%Z) by (unfold rb, ri; lia).
  rewrite gt_Z. destruct (Z.ltb_spec 0 ri) as [P|N].
  2:{ exists 0. split; [reflexivity|]. split; discriminate. }
  rewrite div_Z by lia.
  assert (B0 : 0 <= inject_Z rb) by (rewrite <- (Zle_Qle 0); unfold rb; lia).
  assert (I1 : 0 < inject_Z ri) by (rewrite <- (Zlt_Qlt 0); lia).
  assert (BI : inject_Z rb <= inject_Z ri) by (rewrite <- Zle_Qle; exact Lz).
  assert (Q : 0 <= inject_Z rb / inject_Z ri <= 1).
  { split; [apply Qle_shift_div_l; lra | apply Qle_shift_div_r; lra]. }
  assert (P0 : pow2 0 == 1) by reflexivity.
  destruct (round_upper 1 0 (inject_Z rb / inject_Z ri)) as (r1 & R1 & R10 & R11).
  { tauto. }
  { change (inject_Z 1) with 1. rewrite P0. lra. }
  { apply Qle_lt_trans with 1; [tauto | reflexivity]. }
  { lia. }
  { reflexivity. }
  change (inject_Z 1) with 1 in R11. rewrite P0 in R11.
  rewrite R1, (of_Z_small 100) by reflexivity. cbn [mul].
  assert (M0 : 0 <= r1 * inject_Z 100).
  { apply Qmult_le_0_compat; [exact R10 | discriminate]. }
  assert (M1 : r1 * inject_Z 100 <= 1 * inject_Z 100).
  { apply Qmult_le_r; [reflexivity | lra]. }
  destruct (round_upper 100 0 (r1 * inject_Z 100)) as (r2 & R2 & R20 & R21).
  { exact M0. }
  { rewrite P0. lra. }
  { apply Qle_lt_trans with (1 * inject_Z 100); [exact M1 | reflexivity]. }
  { lia. }
  { reflexivity. }
  rewrite P0 in R21. change (inject_Z 100) with 100 in R21.
  rewrite R2. assert (H100 : 100 < pow10 21) by reflexivity.
  rewrite parseFloat_toFixed1;
    [|exact R20|apply Qle_lt_trans with 100; [exact R21 | exact H100]].
  destruct (floor_bounds (r2 * 10 + (1 # 2))) as [F1 F2].
  assert (F0 : (0 <= Qfloor (r2 * 10 + (1 # 2)) <= 1000)%Z).
  { split.
    - rewrite <- (Qfloor_Z 0). apply Qfloor_resp_le. change (inject_Z 0) with 0.
      clear - R20. lra.
    - change 1000%Z with (Qfloor (2001 # 2)). apply Qfloor_resp_le.
      clear - R21. lra. }
  set (n := Qfloor (r2 * 10 + (1 # 2))) in *.
  assert (N0 : 0 <= inject_Z n) by (rewrite <- (Zle_Qle 0); lia).
  assert (N1 : inject_Z n <= 1000) by (change 1000 with (inject_Z 1000); rewrite <- Zle_Qle; lia).
  assert (E10 : inject_Z n / 10 == inject_Z n * (1 # 10)) by reflexivity.
  destruct (round_upper 100 0 (inject_Z n / 10)) as (r3 & R3 & R30 & R31).
  { rewrite E10. lra. }
  { rewrite E10, P0. change (inject_Z 100) with 100. lra. }
  { rewrite E10. apply Qle_lt_trans with 100; [lra | reflexivity]. }
  { lia. }
  { reflexivity. }
  exists r3. split; [exact R3|]. rewrite P0 in R31. change (inject_Z 100) with 100 in R31.
  split; lra.
Qed.

Lemma change_failure_rate_within_100_witness :
  (exists b, In b bug_and_task /\ is_bug b = true /\ status_released b = true)
  /\ changeFailureRate (calculateDORAMetrics bug_and_task) = Num 50
  /\ exists q, changeFailureRate (calculateDORAMetrics bug_and_task) = Num q /\ 0 <= q <= 100.
Proof.
  split; [|split].
  - eexists. split; [left; reflexivity|]. split; reflexivity.
  - vm_compute. reflexivity.
  - apply (change_failure_rate_within_100 bug_and_task).
    + vm_compute. reflexivity.
    + intros b [<-|[<-|[]]] B S.
      * discriminate.
      * discriminate B.
Defined.

(** ** Invalid dates *)

(** A date that is not valid, in a released issue that went to development,
    makes the lead time NaN: the NaN of its time value goes through the
    total and the average. *)
Theorem invalid_date_makes_lead_time_NaN issues i t0 t1 :
  is_array issues -> In i issues -> released i = true ->
  first_transition "In Development" i = Some t0 ->
  resolutiondate (fields i) = Some t1 ->
  ~ valid_time t0 \/ ~ valid_time t1 ->
  leadTime (calculateDORAMetrics issues) = NaN.
Proof.
  intros Ha Hi Hr F R Hv.
  assert (V : lead_value i = Some NaN).
  { unfold lead_value. rewrite findStatusChangeTime_first, F, R. cbn [option_map new_Date_field].
    f_equal. destruct Hv as [H|H]; rewrite (new_Date_invalid _ H);
      apply calculateDaysBetween_NaN. }
  assert (In' : In i (releasedIssues issues)).
  { change (releasedIssues issues) with (List.filter released issues).
    apply List.filter_In. split; assumption. }
  assert (Hf := is_array_filter released issues Ha). unfold is_array in Hf.
  change (List.filter released issues) with (releasedIssues issues) in Hf.
  assert (P : (2 ^ 32 < 2 ^ 53)%Z) by reflexivity.
  rewrite leadTime_eq, (fold_left_ext _ _ _ leadTime_step_accumulate), of_Z_0.
  destruct (fold_count_NaN lead_value (releasedIssues issues) (Num (inject_Z 0)) 0)
    as (T' & E & N); [lia | lia |].
  rewrite E, (N (or_intror (ex_intro _ i (conj In' V)))).
  assert (C := keep_some_In lead_value _ i NaN In' V).
  rewrite gt_Z. destruct (Z.ltb_spec 0 (0 + Z.of_nat (List.length (keep_some lead_value
                                                              (releasedIssues issues)))))
    as [_|L]; [reflexivity | lia].
Qed.

Lemma invalid_date_makes_lead_time_NaN_witness :
  leadTime (calculateDORAMetrics
    [make_issue "Released" "Story" None (Some 8640000000000001%Z) None
       (Some {| histories := Some [status_change (day 2) "In Development"] |})])
  = NaN.
Proof.
  apply (invalid_date_makes_lead_time_NaN _
           (make_issue "Released" "Story" None (Some 8640000000000001%Z) None
              (Some {| histories := Some [status_change (day 2) "In Development"] |}))
           (day 2) 8640000000000001%Z).
  - vm_compute. reflexivity.
  - left. reflexivity.
  - reflexivity.
  - reflexivity.
  - reflexivity.
  - right. unfold valid_time. vm_compute. intros H. apply H. reflexivity.
Defined.

(** ** Errors of the handlers *)

(** The message that [fetchJiraIssues] of the health matrix throws on a reply
    without data. *)
Lemma matrix_fetch_error env tracker jql fields w :
  reply_data (tracker w (search_request env jql fields)) = None ->
  exists message,
    HealthMatrix.fetchJiraIssues env tracker jql fields w
    = (Thrown message, w ++ [search_request env jql fields])
    /\ (forall e, tracker w (search_request env jql fields) = Thrown e -> message = e)
    /\ (forall response,
          tracker w (search_request env jql fields) = Returned response ->
          (Fetch.ok response = false ->
           message = ("JIRA API error: " ++ digits (Fetch.status response))%string)
          /\ (forall e, Fetch.ok response = true -> Fetch.json response = Thrown e ->
                        message = e)).
Proof.
  unfold reply_data, HealthMatrix.fetchJiraIssues, bind, fetch. intros H.
  destruct (tracker w _) as [response|e].
  - destruct (Fetch.ok response) eqn:O; cbn [negb].
    + unfold lift. destruct (Fetch.json response) as [d|e] eqn:J; [discriminate|].
      exists e. split; [reflexivity|]. split; [discriminate|].
      intros r [= <-]. split; [congruence|]. intros e' _ J'. congruence.
    + eexists. split; [reflexivity|]. split; [discriminate|].
      intros r [= <-]. split; [reflexivity|]. intros e' O'. congruence.
  - exists e. split; [reflexivity|]. split; [congruence | discriminate].
Qed.

Lemma dora_fetch_error env tracker jql fields w :
  reply_data (tracker w (search_request env jql fields)) = None ->
  exists message,
    Dora.fetchJiraIssues env tracker jql fields w
    = (Thrown message, w ++ [search_request env jql fields])
    /\ (forall e, tracker w (search_request env jql fields) = Thrown e -> message = e)
    /\ (forall response,
          tracker w (search_request env jql fields) = Returned response ->
          (Fetch.ok response = false ->
           message = ("JIRA API error: " ++ digits (Fetch.status response) ++ " - "
                      ++ Fetch.text response)%string)
          /\ (forall e, Fetch.ok response = true -> Fetch.json response = Thrown e ->
                        message = e)).
Proof.
  unfold reply_data, Dora.fetchJiraIssues, bind, fetch. intros H.
  destruct (tracker w _) as [response|e].
  - destruct (Fetch.ok response) eqn:O; cbn [negb].
    + unfold lift. destruct (Fetch.json response) as [d|e] eqn:J; [discriminate|].
      exists e. split; [reflexivity|]. split; [discriminate|].
      intros r [= <-]. split; [congruence|]. intros e' _ J'. congruence.
    + eexists. split; [reflexivity|]. split; [discriminate|].
      intros r [= <-]. split; [reflexivity|]. intros e' O'. congruence.
  - exists e. split; [reflexivity|]. split; [congruence | discriminate].
Qed.

Lemma for_projects_first_failure env tracker ps : forall m w good bad rest,
  replies tracker w (map (matrix_request env) ps) = good ++ bad :: rest ->
  Forall (fun reply => reply_data reply <> None) good ->
  reply_data bad = None ->
  exists message,
    HealthMatrix.for_projects env tracker ps m w
    = (Thrown message, w ++ firstn (S (List.length good)) (map (matrix_request env) ps))
    /\ (forall e, bad = Thrown e -> message = e)
    /\ (forall response, bad = Returned response ->
          (Fetch.ok response = false ->
           message = ("JIRA API error: " ++ digits (Fetch.status response))%string)
          /\ (forall e, Fetch.ok response = true -> Fetch.json response = Thrown e ->
                        message = e)).
Proof.
  induction ps as [|p ps IH]; intros m w good bad rest E G B.
  - destruct good; discriminate E.
  - cbn [map replies] in E. cbn [HealthMatrix.for_projects]. unfold bind.
    destruct good as [|g good].
    + cbn [List.app] in E. injection E as E1 E2. subst bad.
      unfold matrix_request in B at 1.
      destruct (matrix_fetch_error _ _ _ _ _ B) as (message & F & M1 & M2).
      rewrite F. exists message. split; [reflexivity|]. split; assumption.
    + cbn [List.app] in E. injection E as E1 E2. subst g.
      apply List.Forall_cons_iff in G. destruct G as [G1 G2].
      destruct (reply_data (tracker w (matrix_request env p))) as [d|] eqn:R; [|contradiction].
      assert (R' := R). unfold matrix_request in R' at 1.
      rewrite (matrix_fetch_data _ _ _ _ _ _ R'). fold (matrix_request env p).
      destruct (IH (<[p := calculateDORAMetrics (issues d)]> m) _ good bad rest E2 G2 B)
        as (message & F & M1 & M2).
      rewrite F. exists message. split; [|split; assumption].
      cbn [List.length firstn map]. rewrite <- List.app_assoc. reflexivity.
Qed.

(** The health-matrix handler stops at the first request that fails: the
    requests for the later projects are never sent, and [details] is the
    message of that failure, [JIRA API error: ] followed by the status for a
    response that is not [ok]. *)
Theorem health_matrix_stops_at_first_failure env tracker w good bad rest :
  let requests := map (matrix_request env) HealthMatrix.projects in
  replies tracker w requests = good ++ bad :: rest ->
  Forall (fun reply => reply_data reply <> None) good ->
  reply_data bad = None ->
  exists details,
    HealthMatrix.GET env tracker w
    = (Returned {| status_code := 500;
                   body := HealthMatrix.Failure "Failed to fetch health matrix" details |},
       w ++ firstn (S (List.length good)) requests)
    /\ (forall e, bad = Thrown e -> details = e)
    /\ (forall response, bad = Returned response ->
          (Fetch.ok response = false ->
           details = ("JIRA API error: " ++ digits (Fetch.status response))%string)
          /\ (forall e, Fetch.ok response = true -> Fetch.json response = Thrown e ->
                        details = e)).
Proof.
  intros requests E G B.
  destruct (for_projects_first_failure env tracker _ ∅ w good bad rest E G B)
    as (message & F & M1 & M2).
  exists message. unfold HealthMatrix.GET, try_catch, bind. rewrite F.
  split; [reflexivity|]. split; assumption.
Qed.

Lemma health_matrix_stops_at_first_failure_witness :
  let env := {| JIRA_EMAIL := None; JIRA_API_TOKEN := None; JIRA_DOMAIN := None |} in
  let unauthorized :=
    Returned {| Fetch.ok := false; Fetch.status := 401; Fetch.text := "denied";
                Fetch.json := Thrown "not JSON" |} in
  let tracker : Tracker := fun _ _ => unauthorized in
  exists details,
    HealthMatrix.GET env tracker []
    = (Returned {| status_code := 500;
                   body := HealthMatrix.Failure "Failed to fetch health matrix" details |},
       [matrix_request env "DAI"])
    /\ details = "JIRA API error: 401"%string.
Proof.
  intros env unauthorized tracker.
  destruct (health_matrix_stops_at_first_failure env tracker [] [] unauthorized
              (replies tracker [matrix_request env "DAI"]
                 (map (matrix_request env) ["DGDPO"; "DMM"; "DE"; "VEH"; "CAT"]%string)))
    as (details & E & _ & M).
  - reflexivity.
  - constructor.
  - reflexivity.
  - exists details. split; [exact E|].
    apply (proj1 (M _ eq_refl)). reflexivity.
Defined.

(** The handlers of the metrics never throw: whatever the tracker does, the
    response has the status 200 with a body of success, or the status 500
    with the body of failure of the handler. *)
Theorem metric_handlers_never_throw env tracker w :
  (exists response w',
     HealthMatrix.GET env tracker w = (Returned response, w')
     /\ ((status_code response = 200%Z /\ exists data, body response = HealthMatrix.Success data)
         \/ (status_code response = 500%Z
             /\ exists details,
                  body response
                  = HealthMatrix.Failure "Failed to fetch health matrix" details)))
  /\ (forall params,
        exists response w',
          Dora.GET env tracker params w = (Returned response, w')
          /\ ((status_code response = 200%Z
               /\ exists project n metrics, body response = Dora.Success project n metrics)
              \/ (status_code response = 500%Z
                  /\ exists details,
                       body response
                       = Dora.Failure "Failed to fetch DORA metrics" details))).
Proof.
  split.
  - unfold HealthMatrix.GET, try_catch, bind.
    destruct (HealthMatrix.for_projects env tracker HealthMatrix.projects ∅ w) as [[m|e] w'].
    + eexists _, _. split; [reflexivity|]. left. cbn. eauto.
    + eexists _, _. split; [reflexivity|]. right. cbn. eauto.
  - intros params. unfold Dora.GET, try_catch, bind.
    destruct (Dora.fetchJiraIssues env tracker _ Dora.fields w) as [[d|e] w'].
    + eexists _, _. split; [reflexivity|]. left. cbn. eauto.
    + eexists _, _. split; [reflexivity|]. right. cbn. eauto.
Qed.

(** The failure of the single-project handler: on a reply without data it
    answers with the status 500, having sent its one request, and [details]
    is the message of the failure, which for a response that is not [ok]
    holds the status and the text of the body. *)
Theorem single_project_failure env tracker params w :
  let project := or_else (Dora.get_project params) "DAI" in
  let request :=
    search_request env
      (Dora.build_jql project (Dora.get_startDate params) (Dora.get_endDate params))
      Dora.fields in
  reply_data (tracker w request) = None ->
  exists details,
    Dora.GET env tracker params w
    = (Returned {| status_code := 500;
                   body := Dora.Failure "Failed to fetch DORA metrics" details |},
       w ++ [request])
    /\ (forall e, tracker w request = Thrown e -> details = e)
    /\ (forall response, tracker w request = Returned response ->
          (Fetch.ok response = false ->
           details = ("JIRA API error: " ++ digits (Fetch.status response) ++ " - "
                      ++ Fetch.text response)%string)
          /\ (forall e, Fetch.ok response = true -> Fetch.json response = Thrown e ->
                        details = e)).
Proof.
  intros project request H. unfold request in *.
  destruct (dora_fetch_error _ _ _ _ _ H) as (message & F & M1 & M2).
  exists message. unfold Dora.GET, try_catch, bind. fold project. rewrite F.
  split; [reflexivity|]. split; assumption.
Qed.

Lemma single_project_failure_witness :
  let env := {| JIRA_EMAIL := None; JIRA_API_TOKEN := None; JIRA_DOMAIN := None |} in
  let params := {| Dora.get_project := None; Dora.get_startDate := None;
                   Dora.get_endDate := None |} in
  let tracker : Tracker := fun _ _ =>
    Returned {| Fetch.ok := false; Fetch.status := 400; Fetch.text := "bad query";
                Fetch.json := Thrown "not JSON" |} in
  exists details,
    fst (Dora.GET env tracker params [])
    = Returned {| status_code := 500;
                  body := Dora.Failure "Failed to fetch DORA metrics" details |}
    /\ details = "JIRA API error: 400 - bad query"%string.
Proof.
  intros env params tracker.
  destruct (single_project_failure env tracker params []) as (details & E & _ & M).
  - reflexivity.
  - exists details. split; [rewrite E; reflexivity|].
    apply (proj1 (M _ eq_refl)). reflexivity.
Defined.

(** ** Empty parameters *)

(** A query parameter that is given with an empty text is treated as if it
    were missing: an empty [project] gives [DAI], an empty date bound adds no
    clause. *)
Theorem empty_parameters_count_as_missing env tracker params w :
  Dora.GET env tracker params w
  = Dora.GET env tracker
      {| Dora.get_project := drop_empty (Dora.get_project params);
         Dora.get_startDate := drop_empty (Dora.get_startDate params);
         Dora.get_endDate := drop_empty (Dora.get_endDate params) |} w.
Proof.
  unfold Dora.GET. cbn [Dora.get_project Dora.get_startDate Dora.get_endDate].
  assert (O : forall v d, or_else (drop_empty v) d = or_else v d).
  { intros [s|] d; [|reflexivity]. cbn [drop_empty or_else].
    destruct (String.eqb s EmptyString) eqn:E; [reflexivity|]. cbn [or_else]. rewrite E.
    reflexivity. }
  assert (J : forall p a b, Dora.build_jql p (drop_empty a) (drop_empty b)
                            = Dora.build_jql p a b).
  { intros p a b. rewrite !build_jql_clauses.
    assert (C : forall op v, date_clause op (drop_empty v) = date_clause op v).
    { intros op [s|]; [|reflexivity]. cbn [drop_empty date_clause].
      destruct (String.eqb s EmptyString) eqn:E; [reflexivity|]. cbn [date_clause].
      rewrite E. reflexivity. }
    rewrite !C. reflexivity. }
  rewrite O, J. reflexivity.
Qed.

(** ** [findStatusChangeTime] *)

(** Without a changelog, or without histories in it, nothing is found.
    Otherwise the result is the date of a history of the changelog that has
    an item of the field [status] going to the status asked for, and there
    is a result as soon as there is such a history; items of other fields do
    not count. *)
Theorem findStatusChangeTime_sound_complete statusName :
  findStatusChangeTime None statusName = None
  /\ findStatusChangeTime (Some {| histories := None |}) statusName = None
  /\ (forall hs d,
        findStatusChangeTime (Some {| histories := Some hs |}) statusName = Some d ->
        exists h, In h hs /\ transition_to statusName h = true
                  /\ d = new_Date (History.created h))
  /\ (forall hs h,
        In h hs -> transition_to statusName h = true ->
        findStatusChangeTime (Some {| histories := Some hs |}) statusName <> None)
  /\ (forall h,
        transition_to statusName h = true
        <-> exists item, In item (History.items h) /\ field item = "status"%string
                         /\ toString item = statusName).
Proof.
  split; [reflexivity|]. split; [reflexivity|]. split; [|split].
  - intros hs d. cbn [findStatusChangeTime histories]. rewrite scan_histories_find.
    destruct (List.find (transition_to statusName) hs) as [h|] eqn:F; [|discriminate].
    cbn [option_map]. intros [= <-]. apply List.find_some in F. exists h. tauto.
  - intros hs h Hh Ht. cbn [findStatusChangeTime histories]. rewrite scan_histories_find.
    destruct (List.find (transition_to statusName) hs) as [h'|] eqn:F; [discriminate|].
    assert (X := List.find_none _ _ F h Hh). congruence.
  - intros h. unfold transition_to. rewrite List.existsb_exists. split.
    + intros (item & Hi & Hb). apply andb_prop in Hb. destruct Hb as [B1 B2].
      apply String.eqb_eq in B1. apply String.eqb_eq in B2. eauto.
    + intros (item & Hi & B1 & B2). exists item. split; [exact Hi|].
      rewrite B1, B2, !String.eqb_refl. reflexivity.
Qed.

Lemma findStatusChangeTime_sound_complete_witness :
  findStatusChangeTime
    (Some {| histories := Some [status_change (day 1) "To Do";
                                status_change (day 2) "In Development"] |})
    "In Development"
  <> None.
Proof.
  apply (proj1 (proj2 (proj2 (proj2 (findStatusChangeTime_sound_complete "In Development"))))
           _ (status_change (day 2) "In Development")).
  - right. left. reflexivity.
  - reflexivity.
Defined.

(** ** The change-failure rate as a percentage with one decimal *)

(** A value close enough to a quotient of whole numbers has the same nearest
    tenths. *)
Lemma tenths_of_close a b r :
  (0 < b)%Z -> Qabs (r - inject_Z a / inject_Z b) * (20 * inject_Z b) < 1 ->
  nearest_tenth (Qfloor (r * 10 + (1 # 2))) (inject_Z a / inject_Z b).
Proof.
  intros Hb Hc. assert (QB := inject_Z_pos b Hb).
  set (x := inject_Z a / inject_Z b) in *.
  assert (Xb : x * inject_Z b == inject_Z a) by (unfold x; field; lra).
  assert (B20 : 0 < 20 * inject_Z b) by lra.
  assert (K1 : (r - x) * (20 * inject_Z b) < 1).
  { apply Qle_lt_trans with (Qabs (r - x) * (20 * inject_Z b)); [|exact Hc].
    apply Qmult_le_r; [exact B20 | apply Qle_Qabs]. }
  assert (K2 : (x - r) * (20 * inject_Z b) < 1).
  { apply Qle_lt_trans with (Qabs (r - x) * (20 * inject_Z b)); [|exact Hc].
    apply Qmult_le_r; [exact B20|]. rewrite <- Qabs_opp.
    assert (E : - (r - x) == x - r) by ring. rewrite E. apply Qle_Qabs. }
  clear Hc. destruct (floor_bounds (r * 10 + (1 # 2))) as [F1 F2].
  set (n := Qfloor (r * 10 + (1 # 2))) in *. unfold nearest_tenth.
  assert (E10 : inject_Z n / 10 == inject_Z n * (1 # 10)) by reflexivity.
  rewrite E10. apply Qabs_Qle_condition. split.
  - apply Qnot_lt_le. intros C.
    assert (Cz : ((2 * n + 1) * b + 1 <= 20 * a)%Z).
    { assert (Cq : inject_Z ((2 * n + 1) * b) < inject_Z (20 * a)).
      { rewrite !inject_Z_mult, inject_Z_plus, inject_Z_mult.
        change (inject_Z 2) with 2. change (inject_Z 1) with 1. change (inject_Z 20) with 20.
        rewrite <- Xb.
        assert (T : (2 * inject_Z n + 1) * inject_Z b < 20 * x * inject_Z b).
        { apply Qmult_lt_r; [exact QB | lra]. }
        lra. }
      rewrite <- Zlt_Qlt in Cq. lia. }
    assert (Cq : inject_Z ((2 * n + 1) * b + 1) <= inject_Z (20 * a))
      by (rewrite <- Zle_Qle; exact Cz).
    rewrite inject_Z_plus, !inject_Z_mult, inject_Z_plus, inject_Z_mult in Cq.
    change (inject_Z 2) with 2 in Cq. change (inject_Z 1) with 1 in Cq.
    change (inject_Z 20) with 20 in Cq. rewrite <- Xb in Cq.
    assert (T : 20 * r * inject_Z b < (2 * inject_Z n + 1) * inject_Z b).
    { apply Qmult_lt_r; [exact QB | lra]. }
    lra.
  - apply Qnot_lt_le. intros C.
    assert (Cz : (20 * a + 1 <= (2 * n - 1) * b)%Z).
    { assert (Cq : inject_Z (20 * a) < inject_Z ((2 * n - 1) * b)).
      { unfold Z.sub. rewrite !inject_Z_mult, inject_Z_plus, inject_Z_mult, inject_Z_opp.
        change (inject_Z 2) with 2. change (inject_Z 1) with 1. change (inject_Z 20) with 20.
        rewrite <- Xb.
        assert (T : 20 * x * inject_Z b < (2 * inject_Z n + - (1)) * inject_Z b).
        { apply Qmult_lt_r; [exact QB | lra]. }
        lra. }
      rewrite <- Zlt_Qlt in Cq. lia. }
    assert (Cq : inject_Z (20 * a + 1) <= inject_Z ((2 * n - 1) * b))
      by (rewrite <- Zle_Qle; exact Cz).
    unfold Z.sub in Cq.
    rewrite inject_Z_plus, !inject_Z_mult, inject_Z_plus, inject_Z_mult, inject_Z_opp in Cq.
    change (inject_Z 2) with 2 in Cq. change (inject_Z 1) with 1 in Cq.
    change (inject_Z 20) with 20 in Cq. rewrite <- Xb in Cq.
    assert (T : (2 * inject_Z n + - (1)) * inject_Z b <= 20 * r * inject_Z b).
    { apply Qmult_le_r; [exact QB | lra]. }
    lra.
Qed.

Lemma pow2_minus_53 l : pow2 (l - 53) == pow2 l * (1 # 9007199254740992).
Proof.
  replace (l - 53)%Z with (l + -53)%Z by ring. rewrite pow2_add. reflexivity.
Qed.

(** The percentage of a quotient of counts: the two roundings, of the
    quotient and of its product by 100, do not move the nearest tenths. *)
Lemma percentage_tenths rb ri :
  (0 < rb < 2 ^ 32)%Z -> (0 < ri < 2 ^ 32)%Z ->
  exists r, mul (div (Num (inject_Z rb)) (Num (inject_Z ri))) (of_Z 100) = Num r
            /\ 0 <= r /\ r <= pow2 42
            /\ nearest_tenth (Qfloor (r * 10 + (1 # 2))) (inject_Z (100 * rb) / inject_Z ri).
Proof.
  intros Hb Hi. assert (QB := inject_Z_pos rb (proj1 Hb)).
  assert (QI := inject_Z_pos ri (proj1 Hi)).
  rewrite div_Z by lia. rewrite (of_Z_small 100) by reflexivity.
  set (q := inject_Z rb / inject_Z ri).
  assert (Xq : q * inject_Z ri == inject_Z rb) by (unfold q; field; lra).
  assert (B32 : inject_Z rb < pow2 32) by (apply inject_Z_lt_pow2; lia).
  assert (I32 : inject_Z ri < pow2 32) by (apply inject_Z_lt_pow2; lia).
  assert (I1 : 1 <= inject_Z ri) by (rewrite <- (Zle_Qle 1); lia).
  assert (B1 : 1 <= inject_Z rb) by (rewrite <- (Zle_Qle 1); lia).
  assert (E32 : pow2 32 == 4294967296) by reflexivity.
  assert (Q0 : 0 < q) by (unfold q; apply Qlt_shift_div_l; lra).
  assert (Qu : q <= inject_Z rb).
  { unfold q. apply Qle_shift_div_r; [exact QI|].
    assert (T : inject_Z rb * 1 <= inject_Z rb * inject_Z ri) by (apply Qmult_le_l; assumption).
    lra. }
  assert (Ql : pow2 (-32) <= q).
  { unfold q. apply Qle_shift_div_l; [exact QI|].
    assert (E : pow2 (-32) * pow2 32 == 1) by reflexivity.
    assert (T : pow2 (-32) * inject_Z ri <= pow2 (-32) * pow2 32).
    { apply Qmult_le_l; [apply pow2_pos | lra]. }
    lra. }
  assert (P32 := pow2_pos (-32)).
  assert (L1 : pow2 (-1022) <= q).
  { apply Qle_trans with (pow2 (-32)); [apply pow2_le; lia | exact Ql]. }
  assert (U1 : q < pow2 1023).
  { apply Qlt_le_trans with (pow2 32); [lra | apply pow2_le; lia]. }
  destruct (round_normal q L1 U1) as (r1 & R1 & [R1a R1b] & R1e).
  destruct (ilog2_spec q Q0) as [S1 S2]. rewrite pow2_succ in R1b.
  rewrite pow2_minus_53 in R1e. apply Qabs_Qle_condition in R1e. destruct R1e as [R1l R1u].
  set (A := pow2 (ilog2 q)) in *. assert (A0 : 0 < A) by apply pow2_pos.
  rewrite R1. cbn [mul]. change (inject_Z 100) with 100.
  set (y := r1 * 100).
  assert (Y0 : 0 < y) by (unfold y; lra).
  assert (L2 : pow2 (-1022) <= y).
  { apply Qle_trans with (pow2 (-32)); [apply pow2_le; lia | unfold y; lra]. }
  assert (U2 : y < pow2 1023).
  { apply Qlt_le_trans with (pow2 42); [|apply pow2_le; lia].
    assert (E : pow2 42 == 1024 * pow2 32) by reflexivity. unfold y. lra. }
  destruct (round_normal y L2 U2) as (r2 & R2 & [R2a R2b] & R2e).
  destruct (ilog2_spec y Y0) as [T1 T2]. rewrite pow2_succ in R2b.
  rewrite pow2_minus_53 in R2e. apply Qabs_Qle_condition in R2e. destruct R2e as [R2l R2u].
  set (B := pow2 (ilog2 y)) in *. assert (B0 : 0 < B) by apply pow2_pos.
  exists r2. split; [exact R2|]. split; [lra|]. split.
  { assert (E : pow2 42 == 1024 * pow2 32) by reflexivity. unfold y in *. lra. }
  apply tenths_of_close; [lia|].
  assert (V : inject_Z (100 * rb) / inject_Z ri == 100 * q).
  { unfold q. rewrite inject_Z_mult. change (inject_Z 100) with 100. field. lra. }
  rewrite V.
  (* |r2 - 100 q| <= 300 q / 2^53 *)
  assert (D : Qabs (r2 - 100 * q) <= 300 * q * (1 # 9007199254740992)).
  { apply Qabs_Qle_condition. unfold y in *. split; lra. }
  assert (B20 : 0 < 20 * inject_Z ri) by lra.
  apply Qle_lt_trans with (300 * q * (1 # 9007199254740992) * (20 * inject_Z ri)).
  - apply Qmult_le_r; assumption.
  - assert (E : 300 * q * (1 # 9007199254740992) * (20 * inject_Z ri)
                == 6000 * (1 # 9007199254740992) * (q * inject_Z ri)) by ring.
    rewrite E, Xq. lra.
Qed.

(** The change-failure rate that the code computes, for every array of
    issues: 0 when no issue is released, and otherwise a decimal with one
    place nearest to 100 times the number of bugs with the status [Released]
    over the number of released issues. *)
Theorem change_failure_rate_value issues :
  is_array issues ->
  let numerator := Z.of_nat (List.length (releasedBugs issues)) in
  let denominator := Z.of_nat (List.length (releasedIssues issues)) in
  (denominator = 0%Z -> changeFailureRate (calculateDORAMetrics issues) = Num 0)
  /\ (denominator <> 0%Z ->
      exists n, changeFailureRate (calculateDORAMetrics issues) = round (inject_Z n / 10)
                /\ nearest_tenth n (inject_Z (100 * numerator) / inject_Z denominator)).
Proof.
  intros Ha rb ri.
  assert (Hr := is_array_filter released issues Ha).
  assert (Hb : is_array (releasedBugs issues)).
  { rewrite releasedBugs_filter. apply is_array_filter. exact Ha. }
  change (List.filter released issues) with (releasedIssues issues) in Hr.
  rewrite changeFailureRate_eq. rewrite !array_length_exact by assumption.
  unfold is_array in Hr, Hb. fold rb ri in Hr, Hb |- *. rewrite gt_Z. split.
  - intros ->. reflexivity.
  - intros NZ. destruct (Z.ltb_spec 0 ri) as [P|N]; [|unfold ri in *; lia].
    destruct (Z.eq_dec rb 0%Z) as [Z0|NB].
    + rewrite Z0. rewrite div_Z by lia. rewrite round_0 by (unfold Qdiv; ring).
      exists 0%Z. split; [reflexivity|]. unfold nearest_tenth.
      assert (E : inject_Z 0 / 10 - inject_Z (100 * 0) / inject_Z ri == 0).
      { change (inject_Z (100 * 0)) with 0. change (inject_Z 0) with 0. unfold Qdiv. ring. }
      rewrite E. apply Qabs_Qle_condition. split; discriminate.
    + destruct (percentage_tenths rb ri) as (r & -> & R0 & R1 & Nt);
        [unfold rb in *; lia | lia |].
      assert (P42 : pow2 42 < pow10 21) by reflexivity.
      rewrite parseFloat_toFixed1; [|exact R0|apply Qle_lt_trans with (pow2 42); assumption].
      eexists. split; [reflexivity | exact Nt].
Qed.

Lemma change_failure_rate_value_witness :
  exists n, changeFailureRate (calculateDORAMetrics two_bugs) = round (inject_Z n / 10)
            /\ nearest_tenth n (inject_Z (100 * 2) / inject_Z 1).
Proof.
  apply (proj2 (change_failure_rate_value two_bugs ltac:(vm_compute; reflexivity))).
  vm_compute. discriminate.
Defined.

(** ** Agreement with the IEEE-754 operations of the Standard Library *)

Example div_agrees_3_20 :
  div (of_Z 3) (of_Z 20)
  = of_spec_float (SFdiv 53 1024 (binary64_of_Z 3) (binary64_of_Z 20)).
Proof. vm_compute. reflexivity. Qed.

Example div_agrees_1_3 :
  div (of_Z 1) (of_Z 3)
  = of_spec_float (SFdiv 53 1024 (binary64_of_Z 1) (binary64_of_Z 3)).
Proof. vm_compute. reflexivity. Qed.

Example mul_div_agrees_1_2000 :
  mul (div (of_Z 1) (of_Z 2000)) (of_Z 100)
  = of_spec_float (SFmul 53 1024 (SFdiv 53 1024 (binary64_of_Z 1) (binary64_of_Z 2000))
                                 (binary64_of_Z 100)).
Proof. vm_compute. reflexivity. Qed.

Example add_agrees_tenths :
  add (div (of_Z 1) (of_Z 10)) (div (of_Z 2) (of_Z 10))
  = of_spec_float (SFadd 53 1024 (SFdiv 53 1024 (binary64_of_Z 1) (binary64_of_Z 10))
                                 (SFdiv 53 1024 (binary64_of_Z 2) (binary64_of_Z 10))).
Proof. vm_compute. reflexivity. Qed.

Example of_Z_agrees_large :
  of_Z (2 ^ 53 + 3) = of_spec_float (binary64_of_Z (2 ^ 53 + 3)).
Proof. vm_compute. reflexivity. Qed.

Example days_agree_sample :
  div (of_Z 691200001) (of_Z 86400000)
  = of_spec_float (SFdiv 53 1024 (binary64_of_Z 691200001) (binary64_of_Z 86400000)).
Proof. vm_compute. reflexivity. Qed.

Example toFixed1_samples :
  toFixed1 (div (of_Z 3) (of_Z 20)) = "0.1"%string
  /\ toFixed1 (div (of_Z 1) (of_Z 4)) = "0.3"%string
  /\ toFixed1 (of_Z 8) = "8.0"%string
  /\ toFixed1 (of_Z (10 ^ 21)) = "1e+21"%string
  /\ toFixed1 (of_Z (2 ^ 70)) = "1.1805916207174113e+21"%string
  /\ toFixed1 NaN = "NaN"%string.
Proof. repeat split; vm_compute; reflexivity. Qed.
